(** * lighthouse, pkg/plumber/types.go: the Duration JSON codec and
      DecorationConfig.Validate

    [Duration.UnmarshalJSON] and [Duration.MarshalJSON] are three and one
    calls into the Go standard library ([encoding/json], [time], and through
    them [strconv] and [unicode/utf8]).  The library functions they reach are
    transcribed below from the Go sources (current releases), byte for byte:
    strings are Go strings, that is byte sequences ([string], a list of
    [ascii]); integers are [Z] with the 64-bit wrap-around written out; the
    [float64] arithmetic of [time.ParseDuration] is IEEE 754 binary64 as
    specified by [SpecFloat]. *)

From Stdlib Require Import ZArith Lia Bool List Ascii String.
From Stdlib Require Import Floats.SpecFloat.
Import ListNotations.

Local Open Scope string_scope.
Local Open Scope Z_scope.

(** ** Bytes and strings *)

Definition code (c : ascii) : Z := Z.of_N (N_of_ascii c).
Definition byte_of (z : Z) : ascii := ascii_of_N (Z.to_N (z mod 256)).

Definition dquote : ascii := "034"%char.
Definition backslash : ascii := "092"%char.
Definition quoted (s : string) : string :=
  String dquote (s ++ String dquote EmptyString).

Definition len (s : string) : Z := Z.of_nat (String.length s).

Fixpoint drop (n : nat) (s : string) : string :=
  match n, s with
  | O, _ => s
  | S n', String _ s' => drop n' s'
  | S _, EmptyString => EmptyString
  end.

Fixpoint take (n : nat) (s : string) : string :=
  match n, s with
  | O, _ => EmptyString
  | S n', String c s' => String c (take n' s')
  | S _, EmptyString => EmptyString
  end.


Fixpoint allBytes (p : ascii -> bool) (s : string) : bool :=
  match s with
  | EmptyString => true
  | String c s' => p c && allBytes p s'
  end.

Definition isDigit (c : ascii) : bool := (48 <=? code c) && (code c <=? 57).

Definition hexchar (digits : string) (z : Z) : ascii :=
  match String.get (Z.to_nat z) digits with
  | Some c => c
  | None => "0"%char
  end.

(** ** 64-bit integers *)

Definition u64 (z : Z) : Z := z mod 2 ^ 64.
Definition i64 (z : Z) : Z := (z + 2 ^ 63) mod 2 ^ 64 - 2 ^ 63.
Definition is_int64 (z : Z) : Prop := - 2 ^ 63 <= z < 2 ^ 63.

(** ** Go errors

    The concrete error types the codec can return, with their [Error()]
    texts. *)

Inductive error : Type :=
| SyntaxError (msg : string) (Offset : Z)
    (* *json.SyntaxError *)
| UnmarshalTypeError (Value : string) (Type_ : string) (Offset : Z)
    (* *json.UnmarshalTypeError, outside any struct *)
| errorString (s : string)
    (* errors.New *)
| Panic (msg : string).
    (* a run-time panic, carried in the error position *)


(** ** unicode/utf8 *)

Module utf8.

Definition RuneError : Z := 0xFFFD.
Definition RuneSelf : Z := 0x80.
Definition MaxRune : Z := 0x10FFFF.
Definition UTFMax : Z := 4.

Definition surrogateMin : Z := 0xD800.
Definition surrogateMax : Z := 0xDFFF.

Definition tx : Z := 0x80.
Definition t2 : Z := 0xC0.
Definition t3 : Z := 0xE0.
Definition t4 : Z := 0xF0.

Definition maskx : Z := 0x3F.
Definition mask2 : Z := 0x1F.
Definition mask3 : Z := 0x0F.
Definition mask4 : Z := 0x07.

Definition rune1Max : Z := 0x7F.
Definition rune2Max : Z := 0x7FF.
Definition rune3Max : Z := 0xFFFF.

Definition locb : Z := 0x80.
Definition hicb : Z := 0xBF.

(* Information about the first byte of a sequence: the low three bits are
   the size, the high four bits index acceptRanges. *)
Definition xx : Z := 0xF1.
Definition as_ : Z := 0xF0.
Definition s1 : Z := 0x02.
Definition s2 : Z := 0x13.
Definition s3 : Z := 0x03.
Definition s4 : Z := 0x23.
Definition s5 : Z := 0x34.
Definition s6 : Z := 0x04.
Definition s7 : Z := 0x44.

Definition first (p0 : Z) : Z :=
  if p0 <=? 0x7F then as_
  else if p0 <=? 0xC1 then xx
  else if p0 <=? 0xDF then s1
  else if p0 =? 0xE0 then s2
  else if p0 <=? 0xEC then s3
  else if p0 =? 0xED then s4
  else if p0 <=? 0xEF then s3
  else if p0 =? 0xF0 then s5
  else if p0 <=? 0xF3 then s6
  else if p0 =? 0xF4 then s7
  else xx.

Definition acceptRanges (i : Z) : Z * Z :=
  if i =? 0 then (locb, hicb)
  else if i =? 1 then (0xA0, hicb)
  else if i =? 2 then (locb, 0x9F)
  else if i =? 3 then (0x90, hicb)
  else if i =? 4 then (locb, 0x8F)
  else (0, 0).

Definition outside (b lo hi : Z) : bool := (b <? lo) || (hi <? b).

(** [DecodeRune p] = (rune, size). *)
Definition DecodeRune (p : string) : Z * Z :=
  match p with
  | EmptyString => (RuneError, 0)
  | String c0 p1 =>
      let p0 := code c0 in
      let x := first p0 in
      if as_ <=? x then
        (* x = as: the byte itself; x = xx: invalid *)
        (if Z.testbit x 0 then RuneError else p0, 1)
      else
        let sz := Z.land x 7 in
        let '(lo, hi) := acceptRanges (Z.shiftr x 4) in
        if len p <? sz then (RuneError, 1) else
        match p1 with
        | EmptyString => (RuneError, 1)
        | String c1 p2 =>
            let b1 := code c1 in
            if outside b1 lo hi then (RuneError, 1)
            else if sz <=? 2 then
              (Z.lor (Z.shiftl (Z.land p0 mask2) 6) (Z.land b1 maskx), 2)
            else
            match p2 with
            | EmptyString => (RuneError, 1)
            | String c2 p3 =>
                let b2 := code c2 in
                if outside b2 locb hicb then (RuneError, 1)
                else if sz <=? 3 then
                  (Z.lor (Z.lor (Z.shiftl (Z.land p0 mask3) 12)
                                (Z.shiftl (Z.land b1 maskx) 6))
                         (Z.land b2 maskx), 3)
                else
                match p3 with
                | EmptyString => (RuneError, 1)
                | String c3 _ =>
                    let b3 := code c3 in
                    if outside b3 locb hicb then (RuneError, 1)
                    else
                      (Z.lor (Z.lor (Z.lor (Z.shiftl (Z.land p0 mask4) 18)
                                           (Z.shiftl (Z.land b1 maskx) 12))
                                    (Z.shiftl (Z.land b2 maskx) 6))
                             (Z.land b3 maskx), 4)
                end
            end
        end
  end.

(** [EncodeRune r]: the bytes written for rune [r]. *)
Definition encode3 (r : Z) : string :=
  String (byte_of (Z.lor t3 (Z.shiftr r 12)))
 (String (byte_of (Z.lor tx (Z.land (Z.shiftr r 6) maskx)))
 (String (byte_of (Z.lor tx (Z.land r maskx))) EmptyString)).

Definition EncodeRune (r : Z) : string :=
  let i := r mod 2 ^ 32 in
  if i <=? rune1Max then String (byte_of r) EmptyString
  else if i <=? rune2Max then
    String (byte_of (Z.lor t2 (Z.shiftr r 6)))
   (String (byte_of (Z.lor tx (Z.land r maskx))) EmptyString)
  else if (MaxRune <? i) || ((surrogateMin <=? i) && (i <=? surrogateMax)) then
    encode3 RuneError
  else if i <=? rune3Max then encode3 r
  else
    String (byte_of (Z.lor t4 (Z.shiftr r 18)))
   (String (byte_of (Z.lor tx (Z.land (Z.shiftr r 12) maskx)))
   (String (byte_of (Z.lor tx (Z.land (Z.shiftr r 6) maskx)))
   (String (byte_of (Z.lor tx (Z.land r maskx))) EmptyString))).

End utf8.

(** ** float64 *)

Module float64.

Definition prec : Z := 53.
Definition emax : Z := 1024.

Definition t : Type := spec_float.

(** [float64(z)] for an unsigned integer: round to nearest, ties to even. *)
Definition of_uint64 (z : Z) : t := binary_normalize prec emax z 0 false.

Definition mul : t -> t -> t := SFmul prec emax.
Definition div : t -> t -> t := SFdiv prec emax.

(** [uint64(x)]: the fraction is discarded.  Go leaves the conversion of a
    value that does not fit (negative, infinite, NaN, 2^64 or more) to the
    implementation; [ParseDuration] only converts values between 0 and the
    number of nanoseconds in an hour, and those cases are given 0 here. *)
Definition to_uint64 (x : t) : Z :=
  match x with
  | S754_finite false m e =>
      let v := if 0 <=? e then Z.shiftl (Zpos m) e else Z.shiftr (Zpos m) (- e) in
      if v <? 2 ^ 64 then v else 0
  | _ => 0
  end.

End float64.


(** ** strconv *)

Module strconv.

(** The [Err] field of a [*NumError]. *)
Inductive NumErr : Type := ErrSyntax | ErrRange.

Definition maxUint64 : Z := 2 ^ 64 - 1.

Definition lower (c : Z) : Z := Z.lor c 0x20.

(** [ParseUint(s, base, 64)] for a base between 2 and 36 (no base prefix,
    no underscores).  The loop over the bytes of [s], with [n] the value
    read so far. *)
Fixpoint ParseUint_loop (base : Z) (s : string) (n : Z) : Z * option NumErr :=
  match s with
  | EmptyString => (n, None)
  | String c s' =>
      let cutoff := maxUint64 / base + 1 in
      let maxVal := u64 (u64 (Z.shiftl 1 64) - 1) in
      let d :=
        if isDigit c then Some (code c - 48)
        else if (97 <=? lower (code c)) && (lower (code c) <=? 122)
             then Some (lower (code c) - 97 + 10)
        else None in
      match d with
      | None => (0, Some ErrSyntax)
      | Some d =>
          if base <=? d then (0, Some ErrSyntax)
          else if cutoff <=? n then (maxVal, Some ErrRange)
          else
            let n := u64 (n * base) in
            let n1 := u64 (n + d) in
            if (n1 <? n) || (maxVal <? n1) then (maxVal, Some ErrRange)
            else ParseUint_loop base s' n1
      end
  end.

Definition ParseUint (s : string) (base : Z) : Z * option NumErr :=
  match s with
  | EmptyString => (0, Some ErrSyntax)
  | _ => ParseUint_loop base s 0
  end.

(** [ParseInt(s, base, 64)]. *)
Definition ParseInt (s : string) (base : Z) : Z * option NumErr :=
  match s with
  | EmptyString => (0, Some ErrSyntax)
  | String c0 s1 =>
      let '(neg, s') :=
        if Ascii.eqb c0 "+" then (false, s1)
        else if Ascii.eqb c0 "-" then (true, s1)
        else (false, s) in
      let '(un, err) := ParseUint s' base in
      match err with
      | Some ErrSyntax => (0, err)
      | _ =>
          let cutoff := 2 ^ 63 in
          if negb neg && (cutoff <=? un) then (cutoff - 1, Some ErrRange)
          else if neg && (cutoff <? un) then (- cutoff, Some ErrRange)
          else
            let n := i64 un in
            (if neg then i64 (- n) else n, None)
      end
  end.

End strconv.

(** ** time *)

Module time.

Definition Nanosecond : Z := 1.
Definition Microsecond : Z := 1000 * Nanosecond.
Definition Millisecond : Z := 1000 * Microsecond.
Definition Second : Z := 1000 * Millisecond.
Definition Minute : Z := 60 * Second.
Definition Hour : Z := 60 * Minute.

(** *** Duration.String *)

(** The formatting functions write backwards into the tail of a 32-byte
    buffer and return the index where the output begins; the model carries
    the part of the buffer already written, [buf[w:]], as a string. *)

(** [fmtFrac(buf[:w], v, prec)]: the fraction of [v / 10^prec] without
    trailing zeros, and without the decimal point when it is zero. *)
Fixpoint fmtFrac_loop (prec : nat) (tail : string) (v : Z) (print : bool)
  : string * Z * bool :=
  match prec with
  | O => (tail, v, print)
  | S prec' =>
      let digit := v mod 10 in
      let print := print || negb (digit =? 0) in
      let tail := if print then String (byte_of (digit + 48)) tail else tail in
      fmtFrac_loop prec' tail (v / 10) print
  end.

Definition fmtFrac (tail : string) (v : Z) (prec : nat) : string * Z :=
  let '(tail, v, print) := fmtFrac_loop prec tail v false in
  (if print then String "." tail else tail, v).

(** [fmtInt(buf[:w], v)].  The loop runs once per decimal digit of [v], at
    most 20 times for a uint64. *)
Fixpoint fmtInt_loop (fuel : nat) (tail : string) (v : Z) : string :=
  match fuel with
  | O => tail
  | S fuel' =>
      if 0 <? v
      then fmtInt_loop fuel' (String (byte_of (v mod 10 + 48)) tail) (v / 10)
      else tail
  end.

Definition fmtInt (tail : string) (v : Z) : string :=
  if v =? 0 then String "0" tail else fmtInt_loop 20 tail v.

(** U+00B5, the micro sign, in UTF-8: 0xC2 0xB5. *)
Definition micro : string := String (byte_of 0xC2) (String (byte_of 0xB5) EmptyString).
(** U+03BC, the Greek letter mu, in UTF-8: 0xCE 0xBC. *)
Definition mu : string := String (byte_of 0xCE) (String (byte_of 0xBC) EmptyString).

(** [d.format(&arr)], returning [arr[n:]]. *)
Definition format (d : Z) : string :=
  let u := u64 d in
  let neg := d <? 0 in
  let u := if neg then u64 (- u) else u in
  let body :=
    if u <? u64 Second then
      (* smaller than a second: use smaller units, like 1.2ms *)
      if u =? 0 then "0s"
      else
        let '(prec, tail) :=
          if u <? u64 Microsecond then (0%nat, "ns")
          else if u <? u64 Millisecond then (3%nat, micro ++ "s")
          else (6%nat, "ms") in
        let '(tail, u) := fmtFrac tail u prec in
        fmtInt tail u
    else
      let '(tail, u) := fmtFrac "s" u 9 in
      (* u is now integer seconds *)
      let tail := fmtInt tail (u mod 60) in
      let u := u / 60 in
      (* u is now integer minutes *)
      if 0 <? u then
        let tail := fmtInt (String "m" tail) (u mod 60) in
        let u := u / 60 in
        (* u is now integer hours *)
        if 0 <? u then fmtInt (String "h" tail) u else tail
      else tail in
  if neg then String "-" body else body.

Definition String_ (d : Z) : string := format d.

(** *** ParseDuration *)

Definition lowerhex : string := "0123456789abcdef".
Definition runeSelf : Z := 0x80.
Definition runeError : Z := 0xFFFD.

(** The bytes [s[0]], ..., [s[width-1]] as [\xHH] escapes. *)
Fixpoint hexEscapes (width : nat) (s : string) : string :=
  match width, s with
  | S w, String b s' =>
      String backslash (String "x"
        (String (hexchar lowerhex (Z.shiftr (code b) 4))
        (String (hexchar lowerhex (Z.land (code b) 0xF))
        (hexEscapes w s'))))
  | _, _ => EmptyString
  end.

(** The body of the [for i, c := range s] loop of [quote]: [s] is what is
    left of the string at index [i]. *)
Fixpoint quote_loop (fuel : nat) (s : string) : string :=
  match fuel, s with
  | S fuel', String c0 _ =>
      let '(c, size) := utf8.DecodeRune s in
      let piece :=
        if (runeSelf <=? c) || (c <? 32) then
          (* unprintable or non-ASCII: hexadecimal escapes *)
          let width :=
            if c =? runeError then
              if (2 <? len s) && String.eqb (take 3 s) (utf8.EncodeRune runeError)
              then 3 else 1
            else len (utf8.EncodeRune c) in
          hexEscapes (Z.to_nat width) s
        else
          if Ascii.eqb c0 dquote || Ascii.eqb c0 backslash
          then String backslash (String c0 EmptyString)
          else String c0 EmptyString in
      piece ++ quote_loop fuel' (drop (Z.to_nat size) s)
  | _, _ => EmptyString
  end.

Definition quote (s : string) : string :=
  String dquote (quote_loop (String.length s) s ++ String dquote EmptyString).

Definition errLeadingInt : error := errorString "time: bad [0-9]*".

(** [leadingInt(s)] = (x, rem, err): the loop, with [x] the value so far. *)
Fixpoint leadingInt_loop (s : string) (x : Z) : Z * string * option error :=
  match s with
  | EmptyString => (x, s, None)
  | String c s' =>
      if negb (isDigit c) then (x, s, None)
      else if 2 ^ 63 / 10 <? x then (0, EmptyString, Some errLeadingInt)
      else
        let x := u64 (x * 10 + code c - 48) in
        if 2 ^ 63 <? x then (0, EmptyString, Some errLeadingInt)
        else leadingInt_loop s' x
  end.

Definition leadingInt (s : string) : Z * string * option error :=
  leadingInt_loop s 0.

(** [leadingFraction(s)] = (x, scale, rem): the digits after the point, as
    long as they fit, and the power of ten they are to be divided by. *)
Fixpoint leadingFraction_loop (s : string) (x : Z) (scale : float64.t)
    (overflow : bool) : Z * float64.t * string :=
  match s with
  | EmptyString => (x, scale, s)
  | String c s' =>
      if negb (isDigit c) then (x, scale, s)
      else if overflow then leadingFraction_loop s' x scale overflow
      else if (2 ^ 63 - 1) / 10 <? x then leadingFraction_loop s' x scale true
      else
        let y := u64 (x * 10 + code c - 48) in
        if 2 ^ 63 <? y then leadingFraction_loop s' x scale true
        else leadingFraction_loop s' y
               (float64.mul scale (float64.of_uint64 10)) false
  end.

Definition leadingFraction (s : string) : Z * float64.t * string :=
  leadingFraction_loop s 0 (float64.of_uint64 1) false.

Definition unitMap : list (string * Z) :=
  [ ("ns", u64 Nanosecond);
    ("us", u64 Microsecond);
    (micro ++ "s", u64 Microsecond);
    (mu ++ "s", u64 Microsecond);
    ("ms", u64 Millisecond);
    ("s", u64 Second);
    ("m", u64 Minute);
    ("h", u64 Hour) ].

Fixpoint lookup (m : list (string * Z)) (k : string) : option Z :=
  match m with
  | [] => None
  | (k', v) :: m' => if String.eqb k k' then Some v else lookup m' k
  end.

(** The unit: the bytes up to the next ['.'] or digit. *)
Fixpoint splitUnit (s : string) : string * string :=
  match s with
  | EmptyString => (EmptyString, EmptyString)
  | String c s' =>
      if Ascii.eqb c "." || isDigit c then (EmptyString, s)
      else let '(u, rest) := splitUnit s' in (String c u, rest)
  end.

Definition invalidDuration (orig : string) : error :=
  errorString ("time: invalid duration " ++ quote orig).

(** The [for s != ""] loop of [ParseDuration]; every round consumes at least
    the unit, so [length s] rounds are enough.  [d] is the sum so far. *)
Fixpoint ParseDuration_loop (fuel : nat) (orig s : string) (d : Z)
  : Z * option error :=
  match fuel, s with
  | _, EmptyString => (d, None)
  | O, _ => (d, None)
  | S fuel', String c0 _ =>
      (* The next character must be [0-9.] *)
      if negb (Ascii.eqb c0 "." || isDigit c0) then (0, Some (invalidDuration orig))
      else
      (* Consume the leading digits *)
      let pl := len s in
      let '(v, s1, err) := leadingInt s in
      match err with
      | Some _ => (0, Some (invalidDuration orig))
      | None =>
          let pre := negb (pl =? len s1) in
          (* Consume the optional fraction: a point and digits *)
          let '(f, scale, s2, post) :=
            match s1 with
            | String c s1' =>
                if Ascii.eqb c "." then
                  let '(f, scale, s2) := leadingFraction s1' in
                  (f, scale, s2, negb (len s1' =? len s2))
                else (0, float64.of_uint64 1, s1, false)
            | EmptyString => (0, float64.of_uint64 1, s1, false)
            end in
          if negb pre && negb post then (0, Some (invalidDuration orig))
          else
          (* Consume unit. *)
          let '(u, s3) := splitUnit s2 in
          match u with
          | EmptyString =>
              (0, Some (errorString ("time: missing unit in duration " ++ quote orig)))
          | _ =>
              match lookup unitMap u with
              | None =>
                  (0, Some (errorString ("time: unknown unit " ++ quote u ++
                                         " in duration " ++ quote orig)))
              | Some unit =>
                  if 2 ^ 63 / unit <? v then (0, Some (invalidDuration orig))
                  else
                    let v := u64 (v * unit) in
                    let v' :=
                      if 0 <? f then
                        u64 (v + float64.to_uint64
                                   (float64.mul (float64.of_uint64 f)
                                      (float64.div (float64.of_uint64 unit) scale)))
                      else v in
                    if (0 <? f) && (2 ^ 63 <? v') then (0, Some (invalidDuration orig))
                    else
                      let d := u64 (d + v') in
                      if 2 ^ 63 <? d then (0, Some (invalidDuration orig))
                      else ParseDuration_loop fuel' orig s3 d
              end
          end
      end
  end.

(** [ParseDuration(s)] = (duration, err). *)
Definition ParseDuration (s : string) : Z * option error :=
  let orig := s in
  (* Consume the optional sign *)
  let '(neg, s) :=
    match s with
    | String c s' =>
        if Ascii.eqb c "-" || Ascii.eqb c "+" then (Ascii.eqb c "-", s') else (false, s)
    | EmptyString => (false, s)
    end in
  (* Special case: if all that is left is "0", this is zero. *)
  if String.eqb s "0" then (0, None)
  else if String.eqb s "" then (0, Some (invalidDuration orig))
  else
    let '(d, err) := ParseDuration_loop (String.length s) orig s 0 in
    match err with
    | Some e => (0, Some e)
    | None =>
        if neg then (i64 (- i64 d), None)
        else if 2 ^ 63 - 1 <? d then (0, Some (invalidDuration orig))
        else (i64 d, None)
    end.

End time.


(** ** encoding/json *)

Module json.

(** *** The scanner (scanner.go) *)

(** The values of [scanner.step]. *)
Inductive stepfn : Type :=
| StateBeginValueOrEmpty | StateBeginValue | StateBeginStringOrEmpty
| StateBeginString | StateEndValue | StateEndTop
| StateInString | StateInStringEsc | StateInStringEscU | StateInStringEscU1
| StateInStringEscU12 | StateInStringEscU123
| StateNeg | State1 | State0 | StateDot | StateDot0 | StateE | StateESign | StateE0
| StateT | StateTr | StateTru
| StateF | StateFa | StateFal | StateFals
| StateN | StateNu | StateNul
| StateError.

Inductive opcode : Type :=
| scanContinue | scanBeginLiteral | scanBeginObject | scanObjectKey
| scanObjectValue | scanEndObject | scanBeginArray | scanArrayValue
| scanEndArray | scanSkipSpace | scanEnd | scanError.

Definition opcode_eqb (a b : opcode) : bool :=
  match a, b with
  | scanContinue, scanContinue | scanBeginLiteral, scanBeginLiteral
  | scanBeginObject, scanBeginObject | scanObjectKey, scanObjectKey
  | scanObjectValue, scanObjectValue | scanEndObject, scanEndObject
  | scanBeginArray, scanBeginArray | scanArrayValue, scanArrayValue
  | scanEndArray, scanEndArray | scanSkipSpace, scanSkipSpace
  | scanEnd, scanEnd | scanError, scanError => true
  | _, _ => false
  end.

Inductive pstate : Type := parseObjectKey | parseObjectValue | parseArrayValue.

(** [parseState] is a stack; its top, the last element of the Go slice, is
    the head of the list. *)
Record scanner : Type := mkScanner {
  step : stepfn;
  endTop : bool;
  parseState : list pstate;
  err : option error;
  bytes : Z
}.

Definition maxNestingDepth : Z := 10000.

Definition reset (s : scanner) : scanner :=
  mkScanner StateBeginValue false [] None (bytes s).

Definition set_step (s : scanner) (f : stepfn) : scanner :=
  mkScanner f (endTop s) (parseState s) (err s) (bytes s).

Definition set_top (s : scanner) (p : pstate) : scanner :=
  mkScanner (step s) (endTop s)
    (match parseState s with [] => [] | _ :: ps => p :: ps end) (err s) (bytes s).

(** [strconv.IsPrint] on a rune up to 0xFF. *)
Definition IsPrint (r : Z) : bool :=
  if (0x20 <=? r) && (r <=? 0x7E) then true
  else if (0xA1 <=? r) && (r <=? 0xFF) then negb (r =? 0xAD)
  else false.

(** [strconv.Quote(string(c))] without its quotation marks, for the rune
    [c] of a byte. *)
Definition quotedRune (r : Z) : string :=
  if (r =? 34) || (r =? 92) then String backslash (String (byte_of r) EmptyString)
  else if IsPrint r then utf8.EncodeRune r
  else if r =? 7 then String backslash "a"
  else if r =? 8 then String backslash "b"
  else if r =? 12 then String backslash "f"
  else if r =? 10 then String backslash "n"
  else if r =? 13 then String backslash "r"
  else if r =? 9 then String backslash "t"
  else if r =? 11 then String backslash "v"
  else if (r <? 32) || (r =? 0x7F) then
    String backslash (String "x"
      (String (hexchar time.lowerhex (Z.shiftr r 4))
      (String (hexchar time.lowerhex (Z.land r 0xF)) EmptyString)))
  else
    String backslash (String "u"
      (String (hexchar time.lowerhex (Z.land (Z.shiftr r 12) 0xF))
      (String (hexchar time.lowerhex (Z.land (Z.shiftr r 8) 0xF))
      (String (hexchar time.lowerhex (Z.land (Z.shiftr r 4) 0xF))
      (String (hexchar time.lowerhex (Z.land r 0xF)) EmptyString))))).

Definition quoteChar (c : ascii) : string :=
  if Ascii.eqb c "'" then String "'" (String backslash "''")
  else if Ascii.eqb c dquote then String "'" (String dquote "'")
  else "'" ++ quotedRune (code c) ++ "'".

(** [s.error(c, context)] *)
Definition error_ (s : scanner) (c : ascii) (context : string) : scanner * opcode :=
  (mkScanner StateError (endTop s) (parseState s)
     (Some (SyntaxError ("invalid character " ++ quoteChar c ++ " " ++ context) (bytes s)))
     (bytes s),
   scanError).

Definition pushParseState (s : scanner) (c : ascii) (newParseState : pstate)
    (successState : opcode) : scanner * opcode :=
  let s := mkScanner (step s) (endTop s) (newParseState :: parseState s) (err s) (bytes s) in
  if Z.of_nat (List.length (parseState s)) <=? maxNestingDepth then (s, successState)
  else error_ s c "exceeded max depth".

Definition popParseState (s : scanner) : scanner :=
  let ps := List.tl (parseState s) in
  match ps with
  | [] => mkScanner StateEndTop true ps (err s) (bytes s)
  | _ => mkScanner StateEndValue (endTop s) ps (err s) (bytes s)
  end.

Definition isSpace (c : ascii) : bool :=
  (code c <=? 32) &&
  (Ascii.eqb c " " || (code c =? 9) || (code c =? 13) || (code c =? 10)).

Definition stateEndTop (s : scanner) (c : ascii) : scanner * opcode :=
  if negb (isSpace c)
  then (fst (error_ s c "after top-level value"), scanEnd)
  else (s, scanEnd).

Definition stateEndValue (s : scanner) (c : ascii) : scanner * opcode :=
  match parseState s with
  | [] =>
      (* Completed top-level before the current byte. *)
      stateEndTop (mkScanner StateEndTop true [] (err s) (bytes s)) c
  | ps :: _ =>
      if isSpace c then (set_step s StateEndValue, scanSkipSpace)
      else
      match ps with
      | parseObjectKey =>
          if Ascii.eqb c ":"
          then (set_step (set_top s parseObjectValue) StateBeginValue, scanObjectKey)
          else error_ s c "after object key"
      | parseObjectValue =>
          if Ascii.eqb c ","
          then (set_step (set_top s parseObjectKey) StateBeginString, scanObjectValue)
          else if Ascii.eqb c "}" then (popParseState s, scanEndObject)
          else error_ s c "after object key:value pair"
      | parseArrayValue =>
          if Ascii.eqb c "," then (set_step s StateBeginValue, scanArrayValue)
          else if Ascii.eqb c "]" then (popParseState s, scanEndArray)
          else error_ s c "after array element"
      end
  end.

Definition stateBeginValue (s : scanner) (c : ascii) : scanner * opcode :=
  if isSpace c then (s, scanSkipSpace)
  else if Ascii.eqb c "{"
  then pushParseState (set_step s StateBeginStringOrEmpty) c parseObjectKey scanBeginObject
  else if Ascii.eqb c "["
  then pushParseState (set_step s StateBeginValueOrEmpty) c parseArrayValue scanBeginArray
  else if Ascii.eqb c dquote then (set_step s StateInString, scanBeginLiteral)
  else if Ascii.eqb c "-" then (set_step s StateNeg, scanBeginLiteral)
  else if Ascii.eqb c "0" then (set_step s State0, scanBeginLiteral)
  else if Ascii.eqb c "t" then (set_step s StateT, scanBeginLiteral)
  else if Ascii.eqb c "f" then (set_step s StateF, scanBeginLiteral)
  else if Ascii.eqb c "n" then (set_step s StateN, scanBeginLiteral)
  else if (49 <=? code c) && (code c <=? 57) then (set_step s State1, scanBeginLiteral)
  else error_ s c "looking for beginning of value".

Definition stateBeginValueOrEmpty (s : scanner) (c : ascii) : scanner * opcode :=
  if isSpace c then (s, scanSkipSpace)
  else if Ascii.eqb c "]" then stateEndValue s c
  else stateBeginValue s c.

Definition stateBeginString (s : scanner) (c : ascii) : scanner * opcode :=
  if isSpace c then (s, scanSkipSpace)
  else if Ascii.eqb c dquote then (set_step s StateInString, scanBeginLiteral)
  else error_ s c "looking for beginning of object key string".

Definition stateBeginStringOrEmpty (s : scanner) (c : ascii) : scanner * opcode :=
  if isSpace c then (s, scanSkipSpace)
  else if Ascii.eqb c "}" then stateEndValue (set_top s parseObjectValue) c
  else stateBeginString s c.

Definition stateInString (s : scanner) (c : ascii) : scanner * opcode :=
  if Ascii.eqb c dquote then (set_step s StateEndValue, scanContinue)
  else if Ascii.eqb c backslash then (set_step s StateInStringEsc, scanContinue)
  else if code c <? 0x20 then error_ s c "in string literal"
  else (s, scanContinue).

Definition stateInStringEsc (s : scanner) (c : ascii) : scanner * opcode :=
  if Ascii.eqb c "b" || Ascii.eqb c "f" || Ascii.eqb c "n" || Ascii.eqb c "r"
     || Ascii.eqb c "t" || Ascii.eqb c backslash || Ascii.eqb c "/"
     || Ascii.eqb c dquote
  then (set_step s StateInString, scanContinue)
  else if Ascii.eqb c "u" then (set_step s StateInStringEscU, scanContinue)
  else error_ s c "in string escape code".

Definition isHex (c : ascii) : bool :=
  isDigit c || ((97 <=? code c) && (code c <=? 102))
            || ((65 <=? code c) && (code c <=? 70)).

Definition stateInStringEscUn (next : stepfn) (s : scanner) (c : ascii)
  : scanner * opcode :=
  if isHex c then (set_step s next, scanContinue)
  else error_ s c ("in " ++ String backslash "u hexadecimal character escape").

Definition stateInStringEscU := stateInStringEscUn StateInStringEscU1.
Definition stateInStringEscU1 := stateInStringEscUn StateInStringEscU12.
Definition stateInStringEscU12 := stateInStringEscUn StateInStringEscU123.
Definition stateInStringEscU123 := stateInStringEscUn StateInString.

Definition stateNeg (s : scanner) (c : ascii) : scanner * opcode :=
  if Ascii.eqb c "0" then (set_step s State0, scanContinue)
  else if (49 <=? code c) && (code c <=? 57) then (set_step s State1, scanContinue)
  else error_ s c "in numeric literal".

Definition state0 (s : scanner) (c : ascii) : scanner * opcode :=
  if Ascii.eqb c "." then (set_step s StateDot, scanContinue)
  else if Ascii.eqb c "e" || Ascii.eqb c "E" then (set_step s StateE, scanContinue)
  else stateEndValue s c.

Definition state1 (s : scanner) (c : ascii) : scanner * opcode :=
  if isDigit c then (set_step s State1, scanContinue)
  else state0 s c.

Definition stateDot (s : scanner) (c : ascii) : scanner * opcode :=
  if isDigit c then (set_step s StateDot0, scanContinue)
  else error_ s c "after decimal point in numeric literal".

Definition stateDot0 (s : scanner) (c : ascii) : scanner * opcode :=
  if isDigit c then (s, scanContinue)
  else if Ascii.eqb c "e" || Ascii.eqb c "E" then (set_step s StateE, scanContinue)
  else stateEndValue s c.

Definition stateESign (s : scanner) (c : ascii) : scanner * opcode :=
  if isDigit c then (set_step s StateE0, scanContinue)
  else error_ s c "in exponent of numeric literal".

Definition stateE (s : scanner) (c : ascii) : scanner * opcode :=
  if Ascii.eqb c "+" || Ascii.eqb c "-" then (set_step s StateESign, scanContinue)
  else stateESign s c.

Definition stateE0 (s : scanner) (c : ascii) : scanner * opcode :=
  if isDigit c then (s, scanContinue)
  else stateEndValue s c.

(** The states inside [true], [false] and [null]: the next byte must be
    [want]. *)
Definition stateLit (lit : string) (want : ascii) (next : stepfn)
    (s : scanner) (c : ascii) : scanner * opcode :=
  if Ascii.eqb c want then (set_step s next, scanContinue)
  else error_ s c ("in literal " ++ lit ++ " (expecting '" ++ String want "')").

Definition stateT := stateLit "true" "r" StateTr.
Definition stateTr := stateLit "true" "u" StateTru.
Definition stateTru := stateLit "true" "e" StateEndValue.
Definition stateF := stateLit "false" "a" StateFa.
Definition stateFa := stateLit "false" "l" StateFal.
Definition stateFal := stateLit "false" "s" StateFals.
Definition stateFals := stateLit "false" "e" StateEndValue.
Definition stateN := stateLit "null" "u" StateNu.
Definition stateNu := stateLit "null" "l" StateNul.
Definition stateNul := stateLit "null" "l" StateEndValue.

Definition stateError (s : scanner) (c : ascii) : scanner * opcode :=
  (s, scanError).

(** [s.step(s, c)] *)
Definition call (s : scanner) (c : ascii) : scanner * opcode :=
  match step s with
  | StateBeginValueOrEmpty => stateBeginValueOrEmpty s c
  | StateBeginValue => stateBeginValue s c
  | StateBeginStringOrEmpty => stateBeginStringOrEmpty s c
  | StateBeginString => stateBeginString s c
  | StateEndValue => stateEndValue s c
  | StateEndTop => stateEndTop s c
  | StateInString => stateInString s c
  | StateInStringEsc => stateInStringEsc s c
  | StateInStringEscU => stateInStringEscU s c
  | StateInStringEscU1 => stateInStringEscU1 s c
  | StateInStringEscU12 => stateInStringEscU12 s c
  | StateInStringEscU123 => stateInStringEscU123 s c
  | StateNeg => stateNeg s c
  | State1 => state1 s c
  | State0 => state0 s c
  | StateDot => stateDot s c
  | StateDot0 => stateDot0 s c
  | StateE => stateE s c
  | StateESign => stateESign s c
  | StateE0 => stateE0 s c
  | StateT => stateT s c
  | StateTr => stateTr s c
  | StateTru => stateTru s c
  | StateF => stateF s c
  | StateFa => stateFa s c
  | StateFal => stateFal s c
  | StateFals => stateFals s c
  | StateN => stateN s c
  | StateNu => stateNu s c
  | StateNul => stateNul s c
  | StateError => stateError s c
  end.

Definition eof (s : scanner) : scanner * opcode :=
  match err s with
  | Some _ => (s, scanError)
  | None =>
      if endTop s then (s, scanEnd)
      else
        let s := fst (call s " ") in
        if endTop s then (s, scanEnd)
        else
          let s :=
            match err s with
            | None => mkScanner (step s) (endTop s) (parseState s)
                        (Some (SyntaxError "unexpected end of JSON input" (bytes s)))
                        (bytes s)
            | Some _ => s
            end in
          (s, scanError)
  end.

Definition incr_bytes (s : scanner) : scanner :=
  mkScanner (step s) (endTop s) (parseState s) (err s) (bytes s + 1).

Fixpoint checkValid_loop (data : string) (scan : scanner) : scanner * bool :=
  match data with
  | EmptyString => (scan, true)
  | String c data' =>
      let '(scan, op) := call (incr_bytes scan) c in
      if opcode_eqb op scanError then (scan, false)
      else checkValid_loop data' scan
  end.

(** [checkValid(data, scan)], with a fresh scanner. *)
Definition checkValid (data : string) : option error :=
  let scan := reset (mkScanner StateBeginValue false [] None 0) in
  let '(scan, ok) := checkValid_loop data scan in
  if ok then
    let '(scan, op) := eof scan in
    if opcode_eqb op scanError then err scan else None
  else err scan.

(** *** Decoding (decode.go), for the two kinds of target that
    [Duration.UnmarshalJSON] passes: a [time.Duration] (kind int64) and a
    [string]. *)

(** [d.scanWhile(scanSkipSpace)] at the start of [d.unmarshal]: returns the
    opcode of the first byte that is not skipped, [d.off], and the data from
    [d.readIndex()] on (from that byte on). *)
Fixpoint scanWhile (op : opcode) (s : scanner) (data : string) (off : Z)
  : scanner * opcode * Z * string :=
  match data with
  | EmptyString =>
      let '(s, op) := eof s in (s, op, off + 1, EmptyString)
  | String c data' =>
      let '(s, newOp) := call s c in
      if opcode_eqb newOp op then scanWhile op s data' (off + 1)
      else (s, newOp, off + 1, data)
  end.

(** [d.rescanLiteral()]: the extent of the literal whose first byte has been
    read.  [rescanString] and [rescanNumber] are its two loops, over the
    data after the first byte; they return the literal's remaining bytes. *)
Fixpoint rescanString (data : string) : string :=
  match data with
  | EmptyString => EmptyString
  | String c data' =>
      if Ascii.eqb c backslash then
        (* escaped char *)
        match data' with
        | EmptyString => String c EmptyString
        | String c' data'' => String c (String c' (rescanString data''))
        end
      else if Ascii.eqb c dquote then
        (* tokenize the closing quote too *)
        String c EmptyString
      else String c (rescanString data')
  end.

Fixpoint rescanNumber (data : string) : string :=
  match data with
  | EmptyString => EmptyString
  | String c data' =>
      if isDigit c || Ascii.eqb c "." || Ascii.eqb c "e" || Ascii.eqb c "E"
         || Ascii.eqb c "+" || Ascii.eqb c "-"
      then String c (rescanNumber data')
      else EmptyString
  end.

(** The literal that starts at the head of [data], [d.data[start:d.readIndex()]]
    after [rescanLiteral].  (After [checkValid] a string literal has its
    closing quote and [true], [false] and [null] are complete.) *)
Definition rescanLiteral (data : string) : string :=
  match data with
  | EmptyString => EmptyString
  | String c data' =>
      if Ascii.eqb c dquote then String c (rescanString data')
      else if isDigit c || Ascii.eqb c "-" then String c (rescanNumber data')
      else if Ascii.eqb c "t" then String c (take 3 data')
      else if Ascii.eqb c "f" then String c (take 4 data')
      else if Ascii.eqb c "n" then String c (take 3 data')
      else String c EmptyString
  end.

(** [getu4(s)]: the rune of a [\uXXXX] at the head of [s], or -1. *)
Definition hexval (c : ascii) : option Z :=
  if isDigit c then Some (code c - 48)
  else if (97 <=? code c) && (code c <=? 102) then Some (code c - 97 + 10)
  else if (65 <=? code c) && (code c <=? 70) then Some (code c - 65 + 10)
  else None.

Definition getu4 (s : string) : Z :=
  match s with
  | String b0 (String b1 (String h0 (String h1 (String h2 (String h3 _))))) =>
      if negb (Ascii.eqb b0 backslash) || negb (Ascii.eqb b1 "u") then -1
      else
        match hexval h0, hexval h1, hexval h2, hexval h3 with
        | Some x0, Some x1, Some x2, Some x3 =>
            ((x0 * 16 + x1) * 16 + x2) * 16 + x3
        | _, _, _, _ => -1
        end
  | _ => -1
  end.

(** [unicode/utf16] *)
Definition IsSurrogate (r : Z) : bool := (0xd800 <=? r) && (r <? 0xe000).
Definition ReplacementChar : Z := 0xFFFD.
Definition utf16_DecodeRune (r1 r2 : Z) : Z :=
  if (0xd800 <=? r1) && (r1 <? 0xdc00) && (0xdc00 <=? r2) && (r2 <? 0xe000)
  then Z.lor (Z.shiftl (r1 - 0xd800) 10) (r2 - 0xdc00) + 0x10000
  else ReplacementChar.

(** [unquoteBytes]: the first loop finds how many bytes of the contents need
    no unquoting. *)
Fixpoint unquote_prefix (fuel : nat) (s : string) : nat :=
  match fuel, s with
  | S fuel', String c s' =>
      if Ascii.eqb c backslash || Ascii.eqb c dquote || (code c <? 32) then O
      else if code c <? utf8.RuneSelf then S (unquote_prefix fuel' s')
      else
        let '(rr, size) := utf8.DecodeRune s in
        if (rr =? utf8.RuneError) && (size =? 1) then O
        else (Z.to_nat size + unquote_prefix fuel' (drop (Z.to_nat size) s))%nat
  | _, _ => O
  end.

(** The second loop, from the first byte that needs unquoting: [None] is
    the early [return] with [ok = false]. *)
Fixpoint unquote_loop (fuel : nat) (s : string) : option string :=
  match fuel, s with
  | _, EmptyString => Some EmptyString
  | O, _ => None
  | S fuel', String c s' =>
      if Ascii.eqb c backslash then
        match s' with
        | EmptyString => None
        | String e s'' =>
            let lit (b : ascii) := option_map (String b) (unquote_loop fuel' s'') in
            if Ascii.eqb e dquote || Ascii.eqb e backslash || Ascii.eqb e "/"
               || Ascii.eqb e "'" then lit e
            else if Ascii.eqb e "b" then lit (byte_of 8)
            else if Ascii.eqb e "f" then lit (byte_of 12)
            else if Ascii.eqb e "n" then lit (byte_of 10)
            else if Ascii.eqb e "r" then lit (byte_of 13)
            else if Ascii.eqb e "t" then lit (byte_of 9)
            else if Ascii.eqb e "u" then
              let rr := getu4 s in
              if rr <? 0 then None
              else
                let s6 := drop 6 s in
                if IsSurrogate rr then
                  let rr1 := getu4 s6 in
                  let dec := utf16_DecodeRune rr rr1 in
                  if negb (dec =? ReplacementChar) then
                    (* A valid pair; consume. *)
                    option_map (append (utf8.EncodeRune dec))
                               (unquote_loop fuel' (drop 6 s6))
                  else
                    (* Invalid surrogate; fall back to replacement rune. *)
                    option_map (append (utf8.EncodeRune ReplacementChar))
                               (unquote_loop fuel' s6)
                else
                  option_map (append (utf8.EncodeRune rr)) (unquote_loop fuel' s6)
            else None
        end
      else if Ascii.eqb c dquote || (code c <? 32) then
        (* Quote, control characters are invalid. *)
        None
      else if code c <? utf8.RuneSelf then
        option_map (String c) (unquote_loop fuel' s')
      else
        (* Coerce to well-formed UTF-8. *)
        let '(rr, size) := utf8.DecodeRune s in
        option_map (append (utf8.EncodeRune rr))
                   (unquote_loop fuel' (drop (Z.to_nat size) s))
  end.

Definition last_is_dquote (s : string) : bool :=
  match String.get (String.length s - 1) s with
  | Some c => Ascii.eqb c dquote
  | None => false
  end.

(** [unquoteBytes(s)] = (t, ok), as [Some t] or [None]. *)
Definition unquoteBytes (s : string) : option string :=
  match s with
  | String c0 s1 =>
      if (len s <? 2) || negb (Ascii.eqb c0 dquote) || negb (last_is_dquote s)
      then None
      else
        let s := take (String.length s1 - 1) s1 in
        let r := unquote_prefix (String.length s) s in
        if Nat.eqb r (String.length s) then Some s
        else option_map (append (take r s))
                        (unquote_loop (String.length s) (drop r s))
  | EmptyString => None
  end.

Definition phasePanicMsg : string :=
  "JSON decoder out of sync - data changing underfoot?".

(** [d.literalStore(item, v, false)] for [v] of kind int64 and type [typ];
    [readIndex] is [d.readIndex()].  Returns the new value of [v] and
    [d.savedError]. *)
Definition literalStore_int64 (typ : string) (item : string) (readIndex : Z)
    (v : Z) : Z * option error :=
  match item with
  | EmptyString => (v, Some (Panic phasePanicMsg))
  | String c _ =>
      if Ascii.eqb c "n" then
        (* null: ignored for primitives and strings *)
        (v, None)
      else if Ascii.eqb c "t" || Ascii.eqb c "f" then
        (v, Some (UnmarshalTypeError "bool" typ readIndex))
      else if Ascii.eqb c dquote then
        match unquoteBytes item with
        | None => (v, Some (Panic phasePanicMsg))
        | Some _ => (v, Some (UnmarshalTypeError "string" typ readIndex))
        end
      else
        (* number *)
        if negb (Ascii.eqb c "-") && negb (isDigit c)
        then (v, Some (Panic phasePanicMsg))
        else
          match strconv.ParseInt item 10 with
          | (n, None) => (n, None)
          | (_, Some _) =>
              (v, Some (UnmarshalTypeError ("number " ++ item) typ readIndex))
          end
  end.

(** [d.literalStore(item, v, false)] for [v] a [string]. *)
Definition literalStore_string (item : string) (readIndex : Z) (v : string)
  : string * option error :=
  match item with
  | EmptyString => (v, Some (Panic phasePanicMsg))
  | String c _ =>
      if Ascii.eqb c "n" then (v, None)
      else if Ascii.eqb c "t" || Ascii.eqb c "f" then
        (v, Some (UnmarshalTypeError "bool" "string" readIndex))
      else if Ascii.eqb c dquote then
        match unquoteBytes item with
        | None => (v, Some (Panic phasePanicMsg))
        | Some s => (s, None)
        end
      else
        if negb (Ascii.eqb c "-") && negb (isDigit c)
        then (v, Some (Panic phasePanicMsg))
        else (v, Some (UnmarshalTypeError "number" "string" readIndex))
  end.

(** [d.unmarshal(&v)]: skip the leading space, then [d.value], whose three
    cases are an array, an object (both refused for these targets, then
    skipped) and a literal. *)
Definition unmarshal {A : Type}
    (literalStore : string -> Z -> A -> A * option error) (typ : string)
    (data : string) (v : A) : A * option error :=
  let scan := reset (mkScanner StateBeginValue false [] None 0) in
  let '(_, op, off, rest) := scanWhile scanSkipSpace scan data 0 in
  match op with
  | scanBeginArray => (v, Some (UnmarshalTypeError "array" typ off))
  | scanBeginObject => (v, Some (UnmarshalTypeError "object" typ off))
  | scanBeginLiteral =>
      let start := off - 1 in
      let item := rescanLiteral rest in
      literalStore item (start + len item) v
  | _ => (v, Some (Panic phasePanicMsg))
  end.

(** [json.Unmarshal(data, &v)] with [v] a [time.Duration] or another type of
    kind int64 named [typ]: the new value of [v] and the error. *)
Definition Unmarshal_int64 (typ : string) (data : string) (v : Z)
  : Z * option error :=
  match checkValid data with
  | Some e => (v, Some e)
  | None => unmarshal (literalStore_int64 typ) typ data v
  end.

(** [json.Unmarshal(data, &v)] with [v] a [string]. *)
Definition Unmarshal_string (data : string) (v : string) : string * option error :=
  match checkValid data with
  | Some e => (v, Some e)
  | None => unmarshal literalStore_string "string" data v
  end.

(** *** Encoding (encode.go) *)

Definition hex : string := "0123456789abcdef".

(** [htmlSafeSet[b]] for [b < utf8.RuneSelf]: every byte from the space on
    but the double quote, the backslash and the HTML characters. *)
Definition htmlSafeSet (b : ascii) : bool :=
  (32 <=? code b) && (code b <? 128)
  && negb (Ascii.eqb b dquote) && negb (Ascii.eqb b "&") && negb (Ascii.eqb b "<")
  && negb (Ascii.eqb b ">") && negb (Ascii.eqb b backslash).

(** The loop of [appendString(dst, src, true)]: [src] is [src[i:]], and the
    result is what the loop appends from index [i] on. *)
Fixpoint appendString_loop (fuel : nat) (src : string) : string :=
  match fuel, src with
  | S fuel', String b src' =>
      if code b <? utf8.RuneSelf then
        if htmlSafeSet b then String b (appendString_loop fuel' src')
        else
          let esc :=
            if Ascii.eqb b backslash || Ascii.eqb b dquote
            then String backslash (String b EmptyString)
            else if code b =? 8 then String backslash "b"
            else if code b =? 12 then String backslash "f"
            else if code b =? 10 then String backslash "n"
            else if code b =? 13 then String backslash "r"
            else if code b =? 9 then String backslash "t"
            else
              String backslash (String "u" (String "0" (String "0"
                (String (hexchar hex (Z.shiftr (code b) 4))
                (String (hexchar hex (Z.land (code b) 0xF)) EmptyString))))) in
          esc ++ appendString_loop fuel' src'
      else
        let n := Z.min (len src) utf8.UTFMax in
        let '(c, size) := utf8.DecodeRune (take (Z.to_nat n) src) in
        if (c =? utf8.RuneError) && (size =? 1) then
          String backslash "ufffd" ++ appendString_loop fuel' src'
        else if (c =? 0x2028) || (c =? 0x2029) then
          String backslash "u202" ++
          String (hexchar hex (Z.land c 0xF))
                 (appendString_loop fuel' (drop (Z.to_nat size) src))
        else
          take (Z.to_nat size) src ++
          appendString_loop fuel' (drop (Z.to_nat size) src)
  | _, _ => EmptyString
  end.

Definition appendString (src : string) : string :=
  String dquote (appendString_loop (String.length src) src ++ String dquote EmptyString).

(** [json.Marshal(v)] with [v] a [string]. *)
Definition Marshal_string (v : string) : string * option error :=
  (appendString v, None).

End json.

(** ** pkg/plumber/types.go *)

Module plumber.

(** [type Duration struct { Duration time.Duration }] *)
Record Duration : Type := mkDuration { Duration_ : Z }.

(** [func (d *Duration) UnmarshalJSON(b []byte) error], for a receiver that
    is not nil: the receiver after the call, and the error. *)
Definition UnmarshalJSON (d : Duration) (b : string) : Duration * option error :=
  let '(n, err) := json.Unmarshal_int64 "time.Duration" b (Duration_ d) in
  let d := mkDuration n in
  match err with
  | None =>
      (* b was an integer number of nanoseconds. *)
      (d, None)
  | Some _ =>
      (* b was not an integer. Assume that it is a duration string. *)
      let str := EmptyString in
      let '(str, err) := json.Unmarshal_string b str in
      match err with
      | Some e => (d, Some e)
      | None =>
          let '(pd, err) := time.ParseDuration str in
          match err with
          | Some e => (d, Some e)
          | None => (mkDuration pd, None)
          end
      end
  end.

(** [func (d *Duration) MarshalJSON() ([]byte, error)] *)
Definition MarshalJSON (d : Duration) : string * option error :=
  json.Marshal_string (time.String_ (Duration_ d)).

(** [type DecorationConfig struct]; a pointer field is an [option]. *)
Record DecorationConfig : Type := mkDecorationConfig {
  Timeout : option Duration;
  GracePeriod : option Duration;
  GCSCredentialsSecret : string;
  SSHKeySecrets : list string;
  SSHHostFingerprints : list string;
  SkipCloning : option bool;
  CookiefileSecret : string
}.

(** [func (d *DecorationConfig) Validate() error]; the receiver is a
    pointer, [None] when nil. *)
Definition Validate (d : option DecorationConfig) : option error := None.

End plumber.

(** ** Vocabulary of the statements *)

(** The numeral of [n] in base ten, the way a JSON document (and
    [strconv.FormatInt(n, 10)]) writes an integer. *)
Definition decimal (n : Z) : string :=
  if n <? 0 then String "-" (time.fmtInt EmptyString (- n))
  else time.fmtInt EmptyString n.

Fixpoint allDigits (s : string) : bool :=
  match s with
  | EmptyString => true
  | String c s' => isDigit c && allDigits s'
  end.

Definition someDigits (s : string) : bool :=
  allDigits s && negb (String.eqb s EmptyString).

(** The grammar of a JSON number (RFC 8259):
    [ minus ] int [ frac ] [ exp ]. *)
Definition jsonInt (s : string) : bool :=
  match s with
  | EmptyString => false
  | String c s' =>
      if Ascii.eqb c "0" then String.eqb s' EmptyString
      else isDigit c && allDigits s'
  end.

Definition jsonFrac (s : string) : bool :=
  match s with
  | EmptyString => true
  | String c s' => Ascii.eqb c "." && someDigits s'
  end.

Definition jsonExp (s : string) : bool :=
  match s with
  | EmptyString => true
  | String c s' =>
      (Ascii.eqb c "e" || Ascii.eqb c "E") &&
      match s' with
      | String g s'' =>
          if Ascii.eqb g "+" || Ascii.eqb g "-" then someDigits s'' else someDigits s'
      | EmptyString => false
      end
  end.

Definition jsonNumber (neg : bool) (int frac exp : string) : string :=
  (if neg then "-" else "") ++ int ++ frac ++ exp.




(** Every byte of [s] is a printable ASCII character other than the double
    quote and the backslash. *)
Fixpoint printable (s : string) : bool :=
  match s with
  | EmptyString => true
  | String c s' =>
      (32 <=? code c) && (code c <? 127) && negb (Ascii.eqb c dquote)
      && negb (Ascii.eqb c backslash) && printable s'
  end.

(** The value of a string of decimal digits read after [acc] (Horner). *)
Fixpoint digitsValue (s : string) (acc : Z) : Z :=
  match s with
  | EmptyString => acc
  | String c s' => digitsValue s' (acc * 10 + (code c - 48))
  end.

(** The scanner states in which a run of digits is read: after the first
    digit of the integer part, of the fraction or of the exponent. *)
Definition digitState (st : json.stepfn) : Prop :=
  st = json.State1 \/ st = json.StateDot0 \/ st = json.StateE0.

(** The scanner states in which a number may end. *)
Definition numberEnd (st : json.stepfn) : Prop :=
  st = json.State0 \/ st = json.State1 \/ st = json.StateDot0 \/ st = json.StateE0.

(** The scanner after [reset]. *)
Definition scan0 : json.scanner :=
  json.mkScanner json.StateBeginValue false [] None 0.

(** The bytes a number is made of. *)
Definition numberByte (c : ascii) : bool :=
  isDigit c || Ascii.eqb c "." || Ascii.eqb c "e" || Ascii.eqb c "E"
  || Ascii.eqb c "+" || Ascii.eqb c "-".

(** Strings that need no escaping in JSON: bytes of [htmlSafeSet] and the
    two micro signs of duration units. *)
Inductive plain : string -> Prop :=
| plain_nil : plain EmptyString
| plain_byte (c : ascii) (s : string) :
    json.htmlSafeSet c = true -> plain s -> plain (String c s)
| plain_micro (s : string) : plain s -> plain (time.micro ++ s)
| plain_mu (s : string) : plain s -> plain (time.mu ++ s).

(** What [fmtInt] and [fmtFrac] write, apart from the buffer they write
    in front of. *)
Definition intOf (v : Z) : string := time.fmtInt EmptyString v.
Definition fracOf (v : Z) (prec : nat) : string :=
  fst (time.fmtFrac EmptyString v prec).

(** [Duration.String] without the sign, on the magnitude [u], as a
    concatenation. *)
Definition formatAbs (u : Z) : string :=
  if u <? 10 ^ 9 then
    if u =? 0 then "0s"
    else if u <? 10 ^ 3 then intOf u ++ "ns"
    else if u <? 10 ^ 6 then intOf (u / 10 ^ 3) ++ fracOf u 3 ++ time.micro ++ "s"
    else intOf (u / 10 ^ 6) ++ fracOf u 6 ++ "ms"
  else
    let secs := u / 10 ^ 9 in
    (if 0 <? secs / 60 / 60 then intOf (secs / 60 / 60) ++ "h" else "") ++
    (if 0 <? secs / 60 then intOf (secs / 60 mod 60) ++ "m" else "") ++
    intOf (secs mod 60) ++ fracOf u 9 ++ "s".

(** The magnitude [Duration.format] computes in uint64. *)
Definition magnitude (d : Z) : Z :=
  if d <? 0 then u64 (- u64 d) else u64 d.

(** The two middle steps of a round of [ParseDuration]'s loop, named: the
    optional fraction after the leading digits, and the value of the term
    once the unit is known. *)
Definition fractionPart (s1 : string) : Z * float64.t * string * bool :=
  match s1 with
  | String c s1' =>
      if Ascii.eqb c "." then
        let '(f, scale, s2) := time.leadingFraction s1' in
        (f, scale, s2, negb (len s1' =? len s2))
      else (0, float64.of_uint64 1, s1, false)
  | EmptyString => (0, float64.of_uint64 1, s1, false)
  end.

Definition termValue (v unit f : Z) (scale : float64.t) : Z :=
  if 0 <? f then
    u64 (u64 (v * unit) + float64.to_uint64
           (float64.mul (float64.of_uint64 f)
              (float64.div (float64.of_uint64 unit) scale)))
  else u64 (v * unit).

(** [s] does not begin with a sign. *)
Definition unsigned (s : string) : bool :=
  match s with
  | String c _ => negb (Ascii.eqb c "-" || Ascii.eqb c "+")
  | EmptyString => true
  end.

(** The binary64 number of a positive integer below 2^53: the integer
    shifted to a mantissa of 53 bits. *)
Definition float64_of_pos (q : positive) : float64.t :=
  S754_finite false
    (Z.to_pos (Zpos q * 2 ^ (52 - Z.log2 (Zpos q))))
    (Z.log2 (Zpos q) - 52).

(** [scale] after [k] more digits of a fraction. *)
Fixpoint scaleBy (k : nat) (scale : float64.t) : float64.t :=
  match k with
  | O => scale
  | S k' => scaleBy k' (float64.mul scale (float64.of_uint64 10))
  end.

(** [s] is empty or begins with a byte that is no digit. *)
Definition noDigitHead (s : string) : bool :=
  match s with
  | String c _ => negb (isDigit c)
  | EmptyString => true
  end.

(** A byte of a unit: neither a digit nor the point. *)
Definition unitByte (c : ascii) : bool := negb (Ascii.eqb c "." || isDigit c).

(** [s] is empty or begins with a digit or the point. *)
Definition numberHead (s : string) : bool :=
  match s with
  | String c _ => Ascii.eqb c "." || isDigit c
  | EmptyString => true
  end.


(** A duration string without fractions, as the list of its terms, each a
    string of digits and a unit name; and the nanoseconds it denotes. *)
Fixpoint renderTerms (ts : list (string * string)) : string :=
  match ts with
  | [] => EmptyString
  | (ip, u) :: ts' => ip ++ u ++ renderTerms ts'
  end.

Definition unitValue (u : string) : Z :=
  match time.lookup time.unitMap u with
  | Some unit => unit
  | None => 0
  end.

Fixpoint termsValue (ts : list (string * string)) : Z :=
  match ts with
  | [] => 0
  | (ip, u) :: ts' => digitsValue ip 0 * unitValue u + termsValue ts'
  end.

Definition wellFormedTerm (t : string * string) : bool :=
  someDigits (fst t) &&
  match time.lookup time.unitMap (snd t) with
  | Some _ => true
  | None => false
  end.

(** JSON white space: strings of spaces, tabs, carriage returns and line
    feeds. *)
Definition spaces (s : string) : bool := allBytes json.isSpace s.

(** The scanner states in which a top-level literal may end. *)
Definition valueEnd (st : json.stepfn) : Prop :=
  numberEnd st \/ st = json.StateEndValue.

(** The scanner in state [st], at the top level, after [n] bytes. *)
Definition scanAt (st : json.stepfn) (n : Z) : json.scanner :=
  json.mkScanner st false [] None n.

(** [b] is a literal: from the beginning of a value the scanner reads it to
    its end. *)
Definition literalScan (b : string) : Prop :=
  forall n, exists st n',
    valueEnd st /\
    json.checkValid_loop b (scanAt json.StateBeginValue n) = (scanAt st n', true).

(** [s] is empty or begins with a byte that starts no number: neither a
    digit nor the point. *)
Definition notNumber (s : string) : bool :=
  match s with
  | String c _ => unitByte c
  | EmptyString => true
  end.

(** * Properties *)

Import plumber.

(** ** Strings and bytes *)

Lemma app_nil_r_s (s : string) : s ++ "" = s.
Proof. induction s; simpl; congruence. Qed.

Lemma app_assoc_s (a b c : string) : (a ++ b) ++ c = a ++ (b ++ c).
Proof. induction a; simpl; congruence. Qed.

Lemma length_app_s (a b : string) :
  String.length (a ++ b) = (String.length a + String.length b)%nat.
Proof. induction a; simpl; congruence. Qed.

Lemma code_range (c : ascii) : 0 <= code c < 256.
Proof.
  unfold code. pose proof (N_ascii_bounded c). lia.
Qed.

Lemma byte_of_code (c : ascii) : byte_of (code c) = c.
Proof.
  unfold byte_of. pose proof (code_range c) as H.
  rewrite Z.mod_small by lia. unfold code.
  rewrite N2Z.id. apply ascii_N_embedding.
Qed.

Lemma code_byte_of (z : Z) : 0 <= z < 256 -> code (byte_of z) = z.
Proof.
  intros H. unfold code, byte_of. rewrite Z.mod_small by lia.
  rewrite N_ascii_embedding by lia. lia.
Qed.

Lemma code_inj (a b : ascii) : code a = code b -> a = b.
Proof.
  intros H. rewrite <- (byte_of_code a), <- (byte_of_code b). congruence.
Qed.

(** ** C6: Validate *)

(** C6: [DecorationConfig.Validate] returns no error, whatever the
    configuration (and also on a nil receiver); in particular on the
    configuration with every field absent. *)
Theorem Validate_always_succeeds :
  (forall d : option DecorationConfig, Validate d = None) /\
  Validate (Some (mkDecorationConfig None None "" [] [] None "")) = None.
Proof. split; reflexivity. Qed.

(** ** C7: the zero duration *)

(** C7: the inputs [0] and ["0s"] both unmarshal to the zero duration,
    whatever the receiver held, and the zero duration marshals to ["0s"]. *)
Theorem zero_duration :
  forall d : Duration,
    UnmarshalJSON d "0" = (mkDuration 0, None) /\
    UnmarshalJSON d (quoted "0s") = (mkDuration 0, None) /\
    MarshalJSON (mkDuration 0) = (quoted "0s", None).
Proof.
  intros [n]. repeat split; vm_compute; reflexivity.
Qed.

(** ** C9: a failed UnmarshalJSON leaves the receiver as it was *)

Lemma literalStore_int64_error typ item ri v v' e :
  json.literalStore_int64 typ item ri v = (v', Some e) -> v' = v.
Proof.
  unfold json.literalStore_int64.
  destruct item as [|c item']; [congruence|].
  repeat match goal with
         | |- context [if ?b then _ else _] => destruct b
         | |- context [match json.unquoteBytes ?x with _ => _ end] =>
             destruct (json.unquoteBytes x)
         | |- context [strconv.ParseInt ?x ?y] =>
             destruct (strconv.ParseInt x y) as [? [?|]]
         end; congruence.
Qed.

Lemma unmarshal_int64_error typ b v v' e :
  json.unmarshal (json.literalStore_int64 typ) typ b v = (v', Some e) -> v' = v.
Proof.
  unfold json.unmarshal.
  destruct (json.scanWhile _ _ _ _) as [[[s op] off] rest].
  destruct op; try congruence.
  apply literalStore_int64_error.
Qed.

Lemma Unmarshal_int64_error typ b v v' e :
  json.Unmarshal_int64 typ b v = (v', Some e) -> v' = v.
Proof.
  unfold json.Unmarshal_int64.
  destruct (json.checkValid b); [congruence|].
  apply unmarshal_int64_error.
Qed.

(** C9: whenever [UnmarshalJSON] returns an error (a failed integer decode
    followed by a failed string decode or a failed [time.ParseDuration]),
    the receiver holds the duration it held before the call. *)
Theorem UnmarshalJSON_error_unchanged :
  forall (d d' : Duration) (b : string) (e : error),
    UnmarshalJSON d b = (d', Some e) -> d' = d.
Proof.
  intros [n] d' b e. unfold UnmarshalJSON. simpl.
  destruct (json.Unmarshal_int64 "time.Duration" b n) as [n' [e1|]] eqn:H1.
  - apply Unmarshal_int64_error in H1. subst n'.
    destruct (json.Unmarshal_string b "") as [str [e2|]].
    + congruence.
    + destruct (time.ParseDuration str) as [pd [e3|]]; congruence.
  - congruence.
Qed.

Lemma UnmarshalJSON_error_unchanged_witness :
  exists e, UnmarshalJSON (mkDuration 7) "1.5" = (mkDuration 7, Some e) /\
            mkDuration 7 = mkDuration 7.
Proof.
  eexists. split; [vm_compute; reflexivity|].
  exact (UnmarshalJSON_error_unchanged (mkDuration 7) (mkDuration 7) "1.5" _
           ltac:(vm_compute; reflexivity)).
Defined.

(** ** Decimal digits *)

Lemma isDigit_range (c : ascii) : isDigit c = true <-> 48 <= code c <= 57.
Proof. unfold isDigit. rewrite andb_true_iff, !Z.leb_le. tauto. Qed.

Lemma isDigit_byte (d : Z) : 0 <= d < 10 -> isDigit (byte_of (d + 48)) = true.
Proof. intros H. apply isDigit_range. rewrite code_byte_of; lia. Qed.

Lemma allDigits_app (a b : string) :
  allDigits (a ++ b) = allDigits a && allDigits b.
Proof. induction a; simpl; [reflexivity|]. rewrite IHa, andb_assoc. reflexivity. Qed.

Lemma digitsValue_app (a b : string) (acc : Z) :
  digitsValue (a ++ b) acc = digitsValue b (digitsValue a acc).
Proof. revert acc. induction a; simpl; intros; [reflexivity|apply IHa]. Qed.

Lemma digitsValue_ge (ds : string) (acc : Z) :
  allDigits ds = true -> 0 <= acc -> acc <= digitsValue ds acc.
Proof.
  revert acc. induction ds as [|c ds IH]; simpl; intros acc H Hacc; [lia|].
  apply andb_true_iff in H as [Hc Hds]. apply isDigit_range in Hc.
  specialize (IH (acc * 10 + (code c - 48)) Hds). lia.
Qed.

Lemma digitsValue_mono (ds : string) (a b : Z) :
  a <= b -> digitsValue ds a <= digitsValue ds b.
Proof.
  revert a b. induction ds as [|c ds IH]; simpl; intros a b H; [lia|].
  apply IH. lia.
Qed.

(** [digitsValue ds acc = acc * 10^|ds| + digitsValue ds 0] *)
Lemma digitsValue_acc (ds : string) (acc : Z) :
  digitsValue ds acc = acc * 10 ^ len ds + digitsValue ds 0.
Proof.
  unfold len. revert acc. induction ds as [|c ds IH]; intros acc.
  - simpl. lia.
  - cbn [digitsValue String.length]. rewrite IH, (IH (0 * 10 + _)).
    rewrite Nat2Z.inj_succ, Z.pow_succ_r by lia. lia.
Qed.

Lemma digitsValue_bound (ds : string) :
  allDigits ds = true -> 0 <= digitsValue ds 0 < 10 ^ len ds.
Proof.
  unfold len. induction ds as [|c ds IH] using
    (fun P h0 hs => string_ind P h0 hs); intros H.
  - simpl. lia.
  - revert H IH. generalize dependent c. intros c H IH. simpl in H.
    apply andb_true_iff in H as [Hc Hds]. apply isDigit_range in Hc.
    specialize (IH Hds).
    cbn [digitsValue String.length]. rewrite digitsValue_acc. unfold len.
    rewrite Nat2Z.inj_succ, Z.pow_succ_r by lia. nia.
Qed.

(** *** The digits [fmtInt] writes *)

Lemma fmtInt_loop_app (f : nat) (tail : string) (v : Z) :
  time.fmtInt_loop f tail v = time.fmtInt_loop f "" v ++ tail.
Proof.
  revert tail v. induction f as [|f IH]; intros tail v; simpl; [reflexivity|].
  destruct (0 <? v); [|reflexivity].
  rewrite IH, (IH (String _ "")), app_assoc_s. reflexivity.
Qed.

Lemma fmtInt_loop_digits (f : nat) (v : Z) :
  0 <= v < 10 ^ Z.of_nat f ->
  allDigits (time.fmtInt_loop f "" v) = true /\
  digitsValue (time.fmtInt_loop f "" v) 0 = v.
Proof.
  revert v. induction f as [|f IH]; intros v Hv.
  - simpl in *. split; [reflexivity|lia].
  - cbn [time.fmtInt_loop]. destruct (0 <? v) eqn:Hpos.
    + apply Z.ltb_lt in Hpos.
      rewrite Nat2Z.inj_succ, Z.pow_succ_r in Hv by lia.
      assert (Hq : 0 <= v / 10 < 10 ^ Z.of_nat f).
      { split; [apply Z.div_pos; lia|apply Z.div_lt_upper_bound; lia]. }
      destruct (IH _ Hq) as [Hd Hval].
      pose proof (Z.mod_pos_bound v 10 ltac:(lia)) as Hm.
      rewrite fmtInt_loop_app. rewrite allDigits_app, digitsValue_app, Hd, Hval.
      simpl. rewrite isDigit_byte by lia. rewrite code_byte_of by lia.
      split; [reflexivity|]. pose proof (Z.div_mod v 10 ltac:(lia)). lia.
    + apply Z.ltb_ge in Hpos. split; [reflexivity|simpl; lia].
Qed.

(** The first digit written for a positive number is not [0]. *)
Lemma fmtInt_loop_head (f : nat) (v : Z) :
  0 < v < 10 ^ Z.of_nat f ->
  exists c ds, time.fmtInt_loop f "" v = String c ds /\ 49 <= code c <= 57.
Proof.
  revert v. induction f as [|f IH]; intros v Hv.
  - simpl in Hv. lia.
  - cbn [time.fmtInt_loop]. replace (0 <? v) with true by (symmetry; apply Z.ltb_lt; lia).
    rewrite Nat2Z.inj_succ, Z.pow_succ_r in Hv by lia.
    rewrite fmtInt_loop_app.
    destruct (Z.eq_dec (v / 10) 0) as [Hz|Hnz].
    + rewrite Hz. assert (Hlt : v < 10) by (apply Z.div_small_iff in Hz; lia).
      rewrite Z.mod_small by lia.
      exists (byte_of (v + 48)), "". split.
      * destruct f; reflexivity.
      * rewrite code_byte_of; lia.
    + assert (Hq : 0 < v / 10 < 10 ^ Z.of_nat f).
      { pose proof (Z.div_pos v 10 ltac:(lia) ltac:(lia)).
        split; [lia|apply Z.div_lt_upper_bound; lia]. }
      destruct (IH _ Hq) as (c & ds & Heq & Hc).
      rewrite Heq. simpl. eauto.
Qed.

(** Decide the integer comparisons in the goal. *)
Ltac zbool :=
  repeat match goal with
         | |- context [?a <=? ?b] => destruct (Z.leb_spec a b); try lia
         | |- context [?a <? ?b] => destruct (Z.ltb_spec a b); try lia
         | |- context [?a =? ?b] => destruct (Z.eqb_spec a b); try lia
         end.

Ltac case_if :=
  match goal with
  | |- context [if ?b then _ else _] => destruct b eqn:?
  end.

Lemma u64_small (z : Z) : 0 <= z < 2 ^ 64 -> u64 z = z.
Proof. intros H. unfold u64. apply Z.mod_small. exact H. Qed.

Lemma i64_small (z : Z) : is_int64 z -> i64 z = z.
Proof.
  unfold is_int64, i64. intros H. rewrite Z.mod_small; lia.
Qed.

Lemma i64_range (z : Z) : is_int64 (i64 z).
Proof.
  unfold is_int64, i64.
  pose proof (Z.mod_pos_bound (z + 2 ^ 63) (2 ^ 64) ltac:(lia)). lia.
Qed.

(** *** strconv.ParseUint and ParseInt on a numeral *)

Lemma ParseUint_loop_step (c : ascii) (s : string) (n : Z) :
  isDigit c = true -> 0 <= n -> n * 10 + (code c - 48) <= strconv.maxUint64 ->
  strconv.ParseUint_loop 10 (String c s) n =
  strconv.ParseUint_loop 10 s (n * 10 + (code c - 48)).
Proof.
  intros Hc Hn Hmax. cbn [strconv.ParseUint_loop]. rewrite Hc.
  apply isDigit_range in Hc.
  change (strconv.maxUint64 / 10 + 1) with 1844674407370955162.
  change (u64 (u64 (Z.shiftl 1 64) - 1)) with 18446744073709551615.
  change strconv.maxUint64 with 18446744073709551615 in Hmax.
  cbv zeta.
  rewrite (u64_small (n * 10)) by lia.
  rewrite (u64_small (n * 10 + _)) by lia.
  zbool; simpl; zbool. reflexivity.
Qed.

Lemma ParseUint_loop_digits (ds tail : string) (acc : Z) :
  allDigits ds = true -> 0 <= acc -> digitsValue ds acc <= strconv.maxUint64 ->
  strconv.ParseUint_loop 10 (ds ++ tail) acc =
  strconv.ParseUint_loop 10 tail (digitsValue ds acc).
Proof.
  revert acc. induction ds as [|c ds IH]; intros acc Hd Hacc Hmax; [reflexivity|].
  cbn [allDigits] in Hd. apply andb_true_iff in Hd as [Hc Hds].
  cbn [digitsValue] in *. cbn [append].
  pose proof (proj1 (isDigit_range c) Hc) as Hr.
  pose proof (digitsValue_ge ds (acc * 10 + (code c - 48)) Hds ltac:(lia)).
  rewrite ParseUint_loop_step by (assumption || lia).
  apply IH; (assumption || lia).
Qed.

(** A byte that is no digit stops [ParseUint] with an error, unless an
    overflow did so before. *)
Lemma ParseUint_loop_nondigit (s : string) (n : Z) :
  allDigits s = false -> snd (strconv.ParseUint_loop 10 s n) <> None.
Proof.
  revert n. induction s as [|c s IH]; intros n H; [discriminate|].
  cbn [strconv.ParseUint_loop]. cbn [allDigits] in H. cbv zeta.
  destruct (isDigit c) eqn:Hc.
  - simpl in H.
    repeat case_if; simpl; try discriminate. apply IH; assumption.
  - clear H. destruct ((97 <=? strconv.lower (code c)) && _) eqn:E;
      [|simpl; discriminate].
    apply andb_true_iff in E as [E _]. apply Z.leb_le in E.
    replace (10 <=? _) with true by (symmetry; apply Z.leb_le; lia).
    simpl. discriminate.
Qed.

Lemma decimal_nonneg (n : Z) : 0 <= n -> decimal n = time.fmtInt "" n.
Proof. intros H. unfold decimal. zbool. reflexivity. Qed.

Lemma decimal_neg (n : Z) : n < 0 -> decimal n = String "-" (time.fmtInt "" (- n)).
Proof. intros H. unfold decimal. zbool. reflexivity. Qed.

(** The numeral of a natural number below 10^20: digits, no leading zero. *)
Lemma fmtInt_numeral (v : Z) :
  0 <= v < 10 ^ 20 ->
  jsonInt (time.fmtInt "" v) = true /\
  allDigits (time.fmtInt "" v) = true /\
  digitsValue (time.fmtInt "" v) 0 = v.
Proof.
  intros Hv. unfold time.fmtInt. destruct (Z.eqb_spec v 0) as [->|Hnz].
  - repeat split.
  - destruct (fmtInt_loop_digits 20 v) as [Hd Hval]; [simpl; lia|].
    destruct (fmtInt_loop_head 20 v) as (c & ds & Heq & Hc); [simpl; lia|].
    split; [|split; assumption].
    rewrite Heq in *. cbn [jsonInt]. cbn [allDigits] in Hd.
    destruct (Ascii.eqb_spec c "0") as [->|_]; [change (code "0") with 48 in Hc; lia|].
    exact Hd.
Qed.

Lemma i64_opp_i64 (z : Z) : i64 (- i64 z) = i64 (- z).
Proof.
  unfold i64. f_equal.
  rewrite (Z.mod_eq (z + 2 ^ 63)) by lia.
  replace (- (z + 2 ^ 63 - 2 ^ 64 * ((z + 2 ^ 63) / 2 ^ 64) - 2 ^ 63) + 2 ^ 63)
    with (- z + 2 ^ 63 + ((z + 2 ^ 63) / 2 ^ 64) * 2 ^ 64) by lia.
  apply Z_mod_plus_full.
Qed.

Lemma ParseInt_decimal (n : Z) :
  is_int64 n -> strconv.ParseInt (decimal n) 10 = (n, None).
Proof.
  unfold is_int64. intros Hn.
  destruct (Z.ltb_spec n 0) as [Hneg|Hpos].
  - rewrite decimal_neg by assumption.
    destruct (fmtInt_numeral (- n)) as (Hj & Hd & Hv); [lia|].
    unfold strconv.ParseInt. cbn [Ascii.eqb Bool.eqb].
    cbv iota beta. unfold strconv.ParseUint.
    destruct (time.fmtInt "" (- n)) as [|c ds] eqn:Heq; [discriminate|].
    pose proof (ParseUint_loop_digits (String c ds) "" 0 Hd ltac:(lia)) as HP.
    rewrite app_nil_r_s, Hv in HP.
    rewrite HP by (change strconv.maxUint64 with 18446744073709551615; lia).
    cbn [strconv.ParseUint_loop]. cbn [andb negb].
    zbool. rewrite i64_opp_i64, Z.opp_involutive, i64_small by (unfold is_int64; lia).
    reflexivity.
  - rewrite decimal_nonneg by assumption.
    destruct (fmtInt_numeral n) as (Hj & Hd & Hv); [lia|].
    unfold strconv.ParseInt.
    destruct (time.fmtInt "" n) as [|c ds] eqn:Heq; [discriminate|].
    assert (Hc : isDigit c = true) by (simpl in Hd; apply andb_true_iff in Hd; tauto).
    destruct (Ascii.eqb_spec c "+") as [->|_]; [discriminate|].
    destruct (Ascii.eqb_spec c "-") as [->|_]; [discriminate|].
    unfold strconv.ParseUint.
    pose proof (ParseUint_loop_digits (String c ds) "" 0 Hd ltac:(lia)) as HP.
    rewrite app_nil_r_s, Hv in HP.
    rewrite HP by (change strconv.maxUint64 with 18446744073709551615; lia).
    cbn [strconv.ParseUint_loop]. cbn [andb negb].
    zbool. rewrite i64_small by (unfold is_int64; lia). reflexivity.
Qed.

(** ** Bytes compared through their codes *)

Lemma eqb_code (c k : ascii) : Ascii.eqb c k = (code c =? code k).
Proof.
  destruct (Ascii.eqb_spec c k) as [->|Hne].
  - symmetry. apply Z.eqb_refl.
  - symmetry. apply Z.eqb_neq. intros H. apply Hne, code_inj, H.
Qed.

Ltac eval_codes :=
  repeat match goal with
         | |- context [code (Ascii ?a ?b ?c ?d ?e ?f ?g ?h)] =>
             let v := eval vm_compute in (code (Ascii a b c d e f g h)) in
             change (code (Ascii a b c d e f g h)) with v
         end.

(** Turn the tests on the byte [c] into comparisons of [code c] and decide
    them. *)
Ltac bytes :=
  unfold isDigit, json.isSpace, json.isHex, dquote, backslash;
  rewrite ?eqb_code; eval_codes; zbool.

(** ** The scanner on a number *)

Import json.

Lemma checkValid_loop_app (a b : string) (s : scanner) :
  checkValid_loop (a ++ b) s =
  (let '(s', ok) := checkValid_loop a s in
   if ok then checkValid_loop b s' else (s', false)).
Proof.
  revert s. induction a as [|c a IH]; intros s; [reflexivity|].
  cbn [append checkValid_loop].
  destruct (call (incr_bytes s) c) as [s1 op].
  destruct (opcode_eqb op scanError); [reflexivity|apply IH].
Qed.

(** A run of digits after the first digit of the integer part, of the
    fraction or of the exponent. *)
Lemma scan_digits (st : stepfn) (ds : string) e ps er n :
  digitState st -> allDigits ds = true ->
  checkValid_loop ds (mkScanner st e ps er n) =
  (mkScanner st e ps er (n + len ds), true).
Proof.
  intros Hst. revert n. induction ds as [|c ds IH]; intros n Hd.
  - unfold len. simpl. rewrite Z.add_0_r. reflexivity.
  - cbn [allDigits] in Hd. apply andb_true_iff in Hd as [Hc Hds].
    cbn [checkValid_loop].
    assert (Hcall : call (incr_bytes (mkScanner st e ps er n)) c =
                    (mkScanner st e ps er (n + 1), scanContinue)).
    { destruct Hst as [-> | [-> | ->]]; unfold call, incr_bytes; cbn;
        unfold state1, stateDot0, stateE0; rewrite Hc; reflexivity. }
    rewrite Hcall. cbn [opcode_eqb]. rewrite IH by assumption.
    unfold len. cbn [String.length]. rewrite Nat2Z.inj_succ.
    do 2 f_equal. lia.
Qed.

Lemma someDigits_inv (s : string) :
  someDigits s = true ->
  exists c ds, s = String c ds /\ isDigit c = true /\ allDigits ds = true.
Proof.
  unfold someDigits. destruct s as [|c ds]; [discriminate|].
  cbn [allDigits]. rewrite andb_true_r. intros H.
  apply andb_true_iff in H. eauto.
Qed.

Lemma scan_int (ip : string) (st0 : stepfn) e ps er n :
  jsonInt ip = true -> st0 = StateBeginValue \/ st0 = StateNeg ->
  exists st n', (st = State0 \/ st = State1) /\
    checkValid_loop ip (mkScanner st0 e ps er n) = (mkScanner st e ps er n', true).
Proof.
  intros Hj Hst. destruct ip as [|c ds]; [discriminate|].
  cbn [jsonInt] in Hj. cbn [checkValid_loop].
  destruct (Ascii.eqb_spec c "0") as [->|Hc0].
  - apply String.eqb_eq in Hj. subst ds.
    exists State0, (n + 1). split; [tauto|].
    destruct Hst as [-> | ->]; reflexivity.
  - apply andb_true_iff in Hj as [Hc Hds].
    exists State1, (n + 1 + len ds). split; [tauto|].
    assert (Hcall : call (incr_bytes (mkScanner st0 e ps er n)) c =
                    (mkScanner State1 e ps er (n + 1), scanBeginLiteral) \/
                    call (incr_bytes (mkScanner st0 e ps er n)) c =
                    (mkScanner State1 e ps er (n + 1), scanContinue)).
    { assert (Hne : code c <> 48).
      { intros H. apply Hc0. apply code_inj. exact H. }
      apply isDigit_range in Hc.
      destruct Hst as [-> | ->]; unfold call, incr_bytes; cbn;
        unfold stateBeginValue, stateNeg, set_step; cbn.
      - left. bytes; reflexivity.
      - right. bytes; reflexivity. }
    destruct Hcall as [-> | ->]; cbn [opcode_eqb];
      apply scan_digits; unfold digitState; tauto.
Qed.

Lemma scan_frac (fr : string) (st : stepfn) e er n :
  jsonFrac fr = true -> st = State0 \/ st = State1 ->
  exists st' n',
    (fr = "" /\ st' = st \/ fr <> "" /\ st' = StateDot0) /\
    checkValid_loop fr (mkScanner st e [] er n) = (mkScanner st' e [] er n', true).
Proof.
  intros Hj Hst. destruct fr as [|c fs].
  - exists st, n. split; [tauto|reflexivity].
  - cbn [jsonFrac] in Hj. apply andb_true_iff in Hj as [Hc Hfs].
    apply Ascii.eqb_eq in Hc. subst c.
    apply someDigits_inv in Hfs as (c & ds & -> & Hc & Hds).
    exists StateDot0, (n + 1 + 1 + len ds). split; [right; split; [discriminate|reflexivity]|].
    cbn [checkValid_loop].
    assert (H1 : call (incr_bytes (mkScanner st e [] er n)) "." =
                 (mkScanner StateDot e [] er (n + 1), scanContinue)).
    { destruct Hst as [-> | ->]; reflexivity. }
    rewrite H1. cbn [opcode_eqb].
    assert (H2 : call (incr_bytes (mkScanner StateDot e [] er (n + 1))) c =
                 (mkScanner StateDot0 e [] er (n + 1 + 1), scanContinue)).
    { unfold call, incr_bytes; cbn. unfold stateDot. rewrite Hc. reflexivity. }
    rewrite H2. cbn [opcode_eqb].
    apply scan_digits; unfold digitState; tauto.
Qed.

Lemma scan_exp (ex : string) (st : stepfn) e er n :
  jsonExp ex = true -> st = State0 \/ st = State1 \/ st = StateDot0 ->
  exists st' n',
    (ex = "" /\ st' = st \/ ex <> "" /\ st' = StateE0) /\
    checkValid_loop ex (mkScanner st e [] er n) = (mkScanner st' e [] er n', true).
Proof.
  intros Hj Hst. destruct ex as [|c0 s'].
  - exists st, n. split; [tauto|reflexivity].
  - cbn [jsonExp] in Hj. apply andb_true_iff in Hj as [Hc0 Hs'].
    assert (H1 : call (incr_bytes (mkScanner st e [] er n)) c0 =
                 (mkScanner StateE e [] er (n + 1), scanContinue)).
    { apply orb_true_iff in Hc0. rewrite !Ascii.eqb_eq in Hc0.
      destruct Hc0 as [-> | ->]; destruct Hst as [-> | [-> | ->]]; reflexivity. }
    destruct s' as [|g s'']; [discriminate|].
    destruct (Ascii.eqb g "+" || Ascii.eqb g "-") eqn:Hg.
    + apply someDigits_inv in Hs' as (c & ds & -> & Hc & Hds).
      exists StateE0, (n + 1 + 1 + 1 + len ds).
      split; [right; split; [discriminate|reflexivity]|].
      cbn [checkValid_loop]. rewrite H1. cbn [opcode_eqb].
      assert (H2 : call (incr_bytes (mkScanner StateE e [] er (n + 1))) g =
                   (mkScanner StateESign e [] er (n + 1 + 1), scanContinue)).
      { unfold call, incr_bytes; cbn. unfold stateE. rewrite Hg. reflexivity. }
      rewrite H2. cbn [opcode_eqb].
      assert (H3 : call (incr_bytes (mkScanner StateESign e [] er (n + 1 + 1))) c =
                   (mkScanner StateE0 e [] er (n + 1 + 1 + 1), scanContinue)).
      { unfold call, incr_bytes; cbn. unfold stateESign. rewrite Hc. reflexivity. }
      rewrite H3. cbn [opcode_eqb].
      apply scan_digits; unfold digitState; tauto.
    + apply someDigits_inv in Hs' as (c & ds & Heq & Hc & Hds).
      injection Heq as -> ->.
      exists StateE0, (n + 1 + 1 + len ds).
      split; [right; split; [discriminate|reflexivity]|].
      cbn [checkValid_loop]. rewrite H1. cbn [opcode_eqb].
      assert (H2 : call (incr_bytes (mkScanner StateE e [] er (n + 1))) c =
                   (mkScanner StateE0 e [] er (n + 1 + 1), scanContinue)).
      { unfold call, incr_bytes; cbn. unfold stateE, stateESign.
        rewrite Hg, Hc. reflexivity. }
      rewrite H2. cbn [opcode_eqb].
      apply scan_digits; unfold digitState; tauto.
Qed.

Lemma scan_number (neg : bool) (ip fr ex : string) :
  jsonInt ip = true -> jsonFrac fr = true -> jsonExp ex = true ->
  exists st n', numberEnd st /\
    checkValid_loop (jsonNumber neg ip fr ex) scan0 =
    (mkScanner st false [] None n', true).
Proof.
  intros Hi Hf He. unfold jsonNumber, scan0.
  assert (Hsign : exists st0 n0, (st0 = StateBeginValue \/ st0 = StateNeg) /\
            checkValid_loop (if neg then "-" else "")
              (mkScanner StateBeginValue false [] None 0) =
            (mkScanner st0 false [] None n0, true)).
  { destruct neg; [exists StateNeg, 1|exists StateBeginValue, 0];
      (split; [tauto|reflexivity]). }
  destruct Hsign as (st0 & n0 & Hst0 & H0).
  destruct (scan_int ip st0 false [] None n0 Hi Hst0) as (st1 & n1 & Hst1 & H1).
  destruct (scan_frac fr st1 false None n1 Hf Hst1) as (st2 & n2 & Hst2 & H2).
  assert (Hst2' : st2 = State0 \/ st2 = State1 \/ st2 = StateDot0).
  { destruct Hst2 as [[_ ->] | [_ ->]]; tauto. }
  destruct (scan_exp ex st2 false None n2 He Hst2') as (st3 & n3 & Hst3 & H3).
  exists st3, n3. split.
  - unfold numberEnd. destruct Hst3 as [[_ ->] | [_ ->]]; tauto.
  - rewrite checkValid_loop_app, H0. cbv beta iota.
    rewrite checkValid_loop_app, H1. cbv beta iota.
    rewrite checkValid_loop_app, H2. cbv beta iota. exact H3.
Qed.

Lemma checkValid_number (neg : bool) (ip fr ex : string) :
  jsonInt ip = true -> jsonFrac fr = true -> jsonExp ex = true ->
  checkValid (jsonNumber neg ip fr ex) = None.
Proof.
  intros Hi Hf He.
  destruct (scan_number neg ip fr ex Hi Hf He) as (st & n & Hst & H).
  unfold checkValid. change (reset _) with scan0. rewrite H.
  destruct Hst as [-> | [-> | [-> | ->]]]; reflexivity.
Qed.

(** ** Decoding a number *)

Lemma allBytes_app (p : ascii -> bool) (a b : string) :
  allBytes p (a ++ b) = allBytes p a && allBytes p b.
Proof. induction a; simpl; [reflexivity|]. rewrite IHa, andb_assoc. reflexivity. Qed.

Lemma allBytes_impl (p q : ascii -> bool) (s : string) :
  (forall c, p c = true -> q c = true) -> allBytes p s = true -> allBytes q s = true.
Proof.
  intros Hpq. induction s as [|c s IH]; simpl; [reflexivity|].
  intros H. apply andb_true_iff in H as [Hc Hs].
  rewrite (Hpq c Hc), (IH Hs). reflexivity.
Qed.

Lemma allDigits_allBytes (s : string) : allDigits s = allBytes isDigit s.
Proof. induction s; simpl; congruence. Qed.

Lemma digits_numberBytes (s : string) :
  allDigits s = true -> allBytes numberByte s = true.
Proof.
  rewrite allDigits_allBytes. apply allBytes_impl.
  intros c Hc. unfold numberByte. rewrite Hc. reflexivity.
Qed.

Lemma jsonInt_digits (ip : string) : jsonInt ip = true -> someDigits ip = true.
Proof.
  destruct ip as [|c ds]; [discriminate|]. cbn [jsonInt]. unfold someDigits.
  cbn [allDigits]. rewrite andb_true_r.
  destruct (Ascii.eqb_spec c "0") as [->|_].
  - intros H. apply String.eqb_eq in H. subst. reflexivity.
  - tauto.
Qed.

Lemma someDigits_allDigits (s : string) : someDigits s = true -> allDigits s = true.
Proof. unfold someDigits. intros H. apply andb_true_iff in H. tauto. Qed.

Lemma jsonFrac_numberBytes (fr : string) :
  jsonFrac fr = true -> allBytes numberByte fr = true.
Proof.
  destruct fr as [|c fs]; [reflexivity|]. cbn [jsonFrac allBytes].
  intros H. apply andb_true_iff in H as [Hc Hfs].
  apply Ascii.eqb_eq in Hc. subst c.
  rewrite (digits_numberBytes fs (someDigits_allDigits _ Hfs)). reflexivity.
Qed.

Lemma jsonExp_numberBytes (ex : string) :
  jsonExp ex = true -> allBytes numberByte ex = true.
Proof.
  destruct ex as [|c s']; [reflexivity|]. cbn [jsonExp allBytes].
  intros H. apply andb_true_iff in H as [Hc Hs'].
  assert (Hnc : numberByte c = true).
  { unfold numberByte. apply orb_true_iff in Hc as [Hc|Hc]; rewrite Hc;
      rewrite ?orb_true_r; reflexivity. }
  rewrite Hnc. cbn [andb].
  destruct s' as [|g s'']; [discriminate|].
  destruct (Ascii.eqb g "+" || Ascii.eqb g "-") eqn:Hg.
  - cbn [allBytes].
    rewrite (digits_numberBytes s'' (someDigits_allDigits _ Hs')).
    unfold numberByte. apply orb_true_iff in Hg as [Hg|Hg]; rewrite Hg;
      rewrite ?orb_true_r; reflexivity.
  - apply digits_numberBytes, someDigits_allDigits, Hs'.
Qed.

Lemma rescanNumber_all (s : string) :
  allBytes numberByte s = true -> rescanNumber s = s.
Proof.
  induction s as [|c s IH]; [reflexivity|]. cbn [allBytes rescanNumber].
  intros H. apply andb_true_iff in H as [Hc Hs].
  unfold numberByte in Hc. rewrite Hc, (IH Hs). reflexivity.
Qed.

(** A number begins with the minus sign or a digit, and is made of number
    bytes. *)
Lemma jsonNumber_shape (neg : bool) (ip fr ex : string) :
  jsonInt ip = true -> jsonFrac fr = true -> jsonExp ex = true ->
  exists c rest, jsonNumber neg ip fr ex = String c rest /\
    (c = "-"%char \/ isDigit c = true) /\ allBytes numberByte rest = true.
Proof.
  intros Hi Hf He. unfold jsonNumber.
  pose proof (digits_numberBytes ip (someDigits_allDigits _ (jsonInt_digits _ Hi))) as Hip.
  pose proof (jsonFrac_numberBytes fr Hf) as Hfr.
  pose proof (jsonExp_numberBytes ex He) as Hex.
  destruct neg.
  - exists "-"%char, (ip ++ fr ++ ex). split; [reflexivity|]. split; [tauto|].
    rewrite !allBytes_app, Hip, Hfr, Hex. reflexivity.
  - apply jsonInt_digits, someDigits_inv in Hi as (c & ds & -> & Hc & Hds).
    exists c, (ds ++ fr ++ ex). split; [reflexivity|]. split; [tauto|].
    cbn [allBytes] in Hip. apply andb_true_iff in Hip as [_ Hip].
    rewrite !allBytes_app, Hip, Hfr, Hex. reflexivity.
Qed.

(** On a number the decoder hands the whole input to [literalStore]. *)
Lemma unmarshal_number {A : Type} (ls : string -> Z -> A -> A * option error)
    (typ : string) (neg : bool) (ip fr ex : string) (v : A) :
  jsonInt ip = true -> jsonFrac fr = true -> jsonExp ex = true ->
  unmarshal ls typ (jsonNumber neg ip fr ex) v =
  ls (jsonNumber neg ip fr ex) (len (jsonNumber neg ip fr ex)) v.
Proof.
  intros Hi Hf He.
  destruct (jsonNumber_shape neg ip fr ex Hi Hf He) as (c & rest & -> & Hc & Hrest).
  unfold unmarshal. change (reset _) with scan0.
  assert (Hcall : exists s', call scan0 c = (s', scanBeginLiteral)).
  { destruct Hc as [-> | Hc]; [eexists; reflexivity|].
    apply isDigit_range in Hc. unfold call, scan0. cbn.
    unfold stateBeginValue, set_step. cbn.
    bytes; eexists; reflexivity. }
  destruct Hcall as [s' Hcall].
  cbn [scanWhile]. rewrite Hcall. cbn [opcode_eqb].
  assert (Hre : rescanLiteral (String c rest) = String c rest).
  { unfold rescanLiteral. rewrite (rescanNumber_all rest Hrest).
    destruct Hc as [-> | Hc]; [reflexivity|].
    rewrite Hc. cbn [orb]. apply isDigit_range in Hc.
    bytes; reflexivity. }
  rewrite Hre. f_equal.
Qed.

Lemma literalStore_int64_number (typ : string) (c : ascii) (rest : string)
    (ri v : Z) :
  c = "-"%char \/ isDigit c = true ->
  literalStore_int64 typ (String c rest) ri v =
  match strconv.ParseInt (String c rest) 10 with
  | (n, None) => (n, None)
  | (_, Some _) =>
      (v, Some (UnmarshalTypeError ("number " ++ String c rest) typ ri))
  end.
Proof.
  intros Hc. unfold literalStore_int64.
  destruct Hc as [-> | Hc]; [reflexivity|].
  rewrite Hc. cbn [negb andb]. rewrite andb_false_r.
  apply isDigit_range in Hc. bytes; reflexivity.
Qed.

Lemma literalStore_string_number (c : ascii) (rest : string) (ri : Z) (v : string) :
  c = "-"%char \/ isDigit c = true ->
  literalStore_string (String c rest) ri v =
  (v, Some (UnmarshalTypeError "number" "string" ri)).
Proof.
  intros Hc. unfold literalStore_string.
  destruct Hc as [-> | Hc]; [reflexivity|].
  rewrite Hc. cbn [negb andb]. rewrite andb_false_r.
  apply isDigit_range in Hc. bytes; reflexivity.
Qed.

Lemma decimal_jsonNumber (n : Z) :
  is_int64 n ->
  decimal n = jsonNumber (n <? 0) (time.fmtInt "" (Z.abs n)) "" "" /\
  jsonInt (time.fmtInt "" (Z.abs n)) = true.
Proof.
  unfold is_int64. intros Hn. unfold jsonNumber, decimal.
  rewrite !app_nil_r_s.
  destruct (fmtInt_numeral (Z.abs n)) as (Hj & _); [lia|].
  split; [|exact Hj].
  destruct (Z.ltb_spec n 0).
  - rewrite Z.abs_neq by lia. reflexivity.
  - rewrite Z.abs_eq by lia. reflexivity.
Qed.

Lemma Unmarshal_int64_decimal (typ : string) (n v : Z) :
  is_int64 n -> Unmarshal_int64 typ (decimal n) v = (n, None).
Proof.
  intros Hn. destruct (decimal_jsonNumber n Hn) as [Heq Hj].
  unfold Unmarshal_int64. rewrite Heq.
  rewrite checkValid_number by (assumption || reflexivity).
  rewrite unmarshal_number by (assumption || reflexivity).
  destruct (jsonNumber_shape (n <? 0) (time.fmtInt "" (Z.abs n)) "" "" Hj
              eq_refl eq_refl) as (c & rest & Hshape & Hc & _).
  rewrite Hshape at 1. rewrite literalStore_int64_number by assumption.
  rewrite <- Hshape, <- Heq, ParseInt_decimal by assumption. reflexivity.
Qed.

Lemma UnmarshalJSON_decimal (d : Duration) (n : Z) :
  is_int64 n -> UnmarshalJSON d (decimal n) = (mkDuration n, None).
Proof.
  intros Hn. unfold UnmarshalJSON.
  rewrite Unmarshal_int64_decimal by assumption. reflexivity.
Qed.

(** *** A number with a fraction or an exponent *)

Lemma ParseUint_loop_range (s : string) (n un : Z) :
  strconv.ParseUint_loop 10 s n = (un, Some strconv.ErrRange) -> un = 2 ^ 64 - 1.
Proof.
  revert n. induction s as [|c s IH]; intros n; [discriminate|].
  cbn [strconv.ParseUint_loop]. cbv zeta.
  change (u64 (u64 (Z.shiftl 1 64) - 1)) with (2 ^ 64 - 1).
  destruct (if isDigit c then _ else _) as [d|]; [|discriminate].
  repeat case_if; try discriminate; try (intros H; injection H as <-; reflexivity).
  apply IH.
Qed.

Lemma ParseInt_nondigit (neg : bool) (body : string) :
  someDigits (take 1 body) = true -> allDigits body = false ->
  snd (strconv.ParseInt ((if neg then "-" else "") ++ body) 10) <> None.
Proof.
  intros Hhead Hnd.
  destruct body as [|c body']; [discriminate|].
  assert (Hc : isDigit c = true).
  { cbn in Hhead. unfold someDigits in Hhead. cbn in Hhead.
    rewrite !andb_true_r in Hhead. exact Hhead. }
  assert (Hstrip : strconv.ParseInt ((if neg then "-" else "") ++ String c body') 10 =
    let '(un, err) := strconv.ParseUint (String c body') 10 in
    match err with
    | Some strconv.ErrSyntax => (0, err)
    | _ =>
        if negb neg && (2 ^ 63 <=? un) then (2 ^ 63 - 1, Some strconv.ErrRange)
        else if neg && (2 ^ 63 <? un) then (- 2 ^ 63, Some strconv.ErrRange)
        else (if neg then i64 (- i64 un) else i64 un, None)
    end).
  { destruct neg; [reflexivity|]. unfold strconv.ParseInt. cbn [append].
    apply isDigit_range in Hc.
    assert (H1 : Ascii.eqb c "+" = false) by (bytes; reflexivity).
    assert (H2 : Ascii.eqb c "-" = false) by (bytes; reflexivity).
    rewrite H1, H2. reflexivity. }
  rewrite Hstrip. unfold strconv.ParseUint.
  pose proof (ParseUint_loop_nondigit (String c body') 0 Hnd) as Herr.
  destruct (strconv.ParseUint_loop 10 (String c body') 0) as [un [[|]|]] eqn:HP;
    cbn [snd] in *; try congruence.
  apply ParseUint_loop_range in HP. subst un.
  destruct neg; cbn; discriminate.
Qed.

Lemma jsonFrac_not_digits (fr : string) :
  jsonFrac fr = true -> fr <> "" -> allDigits fr = false.
Proof.
  destruct fr as [|c fs]; [congruence|]. cbn [jsonFrac allDigits].
  intros H _. apply andb_true_iff in H as [Hc _].
  apply Ascii.eqb_eq in Hc. subst c. reflexivity.
Qed.

Lemma jsonExp_not_digits (ex : string) :
  jsonExp ex = true -> ex <> "" -> allDigits ex = false.
Proof.
  destruct ex as [|c s']; [congruence|]. cbn [jsonExp allDigits].
  intros H _. apply andb_true_iff in H as [Hc _].
  apply orb_true_iff in Hc. rewrite !Ascii.eqb_eq in Hc.
  destruct Hc as [-> | ->]; reflexivity.
Qed.

(** C10: a JSON number written with a fraction or an exponent (1.5, 1e-3,
    also 1.0 and 1e3) is refused: [UnmarshalJSON] returns the type error of
    the string decode and leaves the receiver as it was; it neither
    truncates nor scales.  A fractional duration goes through the quoted
    form: ["1.5h"] is an hour and a half. *)
Theorem fractional_number_rejected :
  (forall (d : Duration) (neg : bool) (int frac exp : string),
      jsonInt int = true -> jsonFrac frac = true -> jsonExp exp = true ->
      frac <> "" \/ exp <> "" ->
      UnmarshalJSON d (jsonNumber neg int frac exp) =
      (d, Some (UnmarshalTypeError "number" "string"
                  (len (jsonNumber neg int frac exp))))) /\
  (forall d : Duration,
      UnmarshalJSON d (quoted "1.5h") = (mkDuration (5400 * time.Second), None)).
Proof.
  split.
  - intros [v] neg ip fr ex Hi Hf He Hne.
    destruct (jsonNumber_shape neg ip fr ex Hi Hf He) as (c & rest & Hshape & Hc & _).
    assert (HP : snd (strconv.ParseInt (jsonNumber neg ip fr ex) 10) <> None).
    { unfold jsonNumber. apply ParseInt_nondigit.
      - apply jsonInt_digits, someDigits_inv in Hi as (c0 & ds & -> & Hc0 & _).
        cbn. unfold someDigits. cbn. rewrite Hc0. reflexivity.
      - rewrite !allDigits_app.
        destruct Hne as [Hne|Hne].
        + rewrite (jsonFrac_not_digits fr Hf Hne), andb_false_r. reflexivity.
        + rewrite (jsonExp_not_digits ex He Hne), !andb_false_r. reflexivity. }
    unfold UnmarshalJSON, Unmarshal_int64, Unmarshal_string. cbn [Duration_].
    rewrite checkValid_number by assumption.
    rewrite !unmarshal_number by assumption.
    rewrite Hshape at 1. rewrite literalStore_int64_number by assumption.
    rewrite <- Hshape.
    destruct (strconv.ParseInt (jsonNumber neg ip fr ex) 10) as [n [e|]];
      [|cbn in HP; congruence].
    rewrite Hshape at 1. rewrite literalStore_string_number by assumption.
    reflexivity.
  - intros [v]. vm_compute. reflexivity.
Qed.

Lemma fractional_number_rejected_witness :
  UnmarshalJSON (mkDuration 7) (jsonNumber false "1" ".5" "") =
    (mkDuration 7, Some (UnmarshalTypeError "number" "string"
                           (len (jsonNumber false "1" ".5" "")))) /\
  UnmarshalJSON (mkDuration 7) (jsonNumber false "1" "" "e-3") =
    (mkDuration 7, Some (UnmarshalTypeError "number" "string"
                           (len (jsonNumber false "1" "" "e-3")))).
Proof.
  pose proof (proj1 fractional_number_rejected (mkDuration 7) false) as H.
  split.
  - apply (H "1" ".5" ""); [reflexivity| reflexivity| reflexivity|].
    left. discriminate.
  - apply (H "1" "" "e-3"); [reflexivity| reflexivity| reflexivity|].
    right. discriminate.
Defined.

(** ** Plain strings: quoting and unquoting change nothing *)

Lemma plain_app (a b : string) : plain a -> plain b -> plain (a ++ b).
Proof.
  intros Ha Hb. induction Ha as [|c s Hc Hs IH|s Hs IH|s Hs IH].
  - exact Hb.
  - cbn [append]. apply plain_byte; assumption.
  - rewrite app_assoc_s. apply plain_micro, IH.
  - rewrite app_assoc_s. apply plain_mu, IH.
Qed.

Lemma htmlSafeSet_code (c : ascii) :
  htmlSafeSet c = true <->
  32 <= code c < 128 /\ code c <> 34 /\ code c <> 38 /\ code c <> 60 /\
  code c <> 62 /\ code c <> 92.
Proof.
  unfold htmlSafeSet. rewrite !andb_true_iff, !negb_true_iff.
  unfold dquote, backslash. rewrite !eqb_code. eval_codes.
  rewrite Z.leb_le, Z.ltb_lt, !Z.eqb_neq. tauto.
Qed.

Lemma plain_digits (s : string) : allDigits s = true -> plain s.
Proof.
  induction s as [|c s IH]; cbn [allDigits]; intros H; [constructor|].
  apply andb_true_iff in H as [Hc Hs]. constructor; [|auto].
  apply isDigit_range in Hc. apply htmlSafeSet_code. lia.
Qed.

Lemma len_cons (c : ascii) (s : string) : len (String c s) = 1 + len s.
Proof. unfold len. cbn [String.length]. lia. Qed.

Lemma len_nonneg (s : string) : 0 <= len s.
Proof. unfold len. lia. Qed.

Lemma len_app (a b : string) : len (a ++ b) = len a + len b.
Proof. unfold len. rewrite length_app_s. lia. Qed.

(** A two-byte sequence decodes to its rune whatever follows. *)
Lemma DecodeRune_micro (s : string) : utf8.DecodeRune (time.micro ++ s) = (0xB5, 2).
Proof.
  unfold time.micro. cbn [append]. unfold utf8.DecodeRune.
  change (code (byte_of 0xC2)) with 0xC2. change (code (byte_of 0xB5)) with 0xB5.
  change (utf8.first 0xC2) with utf8.s1. cbv zeta.
  change (utf8.as_ <=? utf8.s1) with false. cbv iota.
  change (Z.land utf8.s1 7) with 2.
  change (utf8.acceptRanges (Z.shiftr utf8.s1 4)) with (utf8.locb, utf8.hicb).
  cbv iota beta. rewrite !len_cons. pose proof (len_nonneg s).
  destruct (Z.ltb_spec (1 + (1 + len s)) 2); [lia|]. reflexivity.
Qed.

Lemma DecodeRune_mu (s : string) : utf8.DecodeRune (time.mu ++ s) = (0x3BC, 2).
Proof.
  unfold time.mu. cbn [append]. unfold utf8.DecodeRune.
  change (code (byte_of 0xCE)) with 0xCE. change (code (byte_of 0xBC)) with 0xBC.
  change (utf8.first 0xCE) with utf8.s1. cbv zeta.
  change (utf8.as_ <=? utf8.s1) with false. cbv iota.
  change (Z.land utf8.s1 7) with 2.
  change (utf8.acceptRanges (Z.shiftr utf8.s1 4)) with (utf8.locb, utf8.hicb).
  cbv iota beta. rewrite !len_cons. pose proof (len_nonneg s).
  destruct (Z.ltb_spec (1 + (1 + len s)) 2); [lia|]. reflexivity.
Qed.

(** Inside a string literal the scanner reads on over any byte from the
    space up that is neither the quote nor the backslash. *)
Lemma scan_string_byte (c : ascii) e ps er n :
  32 <= code c -> code c <> 34 -> code c <> 92 ->
  call (incr_bytes (mkScanner StateInString e ps er n)) c =
  (mkScanner StateInString e ps er (n + 1), scanContinue).
Proof.
  intros H1 H2 H3. unfold call, incr_bytes. cbn. unfold stateInString.
  bytes; reflexivity.
Qed.

Lemma scan_string_body (s : string) e ps er n :
  plain s ->
  checkValid_loop s (mkScanner StateInString e ps er n) =
  (mkScanner StateInString e ps er (n + len s), true).
Proof.
  intros Hs. revert n.
  induction Hs as [|c s Hc Hs IH|s Hs IH|s Hs IH]; intros n.
  - unfold len. simpl. rewrite Z.add_0_r. reflexivity.
  - apply htmlSafeSet_code in Hc. cbn [checkValid_loop].
    rewrite scan_string_byte by lia. cbn [opcode_eqb].
    rewrite IH, len_cons. do 2 f_equal. lia.
  - unfold time.micro. cbn [append checkValid_loop].
    rewrite scan_string_byte by (rewrite code_byte_of; lia). cbn [opcode_eqb].
    rewrite scan_string_byte by (rewrite code_byte_of; lia). cbn [opcode_eqb].
    rewrite IH, !len_cons. do 2 f_equal. lia.
  - unfold time.mu. cbn [append checkValid_loop].
    rewrite scan_string_byte by (rewrite code_byte_of; lia). cbn [opcode_eqb].
    rewrite scan_string_byte by (rewrite code_byte_of; lia). cbn [opcode_eqb].
    rewrite IH, !len_cons. do 2 f_equal. lia.
Qed.

Lemma checkValid_quoted (s : string) : plain s -> checkValid (quoted s) = None.
Proof.
  intros Hs. unfold checkValid, quoted. cbn [checkValid_loop].
  change (call (incr_bytes (reset _)) dquote)
    with (mkScanner StateInString false [] None 1, scanBeginLiteral).
  cbn [opcode_eqb]. rewrite checkValid_loop_app, (scan_string_body s) by assumption.
  cbv beta iota. reflexivity.
Qed.

Lemma rescanString_plain (s rest : string) :
  plain s ->
  rescanString (s ++ String dquote rest) = s ++ String dquote "".
Proof.
  intros Hs.
  assert (Hstep : forall c t, 32 <= code c -> code c <> 34 -> code c <> 92 ->
            rescanString (String c t) = String c (rescanString t)).
  { intros c t H1 H2 H3. cbn [rescanString]. bytes; reflexivity. }
  induction Hs as [|c s Hc Hs IH|s Hs IH|s Hs IH].
  - reflexivity.
  - apply htmlSafeSet_code in Hc. cbn [append].
    rewrite Hstep by lia. rewrite IH. reflexivity.
  - unfold time.micro. cbn [append].
    rewrite !Hstep by (rewrite code_byte_of; lia). rewrite IH. reflexivity.
  - unfold time.mu. cbn [append].
    rewrite !Hstep by (rewrite code_byte_of; lia). rewrite IH. reflexivity.
Qed.

Lemma unquote_prefix_plain (s : string) :
  plain s -> forall fuel, (String.length s <= fuel)%nat ->
  unquote_prefix fuel s = String.length s.
Proof.
  induction 1 as [|c s Hc Hs IH|s Hs IH|s Hs IH]; intros fuel Hfuel.
  - destruct fuel; reflexivity.
  - destruct fuel as [|fuel]; [cbn in Hfuel; lia|].
    cbn [String.length] in *. apply htmlSafeSet_code in Hc.
    cbn [unquote_prefix].
    assert (H1 : Ascii.eqb c backslash || Ascii.eqb c dquote || (code c <? 32) = false)
      by (bytes; reflexivity).
    rewrite H1. unfold utf8.RuneSelf. zbool. rewrite IH by lia. reflexivity.
  - destruct fuel as [|fuel]; [cbn in Hfuel; lia|].
    rewrite length_app_s in *. cbn [String.length time.micro] in *.
    change (unquote_prefix (S fuel) (time.micro ++ s)) with
      (let '(rr, size) := utf8.DecodeRune (time.micro ++ s) in
       if (rr =? utf8.RuneError) && (size =? 1) then O
       else (Z.to_nat size + unquote_prefix fuel (drop (Z.to_nat size) (time.micro ++ s)))%nat).
    rewrite DecodeRune_micro. cbv beta iota.
    change (drop (Z.to_nat 2) (time.micro ++ s)) with s.
    rewrite IH by lia. reflexivity.
  - destruct fuel as [|fuel]; [cbn in Hfuel; lia|].
    rewrite length_app_s in *. cbn [String.length time.mu] in *.
    change (unquote_prefix (S fuel) (time.mu ++ s)) with
      (let '(rr, size) := utf8.DecodeRune (time.mu ++ s) in
       if (rr =? utf8.RuneError) && (size =? 1) then O
       else (Z.to_nat size + unquote_prefix fuel (drop (Z.to_nat size) (time.mu ++ s)))%nat).
    rewrite DecodeRune_mu. cbv beta iota.
    change (drop (Z.to_nat 2) (time.mu ++ s)) with s.
    rewrite IH by lia. reflexivity.
Qed.

Lemma take_app_length (a b : string) : take (String.length a) (a ++ b) = a.
Proof. induction a; simpl; congruence. Qed.

Lemma last_is_dquote_app (s : string) :
  last_is_dquote (String dquote (s ++ String dquote "")) = true.
Proof.
  unfold last_is_dquote. cbn [String.length]. rewrite Nat.sub_succ, Nat.sub_0_r.
  rewrite length_app_s. cbn [String.length].
  pose proof (append_correct2 (String dquote s) (String dquote "") 0) as H.
  cbn [append String.length] in H. rewrite Nat.add_0_l in H.
  replace (String.length s + 1)%nat with (S (String.length s)) by lia.
  rewrite <- H. reflexivity.
Qed.

Lemma unquoteBytes_quoted (s : string) :
  plain s -> unquoteBytes (quoted s) = Some s.
Proof.
  intros Hs. unfold unquoteBytes, quoted.
  rewrite last_is_dquote_app, len_cons, len_app, len_cons.
  change (len "") with 0.
  pose proof (len_nonneg s). unfold dquote at 1. rewrite Ascii.eqb_refl.
  cbn [negb orb]. zbool.
  rewrite length_app_s. cbn [String.length].
  replace (String.length s + 1 - 1)%nat with (String.length s) by lia.
  rewrite take_app_length.
  rewrite unquote_prefix_plain by (assumption || lia).
  rewrite Nat.eqb_refl. reflexivity.
Qed.

Lemma unmarshal_quoted {A : Type} (ls : string -> Z -> A -> A * option error)
    (typ : string) (s : string) (v : A) :
  plain s ->
  unmarshal ls typ (quoted s) v = ls (quoted s) (len (quoted s)) v.
Proof.
  intros Hs. unfold unmarshal, quoted. cbn [scanWhile].
  change (call (reset _) dquote)
    with (mkScanner StateInString false [] None 0, scanBeginLiteral).
  cbn [opcode_eqb]. unfold rescanLiteral. unfold dquote at 2.
  rewrite Ascii.eqb_refl. rewrite rescanString_plain by assumption.
  f_equal.
Qed.

Lemma Unmarshal_int64_quoted (typ : string) (s : string) (v : Z) :
  plain s ->
  Unmarshal_int64 typ (quoted s) v =
  (v, Some (UnmarshalTypeError "string" typ (len (quoted s)))).
Proof.
  intros Hs. unfold Unmarshal_int64.
  rewrite checkValid_quoted, unmarshal_quoted by assumption.
  unfold literalStore_int64.
  rewrite unquoteBytes_quoted by assumption. reflexivity.
Qed.

Lemma Unmarshal_string_quoted (s v : string) :
  plain s -> Unmarshal_string (quoted s) v = (s, None).
Proof.
  intros Hs. unfold Unmarshal_string.
  rewrite checkValid_quoted, unmarshal_quoted by assumption.
  unfold literalStore_string.
  rewrite unquoteBytes_quoted by assumption. reflexivity.
Qed.

(** On a quoted plain string, [UnmarshalJSON] is [time.ParseDuration] on
    the contents. *)
Lemma UnmarshalJSON_quoted (d : Duration) (s : string) :
  plain s ->
  UnmarshalJSON d (quoted s) =
  match time.ParseDuration s with
  | (pd, None) => (mkDuration pd, None)
  | (_, Some e) => (d, Some e)
  end.
Proof.
  intros Hs. destruct d as [v]. unfold UnmarshalJSON. cbn [Duration_].
  rewrite Unmarshal_int64_quoted, Unmarshal_string_quoted by assumption.
  destruct (time.ParseDuration s) as [pd [e|]]; reflexivity.
Qed.

(** ** C3: MarshalJSON *)

Lemma drop_app_length (a b : string) : drop (String.length a) (a ++ b) = b.
Proof. induction a; simpl; congruence. Qed.

Lemma appendString_loop_plain (s : string) :
  plain s -> forall fuel, (String.length s <= fuel)%nat ->
  appendString_loop fuel s = s.
Proof.
  induction 1 as [|c s Hc Hs IH|s Hs IH|s Hs IH]; intros fuel Hfuel.
  - destruct fuel; reflexivity.
  - destruct fuel as [|fuel]; [cbn in Hfuel; lia|].
    cbn [String.length] in *. cbn [appendString_loop]. rewrite Hc.
    apply htmlSafeSet_code in Hc. unfold utf8.RuneSelf. zbool.
    rewrite IH by lia. reflexivity.
  - destruct fuel as [|fuel]; [cbn in Hfuel; lia|].
    rewrite length_app_s in *. cbn [String.length time.micro] in *.
    assert (Htake : exists t, take (Z.to_nat (Z.min (len (time.micro ++ s)) utf8.UTFMax))
                                (time.micro ++ s) = time.micro ++ t).
    { rewrite len_app. change (len time.micro) with 2. pose proof (len_nonneg s).
      unfold utf8.UTFMax.
      destruct (Z.to_nat (Z.min (2 + len s) 4)) as [|[|k]] eqn:Hk; [lia|lia|].
      eexists. reflexivity. }
    destruct Htake as [t Htake].
    change (appendString_loop (S fuel) (time.micro ++ s)) with
      (let n := Z.min (len (time.micro ++ s)) utf8.UTFMax in
       let '(c, size) := utf8.DecodeRune (take (Z.to_nat n) (time.micro ++ s)) in
       if (c =? utf8.RuneError) && (size =? 1) then
         String backslash "ufffd" ++ appendString_loop fuel (String (byte_of 0xB5) s)
       else if (c =? 0x2028) || (c =? 0x2029) then
         String backslash "u202" ++
         String (hexchar hex (Z.land c 0xF))
                (appendString_loop fuel (drop (Z.to_nat size) (time.micro ++ s)))
       else
         take (Z.to_nat size) (time.micro ++ s) ++
         appendString_loop fuel (drop (Z.to_nat size) (time.micro ++ s))).
    cbv zeta. rewrite Htake, DecodeRune_micro. cbv beta iota.
    change (drop (Z.to_nat 2) (time.micro ++ s)) with s.
    change (take (Z.to_nat 2) (time.micro ++ s)) with time.micro.
    rewrite IH by lia. reflexivity.
  - destruct fuel as [|fuel]; [cbn in Hfuel; lia|].
    rewrite length_app_s in *. cbn [String.length time.mu] in *.
    assert (Htake : exists t, take (Z.to_nat (Z.min (len (time.mu ++ s)) utf8.UTFMax))
                                (time.mu ++ s) = time.mu ++ t).
    { rewrite len_app. change (len time.mu) with 2. pose proof (len_nonneg s).
      unfold utf8.UTFMax.
      destruct (Z.to_nat (Z.min (2 + len s) 4)) as [|[|k]] eqn:Hk; [lia|lia|].
      eexists. reflexivity. }
    destruct Htake as [t Htake].
    change (appendString_loop (S fuel) (time.mu ++ s)) with
      (let n := Z.min (len (time.mu ++ s)) utf8.UTFMax in
       let '(c, size) := utf8.DecodeRune (take (Z.to_nat n) (time.mu ++ s)) in
       if (c =? utf8.RuneError) && (size =? 1) then
         String backslash "ufffd" ++ appendString_loop fuel (String (byte_of 0xBC) s)
       else if (c =? 0x2028) || (c =? 0x2029) then
         String backslash "u202" ++
         String (hexchar hex (Z.land c 0xF))
                (appendString_loop fuel (drop (Z.to_nat size) (time.mu ++ s)))
       else
         take (Z.to_nat size) (time.mu ++ s) ++
         appendString_loop fuel (drop (Z.to_nat size) (time.mu ++ s))).
    cbv zeta. rewrite Htake, DecodeRune_mu. cbv beta iota.
    change (drop (Z.to_nat 2) (time.mu ++ s)) with s.
    change (take (Z.to_nat 2) (time.mu ++ s)) with time.mu.
    rewrite IH by lia. reflexivity.
Qed.

Lemma Marshal_string_plain (s : string) :
  plain s -> Marshal_string s = (quoted s, None).
Proof.
  intros Hs. unfold Marshal_string, appendString, quoted.
  rewrite appendString_loop_plain by (assumption || lia). reflexivity.
Qed.

(** *** The shape of Duration.String *)

Lemma fmtInt_app (tail : string) (v : Z) : time.fmtInt tail v = intOf v ++ tail.
Proof.
  unfold intOf, time.fmtInt. destruct (v =? 0); [reflexivity|].
  apply fmtInt_loop_app.
Qed.

Lemma fmtFrac_loop_app (prec : nat) (tail : string) (v : Z) (print : bool) :
  time.fmtFrac_loop prec tail v print =
  (let '(ds, q, p) := time.fmtFrac_loop prec "" v print in (ds ++ tail, q, p)).
Proof.
  revert tail v print. induction prec as [|prec IH]; intros tail v print.
  - reflexivity.
  - cbn [time.fmtFrac_loop]. cbv zeta.
    destruct (print || negb (v mod 10 =? 0)).
    + rewrite IH, (IH (String _ "")).
      destruct (time.fmtFrac_loop prec "" (v / 10) true) as [[ds q] p].
      rewrite app_assoc_s. reflexivity.
    + apply IH.
Qed.

Lemma fmtFrac_loop_quot (prec : nat) (tail : string) (v : Z) (print : bool) :
  snd (fst (time.fmtFrac_loop prec tail v print)) = v / 10 ^ Z.of_nat prec.
Proof.
  revert tail v print. induction prec as [|prec IH]; intros tail v print.
  - simpl. rewrite Z.div_1_r. reflexivity.
  - cbn [time.fmtFrac_loop]. cbv zeta. rewrite IH.
    rewrite Nat2Z.inj_succ, Z.pow_succ_r by lia.
    rewrite Z.div_div by lia. reflexivity.
Qed.

Lemma fmtFrac_app (tail : string) (v : Z) (prec : nat) :
  time.fmtFrac tail v prec = (fracOf v prec ++ tail, v / 10 ^ Z.of_nat prec).
Proof.
  unfold fracOf, time.fmtFrac. rewrite fmtFrac_loop_app.
  pose proof (fmtFrac_loop_quot prec "" v false) as Hq.
  destruct (time.fmtFrac_loop prec "" v false) as [[ds q] p].
  cbn in Hq. subst q. destruct p; reflexivity.
Qed.

Lemma mod_pow10_succ (v : Z) (p : nat) :
  v mod 10 ^ Z.of_nat (S p) = v mod 10 + 10 * ((v / 10) mod 10 ^ Z.of_nat p).
Proof.
  rewrite Nat2Z.inj_succ, Z.pow_succ_r by lia.
  apply Z.rem_mul_r; [lia|]. apply Z.pow_pos_nonneg; lia.
Qed.

(** Once a digit has been printed, every further digit is. *)
Lemma fmtFrac_loop_true (prec : nat) (v : Z) :
  0 <= v ->
  exists ds, time.fmtFrac_loop prec "" v true = (ds, v / 10 ^ Z.of_nat prec, true) /\
    allDigits ds = true /\ len ds = Z.of_nat prec /\
    digitsValue ds 0 = v mod 10 ^ Z.of_nat prec.
Proof.
  revert v. induction prec as [|prec IH]; intros v Hv.
  - exists "". simpl. rewrite Z.div_1_r, Z.mod_1_r. repeat split.
  - cbn [time.fmtFrac_loop]. cbv zeta. cbn [orb].
    rewrite fmtFrac_loop_app.
    destruct (IH (v / 10) ltac:(apply Z.div_pos; lia)) as (ds & Heq & Hd & Hlen & Hval).
    rewrite Heq.
    pose proof (Z.mod_pos_bound v 10 ltac:(lia)) as Hm.
    exists (ds ++ String (byte_of (v mod 10 + 48)) ""). split; [|split; [|split]].
    + rewrite Nat2Z.inj_succ, Z.pow_succ_r, Z.div_div by lia. reflexivity.
    + rewrite allDigits_app, Hd. cbn. rewrite isDigit_byte by lia. reflexivity.
    + rewrite len_app, Hlen, len_cons. unfold len. simpl. lia.
    + rewrite digitsValue_app, Hval. cbn [digitsValue].
      rewrite code_byte_of by lia. rewrite mod_pow10_succ. lia.
Qed.

(** Trailing zeros are not printed. *)
Lemma fmtFrac_loop_false (prec : nat) (v : Z) :
  0 <= v ->
  (v mod 10 ^ Z.of_nat prec = 0 /\
   time.fmtFrac_loop prec "" v false = ("", v / 10 ^ Z.of_nat prec, false)) \/
  (v mod 10 ^ Z.of_nat prec <> 0 /\
   exists ds, time.fmtFrac_loop prec "" v false = (ds, v / 10 ^ Z.of_nat prec, true) /\
     allDigits ds = true /\ 1 <= len ds <= Z.of_nat prec /\
     digitsValue ds 0 * 10 ^ (Z.of_nat prec - len ds) = v mod 10 ^ Z.of_nat prec).
Proof.
  revert v. induction prec as [|prec IH]; intros v Hv.
  - left. simpl. rewrite Z.div_1_r, Z.mod_1_r. split; reflexivity.
  - cbn [time.fmtFrac_loop]. cbv zeta. cbn [orb].
    pose proof (Z.mod_pos_bound v 10 ltac:(lia)) as Hm.
    assert (Hq : v / 10 ^ Z.of_nat (S prec) = v / 10 / 10 ^ Z.of_nat prec).
    { rewrite Nat2Z.inj_succ, Z.pow_succ_r, Z.div_div by lia. reflexivity. }
    assert (Hp : 0 < 10 ^ Z.of_nat prec) by (apply Z.pow_pos_nonneg; lia).
    rewrite mod_pow10_succ, Hq.
    destruct (Z.eqb_spec (v mod 10) 0) as [Hz|Hnz]; cbn [negb].
    + destruct (IH (v / 10) ltac:(apply Z.div_pos; lia))
        as [[Hmod Heq] | [Hmod (ds & Heq & Hd & Hlen & Hval)]].
      * left. split; [lia|exact Heq].
      * right. split; [lia|]. exists ds. repeat split; try assumption; try lia.
        replace (Z.of_nat (S prec) - len ds) with (Z.succ (Z.of_nat prec - len ds)) by lia.
        rewrite Z.pow_succ_r by lia. lia.
    + right. split; [lia|].
      rewrite fmtFrac_loop_app.
      destruct (fmtFrac_loop_true prec (v / 10) ltac:(apply Z.div_pos; lia))
        as (ds & Heq & Hd & Hlen & Hval).
      rewrite Heq.
      exists (ds ++ String (byte_of (v mod 10 + 48)) "").
      assert (Hl : len (ds ++ String (byte_of (v mod 10 + 48)) "") = Z.of_nat (S prec)).
      { rewrite len_app, Hlen, len_cons. unfold len. simpl. lia. }
      split; [reflexivity|]. split; [|split].
      * rewrite allDigits_app, Hd. cbn. rewrite isDigit_byte by lia. reflexivity.
      * lia.
      * rewrite Hl, Z.sub_diag, Z.pow_0_r, Z.mul_1_r.
        rewrite digitsValue_app, Hval. cbn [digitsValue].
        rewrite code_byte_of by lia. lia.
Qed.

Lemma fracOf_spec (v : Z) (prec : nat) :
  0 <= v ->
  (v mod 10 ^ Z.of_nat prec = 0 /\ fracOf v prec = "") \/
  (v mod 10 ^ Z.of_nat prec <> 0 /\
   exists ds, fracOf v prec = String "." ds /\
     allDigits ds = true /\ 1 <= len ds <= Z.of_nat prec /\
     digitsValue ds 0 * 10 ^ (Z.of_nat prec - len ds) = v mod 10 ^ Z.of_nat prec).
Proof.
  intros Hv. unfold fracOf, time.fmtFrac.
  destruct (fmtFrac_loop_false prec v Hv) as [[Hmod Heq] | [Hmod (ds & Heq & H)]];
    rewrite Heq; [left|right]; (split; [assumption|]).
  - reflexivity.
  - exists ds. split; [reflexivity|exact H].
Qed.

Lemma plain_fracOf (v : Z) (prec : nat) : 0 <= v -> plain (fracOf v prec).
Proof.
  intros Hv.
  destruct (fracOf_spec v prec Hv) as [[_ ->] | [_ (ds & -> & Hd & _)]].
  - constructor.
  - constructor; [reflexivity|]. apply plain_digits, Hd.
Qed.

Lemma plain_intOf (v : Z) : 0 <= v < 10 ^ 20 -> plain (intOf v).
Proof.
  intros Hv. apply plain_digits. apply (fmtInt_numeral v Hv).
Qed.

Lemma format_decomp (d : Z) :
  time.format d = (if d <? 0 then "-" else "") ++ formatAbs (magnitude d).
Proof.
  unfold time.format, magnitude. cbv zeta.
  set (u := if d <? 0 then u64 (- u64 d) else u64 d).
  assert (Hbody :
    (if u <? u64 time.Second
     then if u =? 0 then "0s"
          else let '(prec, tail) :=
                 if u <? u64 time.Microsecond then (0%nat, "ns")
                 else if u <? u64 time.Millisecond then (3%nat, time.micro ++ "s")
                 else (6%nat, "ms") in
               let '(tail0, u0) := time.fmtFrac tail u prec in time.fmtInt tail0 u0
     else let '(tail, u0) := time.fmtFrac "s" u 9 in
          if 0 <? u0 / 60
          then if 0 <? u0 / 60 / 60
               then time.fmtInt
                      (String "h" (time.fmtInt (String "m" (time.fmtInt tail (u0 mod 60)))
                                     (u0 / 60 mod 60))) (u0 / 60 / 60)
               else time.fmtInt (String "m" (time.fmtInt tail (u0 mod 60))) (u0 / 60 mod 60)
          else time.fmtInt tail (u0 mod 60)) = formatAbs u).
  { unfold formatAbs.
    change (u64 time.Second) with (10 ^ 9).
    change (u64 time.Microsecond) with (10 ^ 3).
    change (u64 time.Millisecond) with (10 ^ 6).
    destruct (u <? 10 ^ 9).
    - destruct (u =? 0); [reflexivity|].
      destruct (u <? 10 ^ 3).
      + rewrite fmtFrac_app, fmtInt_app.
        change (10 ^ Z.of_nat 0) with 1. rewrite Z.div_1_r. reflexivity.
      + destruct (u <? 10 ^ 6); rewrite fmtFrac_app, fmtInt_app; reflexivity.
    - rewrite fmtFrac_app. change (10 ^ Z.of_nat 9) with (10 ^ 9). cbv zeta.
      destruct (Z.ltb_spec 0 (u / 10 ^ 9 / 60)) as [Hlt|Hle].
      + destruct (0 <? u / 10 ^ 9 / 60 / 60).
        * rewrite !fmtInt_app. cbn [append]. rewrite !app_assoc_s. reflexivity.
        * rewrite !fmtInt_app. cbn [append]. rewrite !app_assoc_s. reflexivity.
      + assert (H : (0 <? u / 10 ^ 9 / 60 / 60) = false).
        { apply Z.ltb_ge. pose proof (Z.div_le_mono _ _ 60 ltac:(lia) Hle) as H.
          rewrite Z.div_0_l in H by lia. exact H. }
        rewrite H, fmtInt_app. reflexivity. }
  destruct (d <? 0); cbn [append]; f_equal; exact Hbody.
Qed.

Lemma magnitude_range (d : Z) : 0 <= magnitude d < 2 ^ 64.
Proof.
  unfold magnitude, u64. destruct (d <? 0); apply Z.mod_pos_bound; lia.
Qed.

Lemma plain_formatAbs (u : Z) : 0 <= u < 2 ^ 64 -> plain (formatAbs u).
Proof.
  intros Hu. unfold formatAbs.
  assert (Hint : forall v, 0 <= v <= u -> plain (intOf v)).
  { intros v Hv. apply plain_intOf. lia. }
  assert (Hfrac : forall p, plain (fracOf u p)).
  { intros p. apply plain_fracOf. lia. }
  assert (Hs : plain "s") by (repeat constructor).
  assert (Hdiv : forall k, 0 < k -> 0 <= u / k <= u).
  { intros k Hk. split; [apply Z.div_pos; lia|].
    apply Z.div_le_upper_bound; nia. }
  destruct (u <? 10 ^ 9).
  - destruct (u =? 0); [repeat constructor|].
    destruct (u <? 10 ^ 3).
    + apply plain_app; [apply Hint; lia|repeat constructor].
    + destruct (u <? 10 ^ 6).
      * apply plain_app; [apply Hint, Hdiv; lia|].
        apply plain_app; [apply Hfrac|]. apply plain_micro, Hs.
      * apply plain_app; [apply Hint, Hdiv; lia|].
        apply plain_app; [apply Hfrac|]. repeat constructor.
  - cbv zeta.
    pose proof (Hdiv (10 ^ 9) ltac:(lia)) as H1.
    assert (H60 : forall w, 0 <= w <= u -> 0 <= w / 60 <= u).
    { intros w Hw. split; [apply Z.div_pos; lia|].
      apply Z.div_le_upper_bound; lia. }
    assert (Hm : forall w, 0 <= w <= u -> 0 <= w mod 60 <= u).
    { intros w Hw. pose proof (Z.mod_pos_bound w 60 ltac:(lia)).
      pose proof (Z.mod_le w 60 ltac:(lia) ltac:(lia)). lia. }
    apply plain_app.
    { destruct (0 <? _); [|constructor].
      apply plain_app; [apply Hint; auto|repeat constructor]. }
    apply plain_app.
    { destruct (0 <? _); [|constructor].
      apply plain_app; [apply Hint; auto|repeat constructor]. }
    apply plain_app; [apply Hint; auto|].
    apply plain_app; [apply Hfrac|exact Hs].
Qed.

Lemma plain_String (d : Z) : plain (time.String_ d).
Proof.
  unfold time.String_. rewrite format_decomp.
  apply plain_app.
  - destruct (d <? 0); repeat constructor.
  - apply plain_formatAbs, magnitude_range.
Qed.

Lemma MarshalJSON_String (d : Duration) :
  MarshalJSON d = (quoted (time.String_ (Duration_ d)), None).
Proof. unfold MarshalJSON. apply Marshal_string_plain, plain_String. Qed.

(** C3: whatever duration the value holds and however it was decoded,
    [MarshalJSON] returns no error and the quoted [Duration.String] text,
    byte for byte (nothing in it needs a JSON escape); the output starts
    with a double quote, so it is never the integer form.  Ninety minutes
    give ["1h30m0s"]. *)
Theorem MarshalJSON_canonical :
  (forall d : Duration,
      MarshalJSON d = (quoted (time.String_ (Duration_ d)), None)) /\
  (forall d : Duration, exists rest : string,
      fst (MarshalJSON d) = String dquote rest) /\
  MarshalJSON (mkDuration (90 * time.Minute)) = (quoted "1h30m0s", None).
Proof.
  split; [exact MarshalJSON_String|]. split.
  - intros d. rewrite MarshalJSON_String. eexists. reflexivity.
  - vm_compute. reflexivity.
Qed.

(** ** C1: an integer number of nanoseconds *)

(** C1, as stated, fails beyond the range of [time.Duration]: the integer
    2^63 is refused. *)
Lemma integer_input_counterexample :
  ~ (forall (n : Z) (d : Duration),
        0 <= n -> UnmarshalJSON d (decimal n) = (mkDuration n, None)).
Proof.
  intros H. specialize (H (2 ^ 63) (mkDuration 0) ltac:(lia)).
  vm_compute in H. discriminate H.
Qed.

(** C1, amended: for every integer [n] from 0 to 2^63 - 1, written as a JSON
    number, [UnmarshalJSON] succeeds with the duration of [n] nanoseconds,
    whatever the receiver held, and [MarshalJSON] of that value gives the
    quoted [Duration.String] of [n] nanoseconds; 1000000000 gives ["1s"] and
    300000000 gives ["300ms"]. *)
Theorem integer_input :
  forall (n : Z) (d : Duration),
    0 <= n < 2 ^ 63 ->
    UnmarshalJSON d (decimal n) = (mkDuration n, None) /\
    MarshalJSON (mkDuration n) = (quoted (time.String_ n), None).
Proof.
  intros n d Hn. split.
  - apply UnmarshalJSON_decimal. unfold is_int64. lia.
  - apply MarshalJSON_String.
Qed.

Lemma integer_input_witness :
  (decimal 1000000000 = "1000000000" /\ time.String_ 1000000000 = "1s") /\
  (decimal 300000000 = "300000000" /\ time.String_ 300000000 = "300ms") /\
  (UnmarshalJSON (mkDuration 7) (decimal 1000000000) = (mkDuration 1000000000, None) /\
   MarshalJSON (mkDuration 1000000000) = (quoted (time.String_ 1000000000), None)) /\
  (UnmarshalJSON (mkDuration 7) (decimal 300000000) = (mkDuration 300000000, None) /\
   MarshalJSON (mkDuration 300000000) = (quoted (time.String_ 300000000), None)).
Proof.
  split; [split; vm_compute; reflexivity|].
  split; [split; vm_compute; reflexivity|].
  split.
  - apply (integer_input 1000000000 (mkDuration 7)). lia.
  - apply (integer_input 300000000 (mkDuration 7)). lia.
Defined.


(** ** What time.ParseDuration accepts is a plain string *)

Lemma leadingInt_loop_split (s : string) (x v : Z) (rem : string) :
  time.leadingInt_loop s x = (v, rem, None) ->
  exists ds, s = ds ++ rem /\ allDigits ds = true.
Proof.
  revert x. induction s as [|c s IH]; intros x; cbn [time.leadingInt_loop].
  - intros H. injection H as _ <-. exists "". split; reflexivity.
  - destruct (isDigit c) eqn:Hc; cbn [negb].
    + destruct (2 ^ 63 / 10 <? x); [discriminate|]. cbv zeta.
      destruct (2 ^ 63 <? _); [discriminate|].
      intros H. apply IH in H as (ds & -> & Hd).
      exists (String c ds). split; [reflexivity|]. cbn. rewrite Hc. exact Hd.
    + intros H. injection H as _ <-. exists "". split; reflexivity.
Qed.

Lemma leadingFraction_loop_split (s : string) (x : Z) (scale : float64.t)
    (ov : bool) (f : Z) (sc : float64.t) (rem : string) :
  time.leadingFraction_loop s x scale ov = (f, sc, rem) ->
  exists ds, s = ds ++ rem /\ allDigits ds = true.
Proof.
  revert x scale ov. induction s as [|c s IH]; intros x scale ov;
    cbn [time.leadingFraction_loop].
  - intros H. injection H as _ _ <-. exists "". split; reflexivity.
  - destruct (isDigit c) eqn:Hc; cbn [negb].
    + intros H.
      assert (Hrec : exists x' scale' ov',
                 time.leadingFraction_loop s x' scale' ov' = (f, sc, rem)).
      { revert H. cbv zeta. repeat case_if; intros H; eauto. }
      destruct Hrec as (x' & scale' & ov' & Hrec).
      apply IH in Hrec as (ds & -> & Hd).
      exists (String c ds). split; [reflexivity|]. cbn. rewrite Hc. exact Hd.
    + intros H. injection H as _ _ <-. exists "". split; reflexivity.
Qed.

Lemma splitUnit_split (s u rest : string) :
  time.splitUnit s = (u, rest) -> s = u ++ rest.
Proof.
  revert u rest. induction s as [|c s IH]; intros u rest; cbn [time.splitUnit].
  - intros H. injection H as <- <-. reflexivity.
  - destruct (Ascii.eqb c "." || isDigit c).
    + intros H. injection H as <- <-. reflexivity.
    + destruct (time.splitUnit s) as [u' rest'] eqn:E.
      intros H. injection H as <- <-. cbn. f_equal. apply IH. reflexivity.
Qed.

Lemma unit_plain (u : string) (unit : Z) :
  time.lookup time.unitMap u = Some unit -> plain u.
Proof.
  unfold time.unitMap. cbn [time.lookup].
  repeat match goal with
         | |- context [String.eqb u ?k] =>
             destruct (String.eqb_spec u k) as [->|_];
             [intros _;
              first [ apply plain_micro; repeat constructor
                    | apply plain_mu; repeat constructor
                    | repeat constructor ] |]
         end.
  discriminate.
Qed.

Lemma unit_nonempty (u : string) (unit : Z) :
  time.lookup time.unitMap u = Some unit -> (1 <= String.length u)%nat.
Proof.
  destruct u; [discriminate|]. intros _. cbn. lia.
Qed.

Lemma ParseDuration_loop_unfold (fuel : nat) (orig : string) (c0 : ascii)
    (s0 : string) (d : Z) :
  time.ParseDuration_loop (S fuel) orig (String c0 s0) d =
  if negb (Ascii.eqb c0 "." || isDigit c0) then (0, Some (time.invalidDuration orig))
  else
    match time.leadingInt (String c0 s0) with
    | (_, _, Some _) => (0, Some (time.invalidDuration orig))
    | (v, s1, None) =>
        match fractionPart s1 with
        | (f, scale, s2, post) =>
            if negb (negb (len (String c0 s0) =? len s1)) && negb post
            then (0, Some (time.invalidDuration orig))
            else
              match time.splitUnit s2 with
              | (EmptyString, _) =>
                  (0, Some (errorString ("time: missing unit in duration " ++
                                         time.quote orig)))
              | (u, s3) =>
                  match time.lookup time.unitMap u with
                  | None =>
                      (0, Some (errorString ("time: unknown unit " ++ time.quote u ++
                                             " in duration " ++ time.quote orig)))
                  | Some unit =>
                      if 2 ^ 63 / unit <? v then (0, Some (time.invalidDuration orig))
                      else if (0 <? f) && (2 ^ 63 <? termValue v unit f scale)
                      then (0, Some (time.invalidDuration orig))
                      else if 2 ^ 63 <? u64 (d + termValue v unit f scale)
                      then (0, Some (time.invalidDuration orig))
                      else time.ParseDuration_loop fuel orig s3
                             (u64 (d + termValue v unit f scale))
                  end
              end
        end
    end.
Proof.
  cbn [time.ParseDuration_loop]. unfold fractionPart, termValue.
  destruct (negb _); [reflexivity|].
  destruct (time.leadingInt (String c0 s0)) as [[v s1] [e|]]; [reflexivity|].
  destruct s1 as [|c s1']; [reflexivity|].
  destruct (Ascii.eqb c "."); [|reflexivity].
  destruct (time.leadingFraction s1') as [[f scale] s2]. reflexivity.
Qed.

Lemma fractionPart_split (s1 s2 : string) (f : Z) (scale : float64.t) (post : bool) :
  fractionPart s1 = (f, scale, s2, post) ->
  exists fr, s1 = fr ++ s2 /\ plain fr.
Proof.
  unfold fractionPart. destruct s1 as [|c s1'].
  - intros E. injection E as _ _ <- _. exists "". split; [reflexivity|constructor].
  - destruct (Ascii.eqb_spec c ".") as [->|_].
    + unfold time.leadingFraction.
      destruct (time.leadingFraction_loop s1' 0 _ false) as [[f' sc'] s2'] eqn:E3.
      intros E. injection E as _ _ <- _.
      apply leadingFraction_loop_split in E3 as (fs & -> & Hfs).
      exists (String "." fs). split; [reflexivity|].
      constructor; [reflexivity|apply plain_digits, Hfs].
    + intros E. injection E as _ _ <- _. exists "". split; [reflexivity|constructor].
Qed.

Lemma ParseDuration_loop_plain (fuel : nat) (orig s : string) (d v : Z) :
  (String.length s <= fuel)%nat ->
  time.ParseDuration_loop fuel orig s d = (v, None) -> plain s.
Proof.
  revert s d. induction fuel as [|fuel IH]; intros s d Hfuel.
  - destruct s; [constructor|cbn in Hfuel; lia].
  - destruct s as [|c0 s0]; [constructor|].
    rewrite ParseDuration_loop_unfold.
    destruct (negb _); [discriminate|].
    unfold time.leadingInt.
    destruct (time.leadingInt_loop (String c0 s0) 0) as [[v1 s1] [e|]] eqn:E1;
      [discriminate|].
    apply leadingInt_loop_split in E1 as (ds & Hs & Hds).
    destruct (fractionPart s1) as [[[f scale] s2] post] eqn:E2.
    apply fractionPart_split in E2 as (fr & Hs1 & Hfr).
    destruct (negb _ && negb post); [discriminate|].
    destruct (time.splitUnit s2) as [u s3] eqn:E4.
    apply splitUnit_split in E4.
    destruct u as [|cu u']; [discriminate|].
    destruct (time.lookup time.unitMap (String cu u')) as [unit|] eqn:E5; [|discriminate].
    destruct (2 ^ 63 / unit <? v1); [discriminate|].
    destruct (_ && _); [discriminate|].
    destruct (2 ^ 63 <? _); [discriminate|].
    intros Hrec.
    assert (Hlen : (String.length s3 <= fuel)%nat).
    { assert (Hl : String.length (String c0 s0) =
                   (String.length ds + (String.length fr +
                      (String.length (String cu u') + String.length s3)))%nat).
      { rewrite Hs, Hs1, E4, !length_app_s. reflexivity. }
      cbn [String.length] in Hl, Hfuel. lia. }
    apply IH in Hrec; [|exact Hlen].
    rewrite Hs, Hs1, E4.
    apply plain_app; [apply plain_digits, Hds|].
    apply plain_app; [exact Hfr|].
    apply plain_app; [apply (unit_plain _ _ E5)|exact Hrec].
Qed.

Lemma ParseDuration_plain (s : string) (v : Z) :
  time.ParseDuration s = (v, None) -> plain s.
Proof.
  unfold time.ParseDuration.
  assert (Hbody : forall s' : string,
    (if String.eqb s' "0" then (0, @None error)
     else if String.eqb s' "" then (0, Some (time.invalidDuration s))
     else let '(d, err) := time.ParseDuration_loop (String.length s') s s' 0 in
          match err with
          | Some e => (0, Some e)
          | None => (0, @None error)
          end) = (0, None) -> plain s').
  { intros s'. destruct (String.eqb_spec s' "0") as [->|_]; [repeat constructor|].
    destruct (String.eqb s' ""); [discriminate|].
    destruct (time.ParseDuration_loop _ s s' 0) as [d [e|]] eqn:E; [discriminate|].
    intros _. eapply ParseDuration_loop_plain; [|exact E]. lia. }
  destruct s as [|c s'].
  - intros _. constructor.
  - destruct (Ascii.eqb c "-" || Ascii.eqb c "+") eqn:Hsign.
    + intros H. constructor.
      * apply orb_true_iff in Hsign. rewrite !Ascii.eqb_eq in Hsign.
        destruct Hsign as [-> | ->]; reflexivity.
      * apply Hbody. revert H.
        destruct (String.eqb s' "0"); [reflexivity|].
        destruct (String.eqb s' ""); [discriminate|].
        destruct (time.ParseDuration_loop _ _ s' 0) as [d [e|]]; [discriminate|reflexivity].
    + intros H. apply Hbody. revert H.
      destruct (String.eqb (String c s') "0"); [reflexivity|].
      destruct (String.eqb (String c s') ""); [discriminate|].
      destruct (time.ParseDuration_loop _ _ (String c s') 0) as [d [e|]];
        [discriminate|reflexivity].
Qed.

(** ** C2: a duration string *)

Lemma UnmarshalJSON_duration_string (s : string) (v : Z) (d : Duration) :
  time.ParseDuration s = (v, None) ->
  UnmarshalJSON d (quoted s) = (mkDuration v, None).
Proof.
  intros H. rewrite UnmarshalJSON_quoted by (eapply ParseDuration_plain, H).
  rewrite H. reflexivity.
Qed.




(** ** C8: negative durations *)

Lemma ParseDuration_loop_orig (fuel : nat) (orig orig' s : string) (d v : Z) :
  time.ParseDuration_loop fuel orig s d = (v, None) ->
  time.ParseDuration_loop fuel orig' s d = (v, None).
Proof.
  revert s d. induction fuel as [|fuel IH]; intros s d.
  - destruct s; exact (fun H => H).
  - destruct s as [|c0 s0]; [exact (fun H => H)|].
    rewrite !ParseDuration_loop_unfold.
    destruct (negb _); [discriminate|].
    destruct (time.leadingInt (String c0 s0)) as [[v1 s1] [e|]]; [discriminate|].
    destruct (fractionPart s1) as [[[f scale] s2] post].
    destruct (negb _ && negb post); [discriminate|].
    destruct (time.splitUnit s2) as [u s3].
    destruct u as [|cu u']; [discriminate|].
    destruct (time.lookup time.unitMap (String cu u')) as [unit|]; [|discriminate].
    destruct (2 ^ 63 / unit <? v1); [discriminate|].
    destruct (_ && _); [discriminate|].
    destruct (2 ^ 63 <? _); [discriminate|].
    apply IH.
Qed.

Lemma ParseDuration_loop_nonneg (fuel : nat) (orig s : string) (d v : Z) :
  0 <= d -> time.ParseDuration_loop fuel orig s d = (v, None) -> 0 <= v.
Proof.
  revert s d. induction fuel as [|fuel IH]; intros s d Hd.
  - destruct s; intros H; injection H as <-; exact Hd.
  - destruct s as [|c0 s0]; [intros H; injection H as <-; exact Hd|].
    rewrite !ParseDuration_loop_unfold.
    destruct (negb _); [discriminate|].
    destruct (time.leadingInt (String c0 s0)) as [[v1 s1] [e|]]; [discriminate|].
    destruct (fractionPart s1) as [[[f scale] s2] post].
    destruct (negb _ && negb post); [discriminate|].
    destruct (time.splitUnit s2) as [u s3].
    destruct u as [|cu u']; [discriminate|].
    destruct (time.lookup time.unitMap (String cu u')) as [unit|]; [|discriminate].
    destruct (2 ^ 63 / unit <? v1); [discriminate|].
    destruct (_ && _); [discriminate|].
    destruct (2 ^ 63 <? _); [discriminate|].
    apply IH. unfold u64. apply Z.mod_pos_bound. lia.
Qed.

(** The sign in front of a duration string negates its value. *)
Lemma ParseDuration_minus (s : string) (v : Z) :
  unsigned s = true -> time.ParseDuration s = (v, None) ->
  time.ParseDuration (String "-" s) = (- v, None).
Proof.
  intros Hu. unfold time.ParseDuration at 2. cbn [Ascii.eqb Bool.eqb orb].
  cbv iota beta.
  unfold time.ParseDuration.
  assert (Hs : (let '(neg, s0) :=
                  match s with
                  | "" => (false, s)
                  | String c s' =>
                      if Ascii.eqb c "-" || Ascii.eqb c "+"
                      then (Ascii.eqb c "-", s') else (false, s)
                  end in (neg, s0)) = (false, s)).
  { destruct s as [|c s']; [reflexivity|]. cbn in Hu.
    apply negb_true_iff in Hu. rewrite Hu. reflexivity. }
  destruct (match s with "" => (false, s) | String c s' => _ end) as [neg s0].
  injection Hs as -> ->.
  destruct (String.eqb s "0").
  - intros H. injection H as <-. reflexivity.
  - destruct (String.eqb s ""); [discriminate|].
    destruct (time.ParseDuration_loop _ s s 0) as [d [e|]] eqn:E; [discriminate|].
    rewrite (ParseDuration_loop_orig _ s (String "-" s) s 0 d E).
    assert (Hd : 0 <= d) by (eapply ParseDuration_loop_nonneg; [|exact E]; lia).
    destruct (Z.ltb_spec (2 ^ 63 - 1) d) as [|Hle]; [discriminate|].
    intros Hv. injection Hv as <-.
    rewrite i64_opp_i64, (i64_small d), (i64_small (- d)) by (unfold is_int64; lia).
    reflexivity.
Qed.



(** ** C5: malformed input *)



Lemma DecodeRune_ascii (c : ascii) (s : string) :
  code c < 128 -> utf8.DecodeRune (String c s) = (code c, 1).
Proof.
  intros Hc. pose proof (code_range c). unfold utf8.DecodeRune, utf8.first.
  replace (code c <=? 0x7F) with true by (symmetry; apply Z.leb_le; lia).
  reflexivity.
Qed.

Lemma quote_loop_printable (s : string) (fuel : nat) :
  printable s = true -> (String.length s <= fuel)%nat -> time.quote_loop fuel s = s.
Proof.
  revert fuel. induction s as [|c s IH]; intros fuel Hp Hfuel.
  - destruct fuel; reflexivity.
  - destruct fuel as [|fuel]; [cbn in Hfuel; lia|].
    cbn [printable] in Hp. rewrite !andb_true_iff, !negb_true_iff in Hp.
    destruct Hp as [[[[H1 H2] H3] H4] Hs].
    apply Z.leb_le in H1. apply Z.ltb_lt in H2.
    cbn [time.quote_loop]. rewrite DecodeRune_ascii by lia.
    assert (Hcond : (time.runeSelf <=? code c) || (code c <? 32) = false)
      by (unfold time.runeSelf; zbool; reflexivity).
    rewrite H3, H4, Hcond. cbn [orb].
    change (drop (Z.to_nat 1) (String c s)) with s.
    rewrite IH by (assumption || (cbn in Hfuel; lia)). reflexivity.
Qed.

Lemma quote_printable (s : string) : printable s = true -> time.quote s = quoted s.
Proof.
  intros Hp. unfold time.quote, quoted.
  rewrite quote_loop_printable by (assumption || lia). reflexivity.
Qed.






(** ** binary64 arithmetic on small integers is exact *)

Lemma digits2_log2 (p : positive) : Zpos (digits2_pos p) = Z.log2 (Zpos p) + 1.
Proof.
  induction p as [p IH|p IH|]; cbn [digits2_pos]; [| |reflexivity].
  - rewrite Pos2Z.inj_succ, IH.
    change (Z.log2 (Zpos p~1)) with (Zpos (Pos.size p)).
    clear IH. induction p; cbn [Pos.size]; rewrite ?Pos2Z.inj_succ; try lia; reflexivity.
  - rewrite Pos2Z.inj_succ, IH.
    change (Z.log2 (Zpos p~0)) with (Zpos (Pos.size p)).
    clear IH. induction p; cbn [Pos.size]; rewrite ?Pos2Z.inj_succ; try lia; reflexivity.
Qed.

Lemma shr_1_double (q : Z) :
  0 < q ->
  shr_1 (Build_shr_record (q * 2) false false) = Build_shr_record q false false.
Proof.
  intros Hq. destruct q as [|p|p]; try lia. 
  rewrite Z.mul_comm. reflexivity.
Qed.

Lemma iter_pos_shr_1 (n : positive) (q : Z) :
  0 < q ->
  iter_pos shr_1 n (Build_shr_record (q * 2 ^ Zpos n) false false) =
  Build_shr_record q false false.
Proof.
  revert q. induction n as [n IH|n IH|]; intros q Hq; cbn [iter_pos].
  - replace (q * 2 ^ Zpos n~1) with (q * 2 ^ Zpos n * 2 ^ Zpos n * 2).
    + rewrite shr_1_double by (apply Z.mul_pos_pos; [apply Z.mul_pos_pos|]; lia).
      rewrite IH by (apply Z.mul_pos_pos; lia). apply IH, Hq.
    + rewrite (Pos2Z.inj_xI n), Z.pow_add_r, Z.pow_twice_r by lia.
      change (2 ^ 1) with 2. ring.
  - replace (q * 2 ^ Zpos n~0) with (q * 2 ^ Zpos n * 2 ^ Zpos n).
    + rewrite IH by (apply Z.mul_pos_pos; lia). apply IH, Hq.
    + rewrite (Pos2Z.inj_xO n), Z.pow_twice_r. ring.
  - apply shr_1_double, Hq.
Qed.

(** Shifting out [n] zero bits loses nothing. *)
Lemma shr_fexp_exact (M E n Q : Z) :
  0 < Q -> 0 <= n -> M = Q * 2 ^ n ->
  fexp float64.prec float64.emax (Zdigits2 M + E) - E = n ->
  shr_fexp float64.prec float64.emax M E loc_Exact =
  (Build_shr_record Q false false, E + n).
Proof.
  intros HQ Hn HM Hf. unfold shr_fexp. rewrite Hf. cbn [shr_record_of_loc].
  unfold shr. destruct n as [|p|p]; try lia.
  - rewrite Z.pow_0_r, Z.mul_1_r in HM. subst M. rewrite Z.add_0_r. reflexivity.
  - subst M. rewrite iter_pos_shr_1 by assumption. reflexivity.
Qed.

Lemma Zdigits2_log2 (M : Z) : 0 < M -> Zdigits2 M = Z.log2 M + 1.
Proof.
  destruct M as [|p|p]; try lia. intros _. apply digits2_log2.
Qed.

(** A 53-bit mantissa with an exponent in range is already rounded. *)
Lemma binary_round_aux_canonical (s : bool) (m : positive) (e : Z) :
  Z.log2 (Zpos m) = 52 -> -1074 <= e <= 971 ->
  binary_round_aux float64.prec float64.emax s (Zpos m) e loc_Exact =
  S754_finite s m e.
Proof.
  intros Hm He. unfold binary_round_aux.
  assert (Hshr : shr_fexp float64.prec float64.emax (Zpos m) e loc_Exact =
                 (Build_shr_record (Zpos m) false false, e + 0)).
  { apply shr_fexp_exact; try lia.
    rewrite Zdigits2_log2, Hm by lia.
    unfold fexp, emin, float64.prec, float64.emax. lia. }
  rewrite Z.add_0_r in Hshr. rewrite Hshr.
  cbn [shr_m loc_of_shr_record round_nearest_even]. rewrite Hshr. cbn [shr_m].
  unfold float64.emax, float64.prec.
  replace (e <=? 1024 - 53) with true by (symmetry; apply Z.leb_le; lia).
  reflexivity.
Qed.

Lemma log2_shift (q : Z) (k : Z) :
  0 < q -> 0 <= k -> Z.log2 (q * 2 ^ k) = Z.log2 q + k.
Proof.
  intros Hq Hk. rewrite <- Z.shiftl_mul_pow2 by lia. apply Z.log2_shiftl; lia.
Qed.

Lemma log2_lt_53 (q : Z) : 0 < q < 2 ^ 53 -> 0 <= Z.log2 q <= 52.
Proof.
  intros Hq. split; [apply Z.log2_nonneg|].
  assert (Z.log2 q < 53); [|lia]. apply Z.log2_lt_pow2; lia.
Qed.

Lemma float64_of_pos_mantissa (q : positive) :
  Zpos q < 2 ^ 53 ->
  Zpos (Z.to_pos (Zpos q * 2 ^ (52 - Z.log2 (Zpos q)))) =
    Zpos q * 2 ^ (52 - Z.log2 (Zpos q)) /\
  Z.log2 (Zpos q * 2 ^ (52 - Z.log2 (Zpos q))) = 52.
Proof.
  intros Hq. pose proof (log2_lt_53 (Zpos q) ltac:(lia)) as Hl.
  assert (0 < 2 ^ (52 - Z.log2 (Zpos q))) by (apply Z.pow_pos_nonneg; lia).
  split.
  - apply Z2Pos.id. lia.
  - rewrite log2_shift by lia. lia.
Qed.

(** [float64(q)] for a positive integer below 2^53. *)
Lemma of_uint64_pos (q : positive) :
  Zpos q < 2 ^ 53 -> float64.of_uint64 (Zpos q) = float64_of_pos q.
Proof.
  intros Hq. pose proof (log2_lt_53 (Zpos q) ltac:(lia)) as Hl.
  destruct (float64_of_pos_mantissa q Hq) as [Hm Hlog].
  unfold float64.of_uint64, binary_normalize, binary_round, float64_of_pos.
  rewrite Z.add_0_r, digits2_log2.
  assert (Hfexp : fexp float64.prec float64.emax (Z.log2 (Zpos q) + 1) =
                  Z.log2 (Zpos q) - 52).
  { unfold fexp, emin, float64.prec, float64.emax. lia. }
  rewrite Hfexp. unfold shl_align. rewrite Z.sub_0_r.
  destruct (Z.log2 (Zpos q) - 52) as [|p|p] eqn:Hd; try lia.
  - assert (Hl52 : Z.log2 (Zpos q) = 52) by lia.
    rewrite Hl52 in *. rewrite Z.sub_diag, Z.pow_0_r, Z.mul_1_r in *.
    cbn [Z.to_pos]. apply binary_round_aux_canonical; [assumption|lia].
  - assert (Hiter : Pos.iter xO q p = Z.to_pos (Zpos q * 2 ^ (52 - Z.log2 (Zpos q)))).
    { apply Pos2Z.inj. rewrite Hm.
      replace (52 - Z.log2 (Zpos q)) with (Zpos p) by lia.
      clear. induction p using Pos.peano_ind.
      - cbn. lia.
      - rewrite Pos.iter_succ, (Pos2Z.inj_xO (Pos.iter xO q p)), IHp, Pos2Z.inj_succ, Z.pow_succ_r by lia.
        ring. }
    rewrite Hiter. apply binary_round_aux_canonical.
    + rewrite Hm. exact Hlog.
    + lia.
Qed.

Lemma to_uint64_of_pos (q : positive) :
  Zpos q < 2 ^ 53 -> float64.to_uint64 (float64_of_pos q) = Zpos q.
Proof.
  intros Hq. pose proof (log2_lt_53 (Zpos q) ltac:(lia)) as Hl.
  destruct (float64_of_pos_mantissa q Hq) as [Hm Hlog].
  unfold float64.to_uint64, float64_of_pos. rewrite Hm.
  assert (Hv : (if 0 <=? Z.log2 (Zpos q) - 52
                then Z.shiftl (Zpos q * 2 ^ (52 - Z.log2 (Zpos q))) (Z.log2 (Zpos q) - 52)
                else Z.shiftr (Zpos q * 2 ^ (52 - Z.log2 (Zpos q)))
                       (- (Z.log2 (Zpos q) - 52))) = Zpos q).
  { destruct (Z.leb_spec 0 (Z.log2 (Zpos q) - 52)).
    - replace (Z.log2 (Zpos q) - 52) with 0 by lia.
      replace (52 - Z.log2 (Zpos q)) with 0 by lia.
      rewrite Z.shiftl_0_r. lia.
    - rewrite Z.shiftr_div_pow2 by lia.
      replace (- (Z.log2 (Zpos q) - 52)) with (52 - Z.log2 (Zpos q)) by lia.
      apply Z.div_mul. apply Z.pow_nonzero; lia. }
  rewrite Hv. destruct (Z.ltb_spec (Zpos q) (2 ^ 64)); [reflexivity|lia].
Qed.

(** Rounding a 53-bit mantissa followed by [n] zero bits drops the zeros. *)
Lemma binary_round_aux_shift (s : bool) (q : positive) (n E : Z) :
  Z.log2 (Zpos q) = 52 -> 0 <= n -> -1074 <= E + n <= 971 ->
  binary_round_aux float64.prec float64.emax s (Zpos q * 2 ^ n) E loc_Exact =
  S754_finite s q (E + n).
Proof.
  intros Hq Hn HE. unfold binary_round_aux.
  assert (Hpow : 0 < 2 ^ n) by (apply Z.pow_pos_nonneg; lia).
  rewrite (shr_fexp_exact (Zpos q * 2 ^ n) E n (Zpos q)); try lia.
  2:{ rewrite Zdigits2_log2 by lia. rewrite log2_shift, Hq by lia.
      unfold fexp, emin, float64.prec, float64.emax. lia. }
  cbn [shr_m loc_of_shr_record round_nearest_even].
  rewrite (shr_fexp_exact (Zpos q) (E + n) 0 (Zpos q)); try lia.
  2:{ rewrite Zdigits2_log2, Hq by lia.
      unfold fexp, emin, float64.prec, float64.emax. lia. }
  cbn [shr_m]. rewrite Z.add_0_r.
  unfold float64.emax, float64.prec.
  replace (E + n <=? 1024 - 53) with true by (symmetry; apply Z.leb_le; lia).
  reflexivity.
Qed.

(** The product of two integers is exact when it is below 2^53. *)
Lemma mul_of_pos (a b : positive) :
  Zpos (a * b) < 2 ^ 53 ->
  float64.mul (float64_of_pos a) (float64_of_pos b) = float64_of_pos (a * b).
Proof.
  intros Hab.
  assert (Ha : Zpos a < 2 ^ 53) by nia.
  assert (Hb : Zpos b < 2 ^ 53) by nia.
  pose proof (log2_lt_53 (Zpos a) ltac:(lia)) as Hla.
  pose proof (log2_lt_53 (Zpos b) ltac:(lia)) as Hlb.
  pose proof (log2_lt_53 (Zpos (a * b)) ltac:(lia)) as Hlab.
  pose proof (Z.log2_mul_below (Zpos a) (Zpos b) ltac:(lia) ltac:(lia)) as Hbelow.
  rewrite <- Pos2Z.inj_mul in Hbelow.
  destruct (float64_of_pos_mantissa a Ha) as [Hma _].
  destruct (float64_of_pos_mantissa b Hb) as [Hmb _].
  destruct (float64_of_pos_mantissa (a * b) Hab) as [Hmab Hlog].
  unfold float64.mul, SFmul, float64_of_pos. cbn [xorb].
  set (la := Z.log2 (Zpos a)) in *. set (lb := Z.log2 (Zpos b)) in *.
  set (lab := Z.log2 (Zpos (a * b))) in *.
  set (qab := Z.to_pos (Zpos (a * b) * 2 ^ (52 - lab))) in *.
  assert (HM : Zpos (Z.to_pos (Zpos a * 2 ^ (52 - la)) * Z.to_pos (Zpos b * 2 ^ (52 - lb))) =
               Zpos qab * 2 ^ (lab + 52 - la - lb)).
  { rewrite Pos2Z.inj_mul, Hma, Hmb, Hmab.
    replace (Zpos (a * b) * 2 ^ (52 - lab) * 2 ^ (lab + 52 - la - lb))
      with (Zpos (a * b) * (2 ^ (52 - lab) * 2 ^ (lab + 52 - la - lb))) by ring.
    rewrite <- Z.pow_add_r by lia.
    replace (52 - lab + (lab + 52 - la - lb)) with ((52 - la) + (52 - lb)) by lia.
    rewrite Z.pow_add_r by lia. rewrite Pos2Z.inj_mul. ring. }
  rewrite HM.
  rewrite binary_round_aux_shift; try lia.
  - f_equal. lia.
  - rewrite Hmab. exact Hlog.
Qed.

(** ** time.ParseDuration reads back what Duration.String writes *)

Lemma leadingInt_loop_stop (s : string) (x : Z) :
  noDigitHead s = true -> time.leadingInt_loop s x = (x, s, None).
Proof.
  destruct s as [|c s]; [reflexivity|]. cbn [noDigitHead time.leadingInt_loop].
  intros ->. reflexivity.
Qed.

Lemma leadingInt_loop_digits (ds rem : string) (x : Z) :
  allDigits ds = true -> noDigitHead rem = true ->
  0 <= x -> digitsValue ds x <= 2 ^ 63 ->
  time.leadingInt_loop (ds ++ rem) x = (digitsValue ds x, rem, None).
Proof.
  intros Hd Hrem. revert x. induction ds as [|c ds IH]; intros x Hx Hmax.
  - apply leadingInt_loop_stop, Hrem.
  - cbn [allDigits] in Hd. apply andb_true_iff in Hd as [Hc Hds].
    cbn [append time.leadingInt_loop digitsValue] in *. rewrite Hc. cbn [negb].
    pose proof (proj1 (isDigit_range c) Hc) as Hr.
    pose proof (digitsValue_ge ds (x * 10 + (code c - 48)) Hds ltac:(lia)) as Hge.
    change (2 ^ 63 / 10) with 922337203685477580.
    destruct (Z.ltb_spec 922337203685477580 x); [lia|]. cbv zeta.
    replace (x * 10 + code c - 48) with (x * 10 + (code c - 48)) by lia.
    rewrite u64_small by lia.
    destruct (Z.ltb_spec (2 ^ 63) (x * 10 + (code c - 48))); [lia|].
    apply IH; [assumption|lia|assumption].
Qed.

Lemma leadingFraction_loop_digits (ds rem : string) (x : Z) (scale : float64.t) :
  allDigits ds = true -> noDigitHead rem = true ->
  0 <= x -> digitsValue ds x <= 2 ^ 63 - 1 ->
  time.leadingFraction_loop (ds ++ rem) x scale false =
  (digitsValue ds x, scaleBy (String.length ds) scale, rem).
Proof.
  intros Hd Hrem. revert x scale. induction ds as [|c ds IH]; intros x scale Hx Hmax.
  - cbn [append digitsValue String.length scaleBy].
    destruct rem as [|c rem]; [reflexivity|].
    cbn [noDigitHead] in Hrem. cbn [time.leadingFraction_loop]. rewrite Hrem.
    reflexivity.
  - cbn [allDigits] in Hd. apply andb_true_iff in Hd as [Hc Hds].
    cbn [append time.leadingFraction_loop digitsValue String.length scaleBy] in *.
    rewrite Hc. cbn [negb].
    pose proof (proj1 (isDigit_range c) Hc) as Hr.
    pose proof (digitsValue_ge ds (x * 10 + (code c - 48)) Hds ltac:(lia)) as Hge.
    change ((2 ^ 63 - 1) / 10) with 922337203685477580.
    destruct (Z.ltb_spec 922337203685477580 x); [lia|]. cbv zeta.
    replace (x * 10 + code c - 48) with (x * 10 + (code c - 48)) by lia.
    rewrite u64_small by lia.
    destruct (Z.ltb_spec (2 ^ 63) (x * 10 + (code c - 48))); [lia|].
    apply IH; [assumption|lia|assumption].
Qed.

Lemma splitUnit_app (u rest : string) :
  allBytes unitByte u = true -> numberHead rest = true ->
  time.splitUnit (u ++ rest) = (u, rest).
Proof.
  intros Hu Hrest. induction u as [|c u IH].
  - cbn [append]. destruct rest as [|c rest]; [reflexivity|].
    cbn [numberHead] in Hrest. cbn [time.splitUnit]. rewrite Hrest. reflexivity.
  - cbn [allBytes] in Hu. apply andb_true_iff in Hu as [Hc Hu].
    unfold unitByte in Hc. apply negb_true_iff in Hc.
    cbn [append time.splitUnit]. rewrite Hc, (IH Hu). reflexivity.
Qed.

Lemma scaleBy_pow10 (k : nat) :
  (k <= 9)%nat ->
  scaleBy k (float64.of_uint64 1) = float64.of_uint64 (10 ^ Z.of_nat k).
Proof.
  intros Hk.
  do 10 (destruct k as [|k]; [vm_compute; reflexivity|]). lia.
Qed.

Lemma div_pow10 (p k : nat) :
  p = 3%nat \/ p = 6%nat \/ p = 9%nat -> (1 <= k <= p)%nat ->
  float64.div (float64.of_uint64 (10 ^ Z.of_nat p))
              (float64.of_uint64 (10 ^ Z.of_nat k)) =
  float64.of_uint64 (10 ^ Z.of_nat (p - k)).
Proof.
  intros [-> | [-> | ->]] Hk;
    do 10 (destruct k as [|k]; [first [lia | vm_compute; reflexivity]|]); lia.
Qed.

(** The nanoseconds of the fraction [f / 10^k] of a unit of [10^p]
    nanoseconds, as [ParseDuration] computes them in binary64. *)
Lemma fraction_exact (p k : nat) (f : Z) :
  p = 3%nat \/ p = 6%nat \/ p = 9%nat -> (1 <= k <= p)%nat ->
  0 < f < 10 ^ Z.of_nat k ->
  float64.to_uint64
    (float64.mul (float64.of_uint64 f)
       (float64.div (float64.of_uint64 (10 ^ Z.of_nat p))
                    (scaleBy k (float64.of_uint64 1)))) =
  f * 10 ^ Z.of_nat (p - k).
Proof.
  intros Hp Hk Hf.
  rewrite scaleBy_pow10 by (destruct Hp as [-> | [-> | ->]]; lia).
  rewrite div_pow10 by assumption.
  assert (Hc : 0 < 10 ^ Z.of_nat (p - k)) by (apply Z.pow_pos_nonneg; lia).
  assert (Hprod : f * 10 ^ Z.of_nat (p - k) < 10 ^ 9).
  { assert (H1 : f * 10 ^ Z.of_nat (p - k) < 10 ^ Z.of_nat k * 10 ^ Z.of_nat (p - k)) by nia.
    rewrite <- Z.pow_add_r in H1 by lia.
    replace (Z.of_nat k + Z.of_nat (p - k)) with (Z.of_nat p) in H1 by lia.
    assert (H2 : 10 ^ Z.of_nat p <= 10 ^ 9).
    { apply Z.pow_le_mono_r; [lia|]. destruct Hp as [-> | [-> | ->]]; lia. }
    lia. }
  destruct f as [|a|a]; try lia.
  destruct (10 ^ Z.of_nat (p - k)) as [|b|b] eqn:Hb; try lia.
  assert (Hab : Zpos (a * b) < 2 ^ 53) by (rewrite Pos2Z.inj_mul; lia).
  rewrite !of_uint64_pos by nia.
  rewrite mul_of_pos, to_uint64_of_pos by assumption.
  apply Pos2Z.inj_mul.
Qed.

(** Any fuel from the length of the string on gives the same result. *)
Lemma ParseDuration_loop_fuel (fuel fuel' : nat) (orig s : string) (d : Z) :
  (String.length s <= fuel)%nat -> (String.length s <= fuel')%nat ->
  time.ParseDuration_loop fuel orig s d = time.ParseDuration_loop fuel' orig s d.
Proof.
  revert fuel' s d. induction fuel as [|fuel IH]; intros fuel' s d H1 H2.
  - destruct s; [destruct fuel'; reflexivity|cbn in H1; lia].
  - destruct s as [|c0 s0]; [destruct fuel'; reflexivity|].
    destruct fuel' as [|fuel']; [cbn in H2; lia|].
    rewrite !ParseDuration_loop_unfold.
    destruct (negb _); [reflexivity|].
    unfold time.leadingInt.
    destruct (time.leadingInt_loop (String c0 s0) 0) as [[v1 s1] [e|]] eqn:E1;
      [reflexivity|].
    apply leadingInt_loop_split in E1 as (ds & Hs & Hds).
    destruct (fractionPart s1) as [[[f scale] s2] post] eqn:E2.
    apply fractionPart_split in E2 as (fr & Hs1 & Hfr).
    destruct (negb _ && negb post); [reflexivity|].
    destruct (time.splitUnit s2) as [u s3] eqn:E4.
    apply splitUnit_split in E4.
    destruct u as [|cu u']; [reflexivity|].
    destruct (time.lookup time.unitMap (String cu u')) as [unit|]; [|reflexivity].
    destruct (2 ^ 63 / unit <? v1); [reflexivity|].
    destruct (_ && _); [reflexivity|].
    destruct (2 ^ 63 <? _); [reflexivity|].
    assert (Hl : String.length (String c0 s0) =
                 (String.length ds + (String.length fr +
                    (String.length (String cu u') + String.length s3)))%nat).
    { rewrite Hs, Hs1, E4, !length_app_s. reflexivity. }
    cbn [String.length] in Hl, H1, H2.
    apply IH; lia.
Qed.

Lemma unit_positive (u : string) (unit : Z) :
  time.lookup time.unitMap u = Some unit -> 1 <= unit <= 3600000000000.
Proof.
  unfold time.unitMap. cbn [time.lookup].
  repeat match goal with
         | |- context [String.eqb u ?k] =>
             destruct (String.eqb u k);
             [intros H; injection H as <-; vm_compute; split; discriminate|]
         end.
  discriminate.
Qed.

Lemma someDigits_head (ip : string) :
  someDigits ip = true ->
  exists c ds, ip = String c ds /\ isDigit c = true /\ allDigits ip = true.
Proof.
  intros H. pose proof (someDigits_allDigits ip H) as Hall.
  apply someDigits_inv in H as (c & ds & -> & Hc & _). eauto.
Qed.

Lemma noDigitHead_unit (u rest : string) :
  allBytes unitByte u = true -> u <> "" -> noDigitHead (u ++ rest) = true.
Proof.
  destruct u as [|c u]; [congruence|]. cbn [allBytes append noDigitHead].
  intros H _. apply andb_true_iff in H as [Hc _]. unfold unitByte in Hc.
  apply negb_true_iff, orb_false_iff in Hc as [_ Hc]. rewrite Hc. reflexivity.
Qed.

(** A round of the loop that goes through. *)
Lemma ParseDuration_loop_round (fuel : nat) (orig : string) (c0 : ascii)
    (s0 : string) (d v : Z) (s1 : string) (f : Z) (scale : float64.t)
    (s2 : string) (post : bool) (u s3 : string) (unit : Z) :
  Ascii.eqb c0 "." || isDigit c0 = true ->
  time.leadingInt (String c0 s0) = (v, s1, None) ->
  fractionPart s1 = (f, scale, s2, post) ->
  negb (negb (len (String c0 s0) =? len s1)) && negb post = false ->
  time.splitUnit s2 = (u, s3) ->
  time.lookup time.unitMap u = Some unit ->
  (2 ^ 63 / unit <? v) = false ->
  (0 <? f) && (2 ^ 63 <? termValue v unit f scale) = false ->
  (2 ^ 63 <? u64 (d + termValue v unit f scale)) = false ->
  time.ParseDuration_loop (S fuel) orig (String c0 s0) d =
  time.ParseDuration_loop fuel orig s3 (u64 (d + termValue v unit f scale)).
Proof.
  intros H0 H1 H2 H3 H4 H5 H6 H7 H8.
  rewrite ParseDuration_loop_unfold, H0, H1, H2, H3, H4. cbn [negb].
  destruct u as [|cu u']; [discriminate|].
  rewrite H5, H6, H7, H8. reflexivity.
Qed.

(** One round of the loop on a term without fraction. *)
Lemma ParseDuration_loop_term (fuel : nat) (orig ip uname rest : string)
    (unit d : Z) :
  someDigits ip = true ->
  allBytes unitByte uname = true ->
  time.lookup time.unitMap uname = Some unit ->
  numberHead rest = true ->
  (String.length (ip ++ uname ++ rest) <= fuel)%nat ->
  digitsValue ip 0 <= 2 ^ 63 / unit ->
  0 <= d -> d + digitsValue ip 0 * unit <= 2 ^ 63 ->
  time.ParseDuration_loop fuel orig (ip ++ uname ++ rest) d =
  time.ParseDuration_loop (String.length rest) orig rest
    (d + digitsValue ip 0 * unit).
Proof.
  intros Hip Hun Hunit Hrest Hfuel Hv Hd Hsum.
  pose proof (unit_positive _ _ Hunit) as Hu.
  pose proof (unit_nonempty _ _ Hunit) as Hne.
  assert (Hune : uname <> "") by (destruct uname; [cbn in Hne; lia|discriminate]).
  destruct (someDigits_head ip Hip) as (c & ds & Heq & Hc & Hall).
  pose proof (digitsValue_ge ip 0 Hall ltac:(lia)) as Hv0.
  assert (Hv63 : digitsValue ip 0 <= 2 ^ 63).
  { assert (2 ^ 63 / unit <= 2 ^ 63); [|lia].
    apply Z.div_le_upper_bound; nia. }
  assert (Hvu : digitsValue ip 0 * unit <= 2 ^ 63).
  { pose proof (Z.mul_div_le (2 ^ 63) unit ltac:(lia)). nia. }
  destruct fuel as [|fuel].
  { rewrite Heq in Hfuel. cbn in Hfuel. lia. }
  assert (Hshape : ip ++ uname ++ rest = String c (ds ++ uname ++ rest))
    by (rewrite Heq; reflexivity).
  assert (Hterm : termValue (digitsValue ip 0) unit 0 (float64.of_uint64 1) =
                  digitsValue ip 0 * unit).
  { unfold termValue. cbn [Z.ltb Z.compare]. apply u64_small. lia. }
  rewrite Hshape.
  rewrite (ParseDuration_loop_round fuel orig c (ds ++ uname ++ rest) d
             (digitsValue ip 0) (uname ++ rest) 0 (float64.of_uint64 1)
             (uname ++ rest) false uname rest unit).
  - rewrite Hterm, u64_small by lia.
    apply ParseDuration_loop_fuel; [|lia].
    rewrite Hshape in Hfuel. cbn [String.length] in Hfuel.
    rewrite !length_app_s in Hfuel. lia.
  - rewrite Hc. apply orb_true_r.
  - rewrite <- Hshape. unfold time.leadingInt.
    apply leadingInt_loop_digits;
      [assumption|apply noDigitHead_unit; assumption|lia|assumption].
  - destruct uname as [|cu u']; [congruence|]. cbn [append fractionPart].
    cbn [allBytes] in Hun. apply andb_true_iff in Hun as [Hcu _].
    unfold unitByte in Hcu. apply negb_true_iff, orb_false_iff in Hcu as [Hcu _].
    rewrite Hcu. reflexivity.
  - replace (len (String c (ds ++ uname ++ rest)) =? len (uname ++ rest)) with false;
      [reflexivity|].
    symmetry. apply Z.eqb_neq. rewrite len_cons, len_app.
    pose proof (len_nonneg ds). lia.
  - apply splitUnit_app; assumption.
  - exact Hunit.
  - apply Z.ltb_ge. lia.
  - reflexivity.
  - rewrite Hterm, u64_small by lia. apply Z.ltb_ge. lia.
Qed.

(** One round of the loop on a term with a fraction of [k] digits, for a
    unit of [10^p] nanoseconds. *)
Lemma ParseDuration_loop_term_frac (fuel : nat) (orig ip fs uname rest : string)
    (p : nat) (d : Z) :
  someDigits ip = true -> someDigits fs = true ->
  allBytes unitByte uname = true ->
  time.lookup time.unitMap uname = Some (10 ^ Z.of_nat p) ->
  p = 3%nat \/ p = 6%nat \/ p = 9%nat -> (String.length fs <= p)%nat ->
  0 < digitsValue fs 0 ->
  numberHead rest = true ->
  (String.length (ip ++ String "." (fs ++ uname ++ rest)) <= fuel)%nat ->
  digitsValue ip 0 <= 2 ^ 63 / 10 ^ Z.of_nat p ->
  0 <= d ->
  d + digitsValue ip 0 * 10 ^ Z.of_nat p +
    digitsValue fs 0 * 10 ^ Z.of_nat (p - String.length fs) <= 2 ^ 63 ->
  time.ParseDuration_loop fuel orig (ip ++ String "." (fs ++ uname ++ rest)) d =
  time.ParseDuration_loop (String.length rest) orig rest
    (d + digitsValue ip 0 * 10 ^ Z.of_nat p +
       digitsValue fs 0 * 10 ^ Z.of_nat (p - String.length fs)).
Proof.
  intros Hip Hfs Hun Hunit Hp Hk Hf Hrest Hfuel Hv Hd Hsum.
  set (unit := 10 ^ Z.of_nat p) in *.
  set (k := String.length fs) in *.
  pose proof (unit_positive _ _ Hunit) as Hu.
  pose proof (unit_nonempty _ _ Hunit) as Hne.
  assert (Hune : uname <> "") by (destruct uname; [cbn in Hne; lia|discriminate]).
  destruct (someDigits_head ip Hip) as (c & ds & Heq & Hc & Hall).
  destruct (someDigits_head fs Hfs) as (cf & dfs & Heqf & Hcf & Hallf).
  assert (Hk1 : (1 <= k)%nat) by (unfold k; rewrite Heqf; cbn; lia).
  pose proof (digitsValue_ge ip 0 Hall ltac:(lia)) as Hv0.
  pose proof (digitsValue_bound fs Hallf) as Hfb. fold k in Hfb.
  unfold len in Hfb. fold k in Hfb.
  assert (Hc10 : 0 < 10 ^ Z.of_nat (p - k)) by (apply Z.pow_pos_nonneg; lia).
  assert (Hv63 : digitsValue ip 0 <= 2 ^ 63).
  { assert (2 ^ 63 / unit <= 2 ^ 63); [|lia].
    apply Z.div_le_upper_bound; nia. }
  assert (Hvu : digitsValue ip 0 * unit <= 2 ^ 63).
  { pose proof (Z.mul_div_le (2 ^ 63) unit ltac:(lia)). nia. }
  assert (Hf9 : digitsValue fs 0 < 10 ^ 9).
  { assert (10 ^ Z.of_nat k <= 10 ^ 9); [|lia].
    apply Z.pow_le_mono_r; [lia|]. destruct Hp as [-> | [-> | ->]]; lia. }
  destruct fuel as [|fuel].
  { rewrite Heq in Hfuel. cbn in Hfuel. lia. }
  assert (Hshape : ip ++ String "." (fs ++ uname ++ rest) =
                   String c (ds ++ String "." (fs ++ uname ++ rest)))
    by (rewrite Heq; reflexivity).
  assert (Hterm : termValue (digitsValue ip 0) unit (digitsValue fs 0)
                    (scaleBy k (float64.of_uint64 1)) =
                  digitsValue ip 0 * unit + digitsValue fs 0 * 10 ^ Z.of_nat (p - k)).
  { unfold termValue. replace (0 <? digitsValue fs 0) with true
      by (symmetry; apply Z.ltb_lt; lia).
    unfold unit. rewrite fraction_exact by (assumption || lia).
    fold unit. rewrite (u64_small (_ * _)) by lia. apply u64_small. lia. }
  rewrite Hshape.
  rewrite (ParseDuration_loop_round fuel orig c
             (ds ++ String "." (fs ++ uname ++ rest)) d
             (digitsValue ip 0) (String "." (fs ++ uname ++ rest))
             (digitsValue fs 0) (scaleBy k (float64.of_uint64 1))
             (uname ++ rest) true uname rest unit).
  - rewrite Hterm, u64_small by lia.
    rewrite Z.add_assoc.
    apply ParseDuration_loop_fuel; [|lia].
    rewrite Hshape in Hfuel. cbn [String.length] in Hfuel.
    rewrite !length_app_s in Hfuel. cbn [String.length] in Hfuel.
    rewrite !length_app_s in Hfuel. lia.
  - rewrite Hc. apply orb_true_r.
  - rewrite <- Hshape. unfold time.leadingInt.
    apply leadingInt_loop_digits; [assumption|reflexivity|lia|assumption].
  - unfold fractionPart. cbn [Ascii.eqb Bool.eqb]. cbv iota.
    unfold time.leadingFraction.
    rewrite leadingFraction_loop_digits;
      [|assumption|apply noDigitHead_unit; assumption|lia|lia].
    fold k. f_equal.
    replace (len (fs ++ uname ++ rest) =? len (uname ++ rest)) with false;
      [reflexivity|].
    symmetry. apply Z.eqb_neq. rewrite (len_app fs). unfold len at 1. fold k. lia.
  - apply andb_false_r.
  - apply splitUnit_app; assumption.
  - exact Hunit.
  - apply Z.ltb_ge. lia.
  - rewrite Hterm. apply andb_false_iff. right. apply Z.ltb_ge. lia.
  - rewrite Hterm, u64_small by lia. apply Z.ltb_ge. lia.
Qed.

Lemma intOf_digits (V : Z) :
  0 <= V < 10 ^ 20 ->
  someDigits (intOf V) = true /\ digitsValue (intOf V) 0 = V.
Proof.
  intros HV. destruct (fmtInt_numeral V HV) as (Hj & _ & Hval).
  split; [apply jsonInt_digits, Hj|exact Hval].
Qed.

Lemma numberHead_intOf (V : Z) (rest : string) :
  0 <= V < 10 ^ 20 -> numberHead (intOf V ++ rest) = true.
Proof.
  intros HV. destruct (intOf_digits V HV) as [Hd _].
  apply someDigits_inv in Hd as (c & ds & -> & Hc & _).
  cbn. rewrite Hc. apply orb_true_r.
Qed.

(** A term [V unit] written by [fmtInt]. *)
Lemma ParseDuration_loop_int (fuel : nat) (orig uname rest : string) (V unit d : Z) :
  0 <= V < 10 ^ 20 ->
  allBytes unitByte uname = true ->
  time.lookup time.unitMap uname = Some unit ->
  numberHead rest = true ->
  (String.length (intOf V ++ uname ++ rest) <= fuel)%nat ->
  V <= 2 ^ 63 / unit -> 0 <= d -> d + V * unit <= 2 ^ 63 ->
  time.ParseDuration_loop fuel orig (intOf V ++ uname ++ rest) d =
  time.ParseDuration_loop (String.length rest) orig rest (d + V * unit).
Proof.
  intros HV Hun Hunit Hrest Hfuel Hle Hd Hsum.
  destruct (intOf_digits V HV) as [Hsd Hval].
  rewrite <- Hval at 2.
  apply ParseDuration_loop_term; try assumption; rewrite Hval; assumption.
Qed.

(** A term [V.fraction unit] written by [fmtInt] and [fmtFrac], for a unit
    of [10^p] nanoseconds. *)
Lemma ParseDuration_loop_int_frac (fuel : nat) (orig uname rest : string)
    (p : nat) (V w d : Z) :
  0 <= V < 10 ^ 20 -> 0 <= w ->
  allBytes unitByte uname = true ->
  time.lookup time.unitMap uname = Some (10 ^ Z.of_nat p) ->
  p = 3%nat \/ p = 6%nat \/ p = 9%nat ->
  numberHead rest = true ->
  (String.length (intOf V ++ fracOf w p ++ uname ++ rest) <= fuel)%nat ->
  V <= 2 ^ 63 / 10 ^ Z.of_nat p -> 0 <= d ->
  d + V * 10 ^ Z.of_nat p + w mod 10 ^ Z.of_nat p <= 2 ^ 63 ->
  time.ParseDuration_loop fuel orig (intOf V ++ fracOf w p ++ uname ++ rest) d =
  time.ParseDuration_loop (String.length rest) orig rest
    (d + V * 10 ^ Z.of_nat p + w mod 10 ^ Z.of_nat p).
Proof.
  intros HV Hw Hun Hunit Hp Hrest Hfuel Hle Hd Hsum.
  destruct (intOf_digits V HV) as [Hsd Hval].
  destruct (fracOf_spec w p Hw) as [[Hmod Hfr] | [Hmod (ds & Hfr & Hds & Hlen & Hfv)]].
  - rewrite Hfr in *. cbn [append] in *. rewrite Hmod, Z.add_0_r in *.
    apply ParseDuration_loop_int; assumption.
  - rewrite Hfr in *. cbn [append] in *.
    unfold len in Hlen, Hfv.
    replace (Z.of_nat p - Z.of_nat (String.length ds))
      with (Z.of_nat (p - String.length ds)) in Hfv by lia.
    assert (Hsds : someDigits ds = true).
    { unfold someDigits. rewrite Hds. destruct ds; [cbn in Hlen; lia|reflexivity]. }
    assert (Hc10 : 0 < 10 ^ Z.of_nat (p - String.length ds))
      by (apply Z.pow_pos_nonneg; lia).
    pose proof (digitsValue_ge ds 0 Hds ltac:(lia)) as Hge.
    assert (Hfpos : 0 < digitsValue ds 0).
    { destruct (Z.eq_dec (digitsValue ds 0) 0) as [E|E]; [|lia].
      rewrite E, Z.mul_0_l in Hfv. congruence. }
    rewrite <- Hfv in Hsum |- *. clear Hfv.
    pose proof (ParseDuration_loop_term_frac fuel orig (intOf V) ds uname rest p d)
      as HT.
    rewrite Hval in HT. apply HT; try assumption; try lia; try nia.
Qed.

Lemma ParseDuration_loop_end (orig : string) (d : Z) :
  time.ParseDuration_loop (String.length "") orig "" d = (d, None).
Proof. reflexivity. Qed.

(** The loop reads the magnitude back from what [format] wrote. *)
Lemma ParseDuration_loop_formatAbs (orig : string) (u : Z) (fuel : nat) :
  0 < u <= 2 ^ 63 -> (String.length (formatAbs u) <= fuel)%nat ->
  time.ParseDuration_loop fuel orig (formatAbs u) 0 = (u, None).
Proof.
  intros Hu. unfold formatAbs.
  destruct (Z.ltb_spec u (10 ^ 9)) as [Hlt9|Hge9].
  - destruct (Z.eqb_spec u 0) as [|_]; [lia|].
    destruct (Z.ltb_spec u (10 ^ 3)) as [Hlt3|Hge3]; [|destruct (Z.ltb_spec u (10 ^ 6)) as [Hlt6|Hge6]].
    + intros Hfuel.
      change (intOf u ++ "ns") with (intOf u ++ "ns" ++ "") in *.
      rewrite (ParseDuration_loop_int fuel orig "ns" "" u 1 0);
        try reflexivity; try assumption; try lia.
      * rewrite ParseDuration_loop_end. f_equal. lia.
      * change (2 ^ 63 / 1) with (2 ^ 63). lia.
    + intros Hfuel.
      change (time.micro ++ "s") with ((time.micro ++ "s") ++ "") in *.
      pose proof (Z.div_mod u (10 ^ 3) ltac:(lia)) as Hdm.
      pose proof (Z.mod_pos_bound u (10 ^ 3) ltac:(lia)) as Hmb.
      assert (HV : 0 <= u / 10 ^ 3 < 10 ^ 6).
      { split; [apply Z.div_pos; lia|apply Z.div_lt_upper_bound; lia]. }
      rewrite (ParseDuration_loop_int_frac fuel orig (time.micro ++ "s") "" 3
                 (u / 10 ^ 3) u 0);
        try reflexivity; try assumption; try tauto;
        change (Z.of_nat 3) with 3; try lia.
      * rewrite ParseDuration_loop_end. f_equal. lia.
      * change (2 ^ 63 / 10 ^ 3) with 9223372036854775. lia.
    + intros Hfuel.
      change "ms" with ("ms" ++ "") in *.
      pose proof (Z.div_mod u (10 ^ 6) ltac:(lia)) as Hdm.
      pose proof (Z.mod_pos_bound u (10 ^ 6) ltac:(lia)) as Hmb.
      assert (HV : 0 <= u / 10 ^ 6 < 10 ^ 3).
      { split; [apply Z.div_pos; lia|apply Z.div_lt_upper_bound; lia]. }
      rewrite (ParseDuration_loop_int_frac fuel orig "ms" "" 6 (u / 10 ^ 6) u 0);
        try reflexivity; try assumption; try tauto;
        change (Z.of_nat 6) with 6; try lia.
      * rewrite ParseDuration_loop_end. f_equal. lia.
      * change (2 ^ 63 / 10 ^ 6) with 9223372036854. lia.
  - cbv zeta. set (secs := u / 10 ^ 9).
    pose proof (Z.div_mod u (10 ^ 9) ltac:(lia)) as Hdm. fold secs in Hdm.
    pose proof (Z.mod_pos_bound u (10 ^ 9) ltac:(lia)) as Hmb.
    pose proof (Z.div_mod secs 60 ltac:(lia)) as Hdm1.
    pose proof (Z.mod_pos_bound secs 60 ltac:(lia)) as Hmb1.
    pose proof (Z.div_mod (secs / 60) 60 ltac:(lia)) as Hdm2.
    pose proof (Z.mod_pos_bound (secs / 60) 60 ltac:(lia)) as Hmb2.
    assert (Hsecs : 1 <= secs <= 9223372036).
    { unfold secs. split.
      - apply Z.div_le_lower_bound; lia.
      - assert (u / 10 ^ 9 < 9223372037); [|lia].
        apply Z.div_lt_upper_bound; lia. }
    assert (Hm0 : 0 <= secs / 60) by (apply Z.div_pos; lia).
    assert (Hh0 : 0 <= secs / 60 / 60) by (apply Z.div_pos; lia).
    set (sterm := intOf (secs mod 60) ++ fracOf u 9 ++ "s").
    assert (Hsterm : forall fuel' d,
              (String.length sterm <= fuel')%nat -> 0 <= d ->
              d + (secs mod 60) * 10 ^ 9 + u mod 10 ^ 9 <= 2 ^ 63 ->
              time.ParseDuration_loop fuel' orig sterm d =
              (d + (secs mod 60) * 10 ^ 9 + u mod 10 ^ 9, None)).
    { intros fuel' d Hf Hd Hsum. unfold sterm in Hf |- *.
      change (fracOf u 9 ++ "s") with (fracOf u 9 ++ "s" ++ "") in Hf |- *.
      rewrite (ParseDuration_loop_int_frac fuel' orig "s" "" 9 (secs mod 60) u d);
        try reflexivity; try assumption; try tauto;
        change (Z.of_nat 9) with 9; try lia.
      change (2 ^ 63 / 10 ^ 9) with 9223372036. lia. }
    assert (Hnh : numberHead sterm = true).
    { unfold sterm. apply numberHead_intOf. lia. }
    destruct (Z.ltb_spec 0 (secs / 60)) as [Hm|Hm].
    + set (mterm := intOf (secs / 60 mod 60) ++ "m").
      assert (Hmterm : forall fuel' d,
                (String.length (mterm ++ sterm) <= fuel')%nat -> 0 <= d ->
                d + (secs / 60 mod 60) * (60 * 10 ^ 9) +
                  (secs mod 60) * 10 ^ 9 + u mod 10 ^ 9 <= 2 ^ 63 ->
                time.ParseDuration_loop fuel' orig (mterm ++ sterm) d =
                (d + (secs / 60 mod 60) * (60 * 10 ^ 9) +
                   (secs mod 60) * 10 ^ 9 + u mod 10 ^ 9, None)).
      { intros fuel' d Hf Hd Hsum. unfold mterm in Hf |- *.
        rewrite app_assoc_s in Hf |- *.
        rewrite (ParseDuration_loop_int fuel' orig "m" sterm (secs / 60 mod 60)
                   (60 * 10 ^ 9) d);
          try reflexivity; try assumption; try lia.
        - apply Hsterm; lia.
        - change (2 ^ 63 / (60 * 10 ^ 9)) with 153722867. lia. }
      destruct (Z.ltb_spec 0 (secs / 60 / 60)) as [Hh|Hh].
      * intros Hfuel. rewrite !app_assoc_s in Hfuel |- *.
        change (intOf (secs / 60 / 60) ++ "h" ++ intOf (secs / 60 mod 60) ++ "m" ++
                intOf (secs mod 60) ++ fracOf u 9 ++ "s")
          with (intOf (secs / 60 / 60) ++ "h" ++ mterm ++ sterm) in Hfuel |- *.
        assert (Hhb : secs / 60 / 60 <= 2562047).
        { assert (secs / 60 / 60 < 2562048); [|lia].
          apply Z.div_lt_upper_bound; [lia|].
          apply Z.div_lt_upper_bound; lia. }
        rewrite (ParseDuration_loop_int fuel orig "h" (mterm ++ sterm)
                   (secs / 60 / 60) (3600 * 10 ^ 9) 0);
          try reflexivity; try assumption; try lia.
        -- rewrite Hmterm; [f_equal; lia|lia|lia|lia].
        -- unfold mterm. rewrite app_assoc_s. apply numberHead_intOf. lia.
      * intros Hfuel. cbn [append] in Hfuel |- *.
        change ((intOf (secs / 60 mod 60) ++ "m") ++
                intOf (secs mod 60) ++ fracOf u 9 ++ "s")
          with (mterm ++ sterm) in Hfuel |- *.
        assert (secs / 60 / 60 = 0) by lia.
        rewrite Hmterm; [f_equal; lia|assumption|lia|lia].
    + destruct (Z.ltb_spec 0 (secs / 60 / 60)) as [Hh|Hh].
      * exfalso. assert (secs / 60 = 0) by lia.
        assert (secs / 60 / 60 = 0) by (rewrite H; reflexivity). lia.
      * intros Hfuel. cbn [append] in Hfuel |- *. fold sterm in Hfuel |- *.
        assert (secs / 60 = 0) by lia.
        rewrite Hsterm; [f_equal; lia|assumption|lia|lia].
Qed.

Lemma formatAbs_shape (u : Z) :
  0 <= u <= 2 ^ 63 ->
  exists V tail, 0 <= V < 10 ^ 20 /\ tail <> "" /\ formatAbs u = intOf V ++ tail.
Proof.
  intros Hu. unfold formatAbs.
  assert (Hdiv : forall w k, 0 <= w <= 2 ^ 63 -> 0 < k -> 0 <= w / k <= 2 ^ 63).
  { intros w k Hw Hk. split; [apply Z.div_pos; lia|].
    apply Z.div_le_upper_bound; nia. }
  assert (Hmod : forall w k, 0 <= w -> 0 < k <= 2 ^ 63 -> 0 <= w mod k <= 2 ^ 63).
  { intros w k Hw Hk. pose proof (Z.mod_pos_bound w k ltac:(lia)). lia. }
  assert (Hne : forall a : string, a ++ "s" <> "").
  { intros a. destruct a; discriminate. }
  destruct (u <? 10 ^ 9).
  - destruct (Z.eqb_spec u 0) as [->|_].
    { exists 0, "s". repeat split; try lia. discriminate. }
    destruct (u <? 10 ^ 3).
    { exists u, "ns". repeat split; try lia. discriminate. }
    destruct (u <? 10 ^ 6).
    + exists (u / 10 ^ 3), (fracOf u 3 ++ time.micro ++ "s").
      pose proof (Hdiv u (10 ^ 3) Hu ltac:(lia)).
      repeat split; try lia. destruct (fracOf u 3); discriminate.
    + exists (u / 10 ^ 6), (fracOf u 6 ++ "ms").
      pose proof (Hdiv u (10 ^ 6) Hu ltac:(lia)).
      repeat split; try lia. destruct (fracOf u 6); discriminate.
  - cbv zeta.
    pose proof (Hdiv u (10 ^ 9) Hu ltac:(lia)) as Hs.
    pose proof (Hdiv _ 60 Hs ltac:(lia)) as Hm.
    pose proof (Hdiv _ 60 Hm ltac:(lia)) as Hh.
    pose proof (Hmod (u / 10 ^ 9) 60 ltac:(lia) ltac:(lia)) as Hsm.
    pose proof (Hmod (u / 10 ^ 9 / 60) 60 ltac:(lia) ltac:(lia)) as Hmm.
    destruct (0 <? u / 10 ^ 9 / 60 / 60).
    + eexists _, _. split; [|split; [|rewrite app_assoc_s; reflexivity]]; [lia|].
      discriminate.
    + destruct (0 <? u / 10 ^ 9 / 60).
      * cbn [append]. eexists _, _.
        split; [|split; [|rewrite app_assoc_s; reflexivity]]; [lia|]. discriminate.
      * cbn [append]. eexists _, _. split; [|split; [|reflexivity]]; [lia|].
        destruct (fracOf u 9); discriminate.
Qed.

Lemma formatAbs_head (u : Z) :
  0 <= u <= 2 ^ 63 ->
  exists c rest, formatAbs u = String c rest /\ isDigit c = true /\ rest <> "".
Proof.
  intros Hu. destruct (formatAbs_shape u Hu) as (V & tail & HV & Htail & ->).
  destruct (intOf_digits V HV) as [Hd _].
  apply someDigits_inv in Hd as (c & ds & -> & Hc & _).
  exists c, (ds ++ tail). split; [reflexivity|]. split; [exact Hc|].
  destruct ds; [exact Htail|discriminate].
Qed.

Lemma magnitude_abs (n : Z) : is_int64 n -> magnitude n = Z.abs n.
Proof.
  unfold is_int64, magnitude. intros Hn.
  destruct (Z.ltb_spec n 0).
  - unfold u64. rewrite Z.abs_neq by lia.
    assert (H1 : n mod 2 ^ 64 = n + 2 ^ 64).
    { symmetry. apply (Z.mod_unique n (2 ^ 64) (-1)); lia. }
    rewrite H1. symmetry. apply (Z.mod_unique _ (2 ^ 64) (-1)); lia.
  - rewrite Z.abs_eq by lia. apply u64_small. lia.
Qed.

(** [time.ParseDuration] gives back the duration [Duration.String] wrote,
    over the whole range of [time.Duration]. *)
Lemma ParseDuration_String (n : Z) :
  is_int64 n -> time.ParseDuration (time.String_ n) = (n, None).
Proof.
  intros Hn. pose proof Hn as Hr. unfold is_int64 in Hr.
  destruct (Z.eq_dec n 0) as [->|Hnz]; [vm_compute; reflexivity|].
  unfold time.String_. rewrite format_decomp, magnitude_abs by assumption.
  assert (Hu : 0 < Z.abs n <= 2 ^ 63) by lia.
  destruct (formatAbs_head (Z.abs n) ltac:(lia)) as (c & rest & Hshape & Hc & Hrest).
  assert (Hne0 : String.eqb (formatAbs (Z.abs n)) "0" = false).
  { rewrite Hshape. apply String.eqb_neq. intros H. injection H as _ H. congruence. }
  assert (Hne : String.eqb (formatAbs (Z.abs n)) "" = false).
  { rewrite Hshape. reflexivity. }
  destruct (Z.ltb_spec n 0) as [Hneg|Hpos].
  - cbn [append]. unfold time.ParseDuration. cbn [Ascii.eqb Bool.eqb orb].
    cbv iota beta. rewrite Hne0, Hne.
    rewrite ParseDuration_loop_formatAbs by lia.
    rewrite i64_opp_i64. rewrite Z.abs_neq, Z.opp_involutive by lia.
    rewrite i64_small by assumption. reflexivity.
  - cbn [append]. unfold time.ParseDuration.
    assert (Hsign : Ascii.eqb c "-" || Ascii.eqb c "+" = false).
    { apply isDigit_range in Hc. bytes; reflexivity. }
    rewrite Hshape at 1. rewrite Hsign. rewrite <- ?Hshape.
    rewrite Hne0, Hne.
    rewrite ParseDuration_loop_formatAbs by lia.
    rewrite Z.abs_eq by lia.
    destruct (Z.ltb_spec (2 ^ 63 - 1) n); [lia|].
    rewrite i64_small by assumption. reflexivity.
Qed.

(** ** C4: the round trip *)

Lemma ParseInt_int64 (s : string) (n : Z) :
  strconv.ParseInt s 10 = (n, None) -> is_int64 n.
Proof.
  unfold strconv.ParseInt. destruct s as [|c0 s1]; [discriminate|].
  destruct (if Ascii.eqb c0 "+" then _ else _) as [neg s'].
  destruct (strconv.ParseUint s' 10) as [un [[|]|]]; try discriminate.
  - repeat case_if; try discriminate; intros H; injection H as <-; apply i64_range.
  - repeat case_if; try discriminate; intros H; injection H as <-; apply i64_range.
Qed.

Lemma Unmarshal_int64_int64 (typ b : string) (v n : Z) :
  is_int64 v -> Unmarshal_int64 typ b v = (n, None) -> is_int64 n.
Proof.
  intros Hv. unfold Unmarshal_int64, unmarshal.
  destruct (checkValid b); [discriminate|].
  destruct (scanWhile _ _ _ _) as [[[s op] off] rest].
  destruct op; try discriminate.
  unfold literalStore_int64.
  destruct (rescanLiteral rest) as [|c item]; [discriminate|].
  repeat case_if; try discriminate; try (intros H; injection H as <-; exact Hv);
    try (match goal with
         | |- context [unquoteBytes ?x] => destruct (unquoteBytes x)
         end; discriminate).
  match goal with
  | |- context [strconv.ParseInt ?x 10] =>
      destruct (strconv.ParseInt x 10) as [m [e|]] eqn:E
  end; [discriminate|].
  intros H. injection H as <-. apply (ParseInt_int64 _ _ E).
Qed.

Lemma ParseDuration_int64 (s : string) (v : Z) :
  time.ParseDuration s = (v, None) -> is_int64 v.
Proof.
  unfold time.ParseDuration.
  destruct (match s with "" => (false, s) | String c s' => _ end) as [neg s0].
  destruct (String.eqb s0 "0").
  { intros H. injection H as <-. unfold is_int64. lia. }
  destruct (String.eqb s0 ""); [discriminate|].
  destruct (time.ParseDuration_loop _ s s0 0) as [d [e|]]; [discriminate|].
  repeat case_if; try discriminate; intros H; injection H as <-; apply i64_range.
Qed.

Lemma UnmarshalJSON_int64 (d d1 : Duration) (b : string) :
  is_int64 (Duration_ d) -> UnmarshalJSON d b = (d1, None) ->
  is_int64 (Duration_ d1).
Proof.
  intros Hd. unfold UnmarshalJSON.
  destruct (Unmarshal_int64 "time.Duration" b (Duration_ d)) as [n [e1|]] eqn:E1.
  - destruct (Unmarshal_string b "") as [str [e2|]]; [discriminate|].
    destruct (time.ParseDuration str) as [pd [e3|]] eqn:E3; [discriminate|].
    intros H. injection H as <-. apply (ParseDuration_int64 _ _ E3).
  - intros H. injection H as <-. apply (Unmarshal_int64_int64 _ _ _ _ Hd E1).
Qed.

(** Decoding what [MarshalJSON] wrote gives the value back. *)
Lemma UnmarshalJSON_MarshalJSON (d d' : Duration) :
  is_int64 (Duration_ d) ->
  UnmarshalJSON d' (fst (MarshalJSON d)) = (d, None).
Proof.
  intros Hd. rewrite MarshalJSON_String. cbn [fst].
  destruct d as [n]. cbn [Duration_] in *.
  apply UnmarshalJSON_duration_string, ParseDuration_String, Hd.
Qed.

(** C4: when [UnmarshalJSON] accepts the input [x], with result [d1],
    [MarshalJSON] of [d1] succeeds, and [UnmarshalJSON] of its output gives
    [d1] again, into whatever receiver: parse (serialize (parse x)) =
    parse x.  (The receiver holds a [time.Duration], a 64-bit integer.) *)
Theorem round_trip :
  forall (d d1 : Duration) (x : string),
    is_int64 (Duration_ d) ->
    UnmarshalJSON d x = (d1, None) ->
    exists y : string,
      MarshalJSON d1 = (y, None) /\
      forall d' : Duration, UnmarshalJSON d' y = (d1, None).
Proof.
  intros d d1 x Hd Hx.
  pose proof (UnmarshalJSON_int64 d d1 x Hd Hx) as Hd1.
  exists (quoted (time.String_ (Duration_ d1))). split.
  - apply MarshalJSON_String.
  - intros d'. pose proof (UnmarshalJSON_MarshalJSON d1 d' Hd1) as H.
    rewrite MarshalJSON_String in H. exact H.
Qed.

Lemma round_trip_witness :
  exists y : string,
    MarshalJSON (mkDuration 1500) = (y, None) /\
    forall d' : Duration, UnmarshalJSON d' y = (mkDuration 1500, None).
Proof.
  apply (round_trip (mkDuration 0) (mkDuration 1500) "1500").
  - unfold is_int64. cbn [Duration_]. lia.
  - vm_compute. reflexivity.
Defined.

(** * Further properties of the codec *)

(** ** Input that is not JSON *)







(** ** Arrays and objects *)

(** X2: a JSON array or object is refused, however it continues: the error
    is the type error of the string decode, at the offset after the opening
    bracket, and the receiver is left as it was. *)
Theorem array_object_rejected :
  forall (d : Duration) (rest : string),
    (checkValid (String "[" rest) = None ->
     UnmarshalJSON d (String "[" rest) =
       (d, Some (UnmarshalTypeError "array" "string" 1))) /\
    (checkValid (String "{" rest) = None ->
     UnmarshalJSON d (String "{" rest) =
       (d, Some (UnmarshalTypeError "object" "string" 1))).
Proof.
  intros [v] rest.
  split; intros H; unfold UnmarshalJSON, Unmarshal_int64, Unmarshal_string;
    rewrite H; reflexivity.
Qed.

Lemma array_object_rejected_witness :
  UnmarshalJSON (mkDuration 7) (String "[" "1, 2]") =
    (mkDuration 7, Some (UnmarshalTypeError "array" "string" 1)) /\
  UnmarshalJSON (mkDuration 7) (String "{" "}") =
    (mkDuration 7, Some (UnmarshalTypeError "object" "string" 1)).
Proof.
  pose proof (array_object_rejected (mkDuration 7)) as H. split.
  - apply (proj1 (H "1, 2]")). vm_compute. reflexivity.
  - apply (proj2 (H "}")). vm_compute. reflexivity.
Defined.

(** ** Encoding, then decoding *)

(** X3: for every duration value, decoding what [MarshalJSON] wrote gives
    the value back, into whatever receiver: the written form is always
    accepted, by the string path, and loses nothing. *)
Theorem marshal_unmarshal :
  forall d d' : Duration,
    is_int64 (Duration_ d) ->
    exists y : string,
      MarshalJSON d = (y, None) /\ UnmarshalJSON d' y = (d, None).
Proof.
  intros d d' Hd. exists (fst (MarshalJSON d)). split.
  - rewrite MarshalJSON_String. reflexivity.
  - apply UnmarshalJSON_MarshalJSON, Hd.
Qed.

Lemma marshal_unmarshal_witness :
  exists y : string,
    MarshalJSON (mkDuration (- 2 ^ 63)) = (y, None) /\
    UnmarshalJSON (mkDuration 7) y = (mkDuration (- 2 ^ 63), None).
Proof.
  apply (marshal_unmarshal (mkDuration (- 2 ^ 63)) (mkDuration 7)).
  unfold is_int64. cbn [Duration_]. lia.
Defined.

(** X4: [MarshalJSON] is injective: two durations with the same JSON text
    are the same duration. *)
Theorem MarshalJSON_injective :
  forall d1 d2 : Duration,
    is_int64 (Duration_ d1) -> is_int64 (Duration_ d2) ->
    MarshalJSON d1 = MarshalJSON d2 -> d1 = d2.
Proof.
  intros d1 d2 H1 H2 Heq.
  pose proof (UnmarshalJSON_MarshalJSON d1 d1 H1) as E1.
  pose proof (UnmarshalJSON_MarshalJSON d2 d1 H2) as E2.
  rewrite Heq in E1. congruence.
Qed.

Lemma MarshalJSON_injective_witness : mkDuration 5 = mkDuration (2 + 3).
Proof.
  apply (MarshalJSON_injective (mkDuration 5) (mkDuration (2 + 3))).
  - unfold is_int64. cbn [Duration_]. lia.
  - unfold is_int64. cbn [Duration_]. lia.
  - vm_compute. reflexivity.
Defined.

(** ** The receiver *)

(** X5: a receiver that holds a 64-bit duration still does after
    [UnmarshalJSON], whatever the input and whether or not it is accepted:
    no value outside the range of [time.Duration] is ever stored. *)
Theorem UnmarshalJSON_keeps_int64 :
  forall (d d1 : Duration) (b : string) (r : option error),
    is_int64 (Duration_ d) -> UnmarshalJSON d b = (d1, r) ->
    is_int64 (Duration_ d1).
Proof.
  intros d d1 b [e|] Hd H.
  - assert (Hsame : d1 = d).
    { revert H. destruct d as [n]. unfold UnmarshalJSON. cbn [Duration_].
      destruct (Unmarshal_int64 "time.Duration" b n) as [n' [e1|]] eqn:H1;
        [|congruence].
      apply Unmarshal_int64_error in H1. subst n'.
      destruct (Unmarshal_string b "") as [str [e2|]]; [congruence|].
      destruct (time.ParseDuration str) as [pd [e3|]]; congruence. }
    rewrite Hsame. exact Hd.
  - apply (UnmarshalJSON_int64 d d1 b Hd H).
Qed.

Lemma UnmarshalJSON_keeps_int64_witness :
  is_int64 (Duration_ (mkDuration (- 2 ^ 63))).
Proof.
  apply (UnmarshalJSON_keeps_int64 (mkDuration 7) (mkDuration (- 2 ^ 63))
           "-9223372036854775808" None).
  - unfold is_int64. cbn [Duration_]. lia.
  - vm_compute. reflexivity.
Defined.

(** ** Integer literals *)

Lemma ParseUint_loop_overflow (ds : string) (acc : Z) :
  allDigits ds = true -> 0 <= acc <= strconv.maxUint64 ->
  strconv.maxUint64 < digitsValue ds acc ->
  snd (strconv.ParseUint_loop 10 ds acc) = Some strconv.ErrRange.
Proof.
  change strconv.maxUint64 with 18446744073709551615.
  revert acc. induction ds as [|c ds IH]; intros acc Hd Hacc Hover.
  - cbn in Hover. lia.
  - cbn [allDigits] in Hd. apply andb_true_iff in Hd as [Hc Hds].
    cbn [digitsValue] in Hover. cbn [strconv.ParseUint_loop]. rewrite Hc.
    apply isDigit_range in Hc. cbv zeta.
    change (strconv.maxUint64 / 10 + 1) with 1844674407370955162.
    change (u64 (u64 (Z.shiftl 1 64) - 1)) with 18446744073709551615.
    destruct (Z.leb_spec 10 (code c - 48)); [lia|].
    destruct (Z.leb_spec 1844674407370955162 acc); [reflexivity|].
    rewrite (u64_small (acc * 10)) by lia.
    destruct (Z.leb_spec (acc * 10 + (code c - 48)) 18446744073709551615) as [Hfit|Hwrap].
    + rewrite u64_small by lia.
      destruct (Z.ltb_spec (acc * 10 + (code c - 48)) (acc * 10)); [lia|].
      destruct (Z.ltb_spec 18446744073709551615 (acc * 10 + (code c - 48))); [lia|].
      cbn [orb]. apply IH; [assumption|lia|assumption].
    + assert (Hu : u64 (acc * 10 + (code c - 48)) = acc * 10 + (code c - 48) - 2 ^ 64).
      { unfold u64. symmetry. apply (Z.mod_unique _ (2 ^ 64) 1); lia. }
      rewrite Hu.
      destruct (Z.ltb_spec (acc * 10 + (code c - 48) - 2 ^ 64) (acc * 10)); [|lia].
      reflexivity.
Qed.

Lemma ParseInt_strip (neg : bool) (c : ascii) (body' : string) :
  isDigit c = true ->
  strconv.ParseInt ((if neg then "-" else "") ++ String c body') 10 =
  let '(un, err) := strconv.ParseUint_loop 10 (String c body') 0 in
  match err with
  | Some strconv.ErrSyntax => (0, err)
  | _ =>
      if negb neg && (2 ^ 63 <=? un) then (2 ^ 63 - 1, Some strconv.ErrRange)
      else if neg && (2 ^ 63 <? un) then (- 2 ^ 63, Some strconv.ErrRange)
      else (if neg then i64 (- i64 un) else i64 un, None)
  end.
Proof.
  intros Hc. destruct neg; [reflexivity|]. unfold strconv.ParseInt. cbn [append].
  apply isDigit_range in Hc.
  assert (H1 : Ascii.eqb c "+" = false) by (bytes; reflexivity).
  assert (H2 : Ascii.eqb c "-" = false) by (bytes; reflexivity).
  rewrite H1, H2. reflexivity.
Qed.

(** [strconv.ParseInt] on an integer literal: its value when that fits 64
    bits, a range error when it does not. *)
Lemma ParseInt_literal (neg : bool) (ip : string) :
  someDigits ip = true ->
  let v := if neg then - digitsValue ip 0 else digitsValue ip 0 in
  strconv.ParseInt ((if neg then "-" else "") ++ ip) 10 =
  if (- 2 ^ 63 <=? v) && (v <? 2 ^ 63) then (v, None)
  else (if neg then - 2 ^ 63 else 2 ^ 63 - 1, Some strconv.ErrRange).
Proof.
  intros Hip. destruct (someDigits_head ip Hip) as (c & ds & Heq & Hc & Hall).
  pose proof (digitsValue_ge ip 0 Hall ltac:(lia)) as Hge.
  cbv zeta. rewrite Heq at 1. rewrite ParseInt_strip by assumption. rewrite <- Heq.
  destruct (Z.leb_spec (digitsValue ip 0) strconv.maxUint64) as [Hfit|Hover].
  - pose proof (ParseUint_loop_digits ip "" 0 Hall ltac:(lia) Hfit) as HP.
    rewrite app_nil_r_s in HP. rewrite HP. cbn [strconv.ParseUint_loop].
    change strconv.maxUint64 with 18446744073709551615 in Hfit.
    destruct neg; cbn [negb andb].
    + destruct (Z.ltb_spec (2 ^ 63) (digitsValue ip 0)).
      * destruct (Z.leb_spec (- 2 ^ 63) (- digitsValue ip 0)); [lia|]. reflexivity.
      * destruct (Z.leb_spec (- 2 ^ 63) (- digitsValue ip 0)); [|lia].
        destruct (Z.ltb_spec (- digitsValue ip 0) (2 ^ 63)); [|lia]. cbn [andb].
        rewrite i64_opp_i64, i64_small by (unfold is_int64; lia). reflexivity.
    + destruct (Z.leb_spec (2 ^ 63) (digitsValue ip 0)).
      * destruct (Z.ltb_spec (digitsValue ip 0) (2 ^ 63)); [lia|].
        rewrite andb_false_r. reflexivity.
      * destruct (Z.leb_spec (- 2 ^ 63) (digitsValue ip 0)); [|lia].
        destruct (Z.ltb_spec (digitsValue ip 0) (2 ^ 63)); [|lia]. cbn [andb].
        rewrite i64_small by (unfold is_int64; lia). reflexivity.
  - pose proof (ParseUint_loop_overflow ip 0 Hall
                  ltac:(change strconv.maxUint64 with 18446744073709551615; lia)
                  ltac:(lia)) as HP.
    destruct (strconv.ParseUint_loop 10 ip 0) as [un err] eqn:E.
    cbn [snd] in HP. subst err.
    apply ParseUint_loop_range in E. subst un.
    change strconv.maxUint64 with 18446744073709551615 in Hover.
    destruct neg; cbn [negb andb].
    + destruct (Z.leb_spec (- 2 ^ 63) (- digitsValue ip 0)); [lia|]. reflexivity.
    + destruct (Z.ltb_spec (digitsValue ip 0) (2 ^ 63)); [lia|].
      rewrite andb_false_r. reflexivity.
Qed.

(** X6: an integer literal of JSON, of any length (a minus sign or none,
    then 0 or digits without a leading zero), decodes to its value when that
    lies in the range of [time.Duration]; when it does not, the literal is
    refused with the type error of the string decode and the receiver is
    left as it was: no wrap-around, no clamping. *)
Theorem integer_literal :
  forall (d : Duration) (neg : bool) (int : string),
    jsonInt int = true ->
    let v := if neg then - digitsValue int 0 else digitsValue int 0 in
    UnmarshalJSON d (jsonNumber neg int "" "") =
    if (- 2 ^ 63 <=? v) && (v <? 2 ^ 63) then (mkDuration v, None)
    else (d, Some (UnmarshalTypeError "number" "string"
                     (len (jsonNumber neg int "" "")))).
Proof.
  intros [n] neg ip Hi v.
  destruct (jsonNumber_shape neg ip "" "" Hi eq_refl eq_refl)
    as (c & rest & Hshape & Hc & _).
  pose proof (ParseInt_literal neg ip (jsonInt_digits _ Hi)) as HP.
  cbv zeta in HP. fold v in HP.
  assert (Heq : jsonNumber neg ip "" "" = (if neg then "-" else "") ++ ip).
  { unfold jsonNumber. rewrite !app_nil_r_s. reflexivity. }
  unfold UnmarshalJSON, Unmarshal_int64, Unmarshal_string. cbn [Duration_].
  rewrite checkValid_number by (assumption || reflexivity).
  rewrite !unmarshal_number by (assumption || reflexivity).
  rewrite Hshape at 1. rewrite literalStore_int64_number by assumption.
  rewrite <- Hshape. rewrite Heq at 1. rewrite HP.
  destruct ((- 2 ^ 63 <=? v) && (v <? 2 ^ 63)); [reflexivity|].
  rewrite Hshape at 1. rewrite literalStore_string_number by assumption.
  reflexivity.
Qed.

Lemma integer_literal_witness :
  UnmarshalJSON (mkDuration 7) (jsonNumber true "0" "" "") =
    (if (- 2 ^ 63 <=? - digitsValue "0" 0) && (- digitsValue "0" 0 <? 2 ^ 63)
     then (mkDuration (- digitsValue "0" 0), None)
     else (mkDuration 7, Some (UnmarshalTypeError "number" "string"
                                 (len (jsonNumber true "0" "" ""))))) /\
  UnmarshalJSON (mkDuration 7) (jsonNumber false "123456789012345678901234567890" "" "") =
    (if (- 2 ^ 63 <=? digitsValue "123456789012345678901234567890" 0)
        && (digitsValue "123456789012345678901234567890" 0 <? 2 ^ 63)
     then (mkDuration (digitsValue "123456789012345678901234567890" 0), None)
     else (mkDuration 7, Some (UnmarshalTypeError "number" "string"
             (len (jsonNumber false "123456789012345678901234567890" "" ""))))).
Proof.
  split.
  - apply (integer_literal (mkDuration 7) true "0"). reflexivity.
  - apply (integer_literal (mkDuration 7) false "123456789012345678901234567890").
    reflexivity.
Defined.

(** ** A quoted number without unit *)

Lemma leadingInt_loop_overflow (ds rem : string) (acc : Z) :
  allDigits ds = true -> 0 <= acc <= 2 ^ 63 -> 2 ^ 63 < digitsValue ds acc ->
  time.leadingInt_loop (ds ++ rem) acc = (0, "", Some time.errLeadingInt).
Proof.
  revert acc. induction ds as [|c ds IH]; intros acc Hd Hacc Hover.
  - cbn in Hover. lia.
  - cbn [allDigits] in Hd. apply andb_true_iff in Hd as [Hc Hds].
    cbn [digitsValue] in Hover. cbn [append time.leadingInt_loop]. rewrite Hc.
    cbn [negb]. apply isDigit_range in Hc.
    change (2 ^ 63 / 10) with 922337203685477580.
    destruct (Z.ltb_spec 922337203685477580 acc); [reflexivity|]. cbv zeta.
    replace (acc * 10 + code c - 48) with (acc * 10 + (code c - 48)) by lia.
    rewrite u64_small by lia.
    destruct (Z.ltb_spec (2 ^ 63) (acc * 10 + (code c - 48))); [reflexivity|].
    apply IH; [assumption|lia|assumption].
Qed.

Lemma printable_digits (s : string) : allDigits s = true -> printable s = true.
Proof.
  induction s as [|c s IH]; cbn [allDigits printable]; intros H; [reflexivity|].
  apply andb_true_iff in H as [Hc Hs]. rewrite (IH Hs), andb_true_r.
  apply isDigit_range in Hc. bytes; reflexivity.
Qed.

Lemma ParseDuration_bare_number (ip : string) :
  someDigits ip = true -> ip <> "0" ->
  time.ParseDuration ip =
  (0, Some (errorString
              ((if digitsValue ip 0 <=? 2 ^ 63
                then "time: missing unit in duration "
                else "time: invalid duration ") ++ quoted ip))).
Proof.
  intros Hip Hne0.
  destruct (someDigits_head ip Hip) as (c & ds & Heq & Hc & Hall).
  pose proof (digitsValue_ge ip 0 Hall ltac:(lia)) as Hge.
  assert (Hq : time.quote ip = quoted ip)
    by (apply quote_printable, printable_digits, Hall).
  unfold time.ParseDuration.
  assert (Hsign : Ascii.eqb c "-" || Ascii.eqb c "+" = false).
  { apply isDigit_range in Hc. bytes; reflexivity. }
  rewrite Heq at 1. rewrite Hsign. rewrite <- ?Heq.
  replace (String.eqb ip "0") with false by (symmetry; apply String.eqb_neq, Hne0).
  replace (String.eqb ip "") with false by (rewrite Heq; reflexivity).
  assert (Hloop : time.ParseDuration_loop (String.length ip) ip ip 0 =
    (0, Some (errorString
                ((if digitsValue ip 0 <=? 2 ^ 63
                  then "time: missing unit in duration "
                  else "time: invalid duration ") ++ quoted ip)))).
  { rewrite Heq at 1 3. cbn [String.length]. rewrite ParseDuration_loop_unfold.
    rewrite Hc, orb_true_r. cbn [negb]. rewrite <- Heq.
    unfold time.leadingInt. rewrite <- (app_nil_r_s ip) at 1.
    destruct (Z.leb_spec (digitsValue ip 0) (2 ^ 63)) as [Hfit|Hover].
    - rewrite leadingInt_loop_digits by (assumption || reflexivity || lia).
      cbn [fractionPart].
      replace (len ip =? len "") with false.
      2:{ symmetry. apply Z.eqb_neq. rewrite Heq, len_cons.
          pose proof (len_nonneg ds). change (len "") with 0. lia. }
      cbn [negb andb time.splitUnit]. rewrite Hq. reflexivity.
    - rewrite leadingInt_loop_overflow by (assumption || lia).
      unfold time.invalidDuration. rewrite Hq. reflexivity. }
  rewrite Hloop. reflexivity.
Qed.

(** X7: a quoted number without a unit is not taken for nanoseconds: apart
    from ["0"], a JSON string of digits is refused, with the error
    "missing unit in duration" of [time.ParseDuration] (or "invalid
    duration" beyond 2^63) that quotes the string, and the receiver is left
    as it was. *)
Theorem quoted_number_rejected :
  forall (d : Duration) (ip : string),
    someDigits ip = true -> ip <> "0" ->
    UnmarshalJSON d (quoted ip) =
    (d, Some (errorString
                ((if digitsValue ip 0 <=? 2 ^ 63
                  then "time: missing unit in duration "
                  else "time: invalid duration ") ++ quoted ip))).
Proof.
  intros d ip Hip Hne0.
  rewrite UnmarshalJSON_quoted by (apply plain_digits, someDigits_allDigits, Hip).
  rewrite ParseDuration_bare_number by assumption. reflexivity.
Qed.

Lemma quoted_number_rejected_witness :
  UnmarshalJSON (mkDuration 7) (quoted "1000000000") =
  (mkDuration 7,
   Some (errorString
           ((if digitsValue "1000000000" 0 <=? 2 ^ 63
             then "time: missing unit in duration "
             else "time: invalid duration ") ++ quoted "1000000000"))).
Proof.
  apply (quoted_number_rejected (mkDuration 7) "1000000000").
  - reflexivity.
  - discriminate.
Defined.

(** ** What a duration string denotes *)

Lemma unit_bytes (u : string) (unit : Z) :
  time.lookup time.unitMap u = Some unit -> allBytes unitByte u = true.
Proof.
  unfold time.unitMap. cbn [time.lookup].
  repeat match goal with
         | |- context [String.eqb u ?k] =>
             destruct (String.eqb_spec u k) as [->|_]; [intros _; reflexivity|]
         end.
  discriminate.
Qed.

Lemma wellFormedTerm_inv (ip u : string) :
  wellFormedTerm (ip, u) = true ->
  someDigits ip = true /\ time.lookup time.unitMap u = Some (unitValue u).
Proof.
  unfold wellFormedTerm, unitValue. cbn [fst snd]. intros H.
  apply andb_true_iff in H as [H1 H2]. split; [exact H1|].
  destruct (time.lookup time.unitMap u); [reflexivity|discriminate].
Qed.

Lemma termsValue_nonneg (ts : list (string * string)) :
  forallb wellFormedTerm ts = true -> 0 <= termsValue ts.
Proof.
  induction ts as [|[ip u] ts IH]; cbn [forallb termsValue]; intros H; [lia|].
  apply andb_true_iff in H as [Ht Hts].
  apply wellFormedTerm_inv in Ht as [Hip Hu].
  pose proof (unit_positive _ _ Hu).
  pose proof (digitsValue_ge ip 0 (someDigits_allDigits _ Hip) ltac:(lia)).
  specialize (IH Hts). nia.
Qed.

Lemma numberHead_renderTerms (ts : list (string * string)) :
  forallb wellFormedTerm ts = true -> numberHead (renderTerms ts) = true.
Proof.
  destruct ts as [|[ip u] ts]; [reflexivity|]. cbn [forallb renderTerms].
  intros H. apply andb_true_iff in H as [Ht _].
  apply wellFormedTerm_inv in Ht as [Hip _].
  apply someDigits_inv in Hip as (c & ds & -> & Hc & _).
  cbn. rewrite Hc. apply orb_true_r.
Qed.

(** The loop adds up the terms. *)
Lemma ParseDuration_loop_terms (ts : list (string * string)) (fuel : nat)
    (orig : string) (d : Z) :
  forallb wellFormedTerm ts = true ->
  0 <= d -> d + termsValue ts <= 2 ^ 63 ->
  (String.length (renderTerms ts) <= fuel)%nat ->
  time.ParseDuration_loop fuel orig (renderTerms ts) d = (d + termsValue ts, None).
Proof.
  revert fuel d. induction ts as [|[ip u] ts IH]; intros fuel d Hwf Hd Hsum Hfuel.
  - cbn [renderTerms termsValue]. rewrite Z.add_0_r. destruct fuel; reflexivity.
  - cbn [forallb renderTerms termsValue] in *.
    apply andb_true_iff in Hwf as [Ht Hts].
    apply wellFormedTerm_inv in Ht as [Hip Hu].
    pose proof (unit_positive _ _ Hu) as Hup.
    pose proof (digitsValue_ge ip 0 (someDigits_allDigits _ Hip) ltac:(lia)) as Hge.
    pose proof (termsValue_nonneg ts Hts) as Hnn.
    rewrite (ParseDuration_loop_term fuel orig ip u (renderTerms ts) (unitValue u) d);
      try assumption.
    + rewrite IH; [f_equal; lia|assumption|nia|lia|lia].
    + apply (unit_bytes _ _ Hu).
    + apply numberHead_renderTerms, Hts.
    + apply Z.div_le_lower_bound; nia.
    + nia.
Qed.

Lemma ParseDuration_terms (ts : list (string * string)) :
  ts <> [] -> forallb wellFormedTerm ts = true -> termsValue ts < 2 ^ 63 ->
  time.ParseDuration (renderTerms ts) = (termsValue ts, None) /\
  unsigned (renderTerms ts) = true.
Proof.
  intros Hne Hwf Hfit.
  pose proof (termsValue_nonneg ts Hwf) as Hnn.
  destruct ts as [|[ip u] ts]; [congruence|]. clear Hne.
  pose proof Hwf as Hwf'. cbn [forallb] in Hwf'.
  apply andb_true_iff in Hwf' as [Ht _].
  apply wellFormedTerm_inv in Ht as [Hip Hu].
  pose proof (unit_nonempty _ _ Hu) as Hune.
  destruct (someDigits_head ip Hip) as (c & ds & Heq & Hc & Hall).
  assert (Hsign : Ascii.eqb c "-" || Ascii.eqb c "+" = false).
  { apply isDigit_range in Hc. bytes; reflexivity. }
  set (s := renderTerms ((ip, u) :: ts)) in *.
  assert (Hshape : s = String c (ds ++ u ++ renderTerms ts))
    by (unfold s; cbn [renderTerms]; rewrite Heq; reflexivity).
  split.
  - unfold time.ParseDuration. rewrite Hshape at 1. rewrite Hsign. rewrite <- ?Hshape.
    assert (Hn0 : String.eqb s "0" = false).
    { rewrite Hshape. apply String.eqb_neq. intros H. injection H as _ H.
      destruct ds; [|discriminate]. destruct u; [cbn in Hune; lia|discriminate]. }
    rewrite Hn0. replace (String.eqb s "") with false by (rewrite Hshape; reflexivity).
    assert (Hloop : time.ParseDuration_loop (String.length s) s s 0 =
                    (0 + termsValue ((ip, u) :: ts), None))
      by (apply ParseDuration_loop_terms;
          first [assumption | lia | unfold s; apply Nat.le_refl]).
    rewrite Hloop, Z.add_0_l.
    destruct (Z.ltb_spec (2 ^ 63 - 1) (termsValue ((ip, u) :: ts))); [lia|].
    rewrite i64_small by (unfold is_int64; lia). reflexivity.
  - rewrite Hshape. cbn [unsigned]. rewrite Hsign. reflexivity.
Qed.

(** X8: a duration string without fractions denotes the sum of its terms:
    for every non-empty sequence of terms, each a string of digits followed
    by one of the unit names (ns, us and the two micro signs, ms, s, m, h),
    the JSON string of the sequence decodes to the sum of number times unit,
    in nanoseconds, as long as the sum is below 2^63, and with a minus sign
    in front to minus the sum. *)
Theorem terms_value :
  forall (d : Duration) (ts : list (string * string)),
    ts <> [] -> forallb wellFormedTerm ts = true -> termsValue ts < 2 ^ 63 ->
    UnmarshalJSON d (quoted (renderTerms ts)) = (mkDuration (termsValue ts), None) /\
    UnmarshalJSON d (quoted (String "-" (renderTerms ts))) =
      (mkDuration (- termsValue ts), None).
Proof.
  intros d ts Hne Hwf Hfit.
  destruct (ParseDuration_terms ts Hne Hwf Hfit) as [HP Hu]. split.
  - apply UnmarshalJSON_duration_string, HP.
  - apply UnmarshalJSON_duration_string, ParseDuration_minus; assumption.
Qed.

Lemma terms_value_witness :
  renderTerms [("2", "h"); ("045", "m"); ("10", time.mu ++ "s"); ("7", "h")] =
    "2h045m10" ++ time.mu ++ "s7h" /\
  termsValue [("2", "h"); ("045", "m"); ("10", time.mu ++ "s"); ("7", "h")] =
    9 * time.Hour + 45 * time.Minute + 10 * time.Microsecond /\
  UnmarshalJSON (mkDuration 7)
    (quoted (renderTerms [("2", "h"); ("045", "m"); ("10", time.mu ++ "s"); ("7", "h")])) =
    (mkDuration (termsValue [("2", "h"); ("045", "m"); ("10", time.mu ++ "s"); ("7", "h")]),
     None) /\
  UnmarshalJSON (mkDuration 7)
    (quoted (String "-"
       (renderTerms [("2", "h"); ("045", "m"); ("10", time.mu ++ "s"); ("7", "h")]))) =
    (mkDuration (- termsValue [("2", "h"); ("045", "m"); ("10", time.mu ++ "s"); ("7", "h")]),
     None).
Proof.
  split; [vm_compute; reflexivity|]. split; [vm_compute; reflexivity|].
  apply (terms_value (mkDuration 7)
           [("2", "h"); ("045", "m"); ("10", time.mu ++ "s"); ("7", "h")]).
  - discriminate.
  - vm_compute. reflexivity.
  - vm_compute. reflexivity.
Defined.

(** ** White space around the value *)

Lemma isSpace_cases (c : ascii) :
  isSpace c = true ->
  c = " "%char \/ c = byte_of 9 \/ c = byte_of 13 \/ c = byte_of 10.
Proof.
  unfold isSpace. rewrite eqb_code. change (code " ") with 32. intros H.
  apply andb_true_iff in H as [_ H]. rewrite !orb_true_iff, !Z.eqb_eq in H.
  destruct H as [[[H|H]|H]|H];
    [left|right; left|right; right; left|right; right; right];
    apply code_inj; rewrite H; reflexivity.
Qed.

Lemma call_space_begin (c : ascii) e ps er n :
  isSpace c = true ->
  call (mkScanner StateBeginValue e ps er n) c =
  (mkScanner StateBeginValue e ps er n, scanSkipSpace).
Proof.
  intros H. unfold call. cbn [step]. unfold stateBeginValue. rewrite H. reflexivity.
Qed.

Lemma checkValid_loop_spaces (ws : string) (n : Z) :
  spaces ws = true ->
  checkValid_loop ws (scanAt StateBeginValue n) =
  (scanAt StateBeginValue (n + len ws), true).
Proof.
  revert n. induction ws as [|c ws IH]; intros n H.
  - change (len "") with 0. rewrite Z.add_0_r. reflexivity.
  - unfold spaces in H. cbn [allBytes] in H. apply andb_true_iff in H as [Hc Hws].
    cbn [checkValid_loop]. unfold scanAt at 1, incr_bytes.
    cbn [step endTop parseState err bytes].
    rewrite call_space_begin by assumption. cbn [opcode_eqb].
    fold (scanAt StateBeginValue (n + 1)). rewrite IH by assumption.
    rewrite len_cons. do 2 f_equal. lia.
Qed.

Lemma scanWhile_spaces (ws data : string) (off : Z) :
  spaces ws = true ->
  scanWhile scanSkipSpace scan0 (ws ++ data) off =
  scanWhile scanSkipSpace scan0 data (off + len ws).
Proof.
  revert off. induction ws as [|c ws IH]; intros off H.
  - change (len "") with 0. rewrite Z.add_0_r. reflexivity.
  - unfold spaces in H. cbn [allBytes] in H. apply andb_true_iff in H as [Hc Hws].
    cbn [append scanWhile]. unfold scan0 at 1.
    rewrite call_space_begin by assumption. fold scan0. cbn [opcode_eqb].
    rewrite IH by assumption. rewrite len_cons. f_equal. lia.
Qed.

Lemma call_space_end (st : stepfn) (c : ascii) (n : Z) :
  valueEnd st -> isSpace c = true ->
  call (incr_bytes (scanAt st n)) c =
  (mkScanner StateEndTop true [] None (n + 1), scanEnd).
Proof.
  intros Hst Hc. apply isSpace_cases in Hc.
  destruct Hst as [[-> | [-> | [-> | ->]]] | ->];
    destruct Hc as [-> | [-> | [-> | ->]]]; reflexivity.
Qed.

Lemma call_space_top (c : ascii) (n : Z) :
  isSpace c = true ->
  call (incr_bytes (mkScanner StateEndTop true [] None n)) c =
  (mkScanner StateEndTop true [] None (n + 1), scanEnd).
Proof.
  intros Hc. apply isSpace_cases in Hc.
  destruct Hc as [-> | [-> | [-> | ->]]]; reflexivity.
Qed.

Lemma checkValid_loop_top (ws : string) (n : Z) :
  spaces ws = true ->
  checkValid_loop ws (mkScanner StateEndTop true [] None n) =
  (mkScanner StateEndTop true [] None (n + len ws), true).
Proof.
  revert n. induction ws as [|c ws IH]; intros n H.
  - change (len "") with 0. rewrite Z.add_0_r. reflexivity.
  - unfold spaces in H. cbn [allBytes] in H. apply andb_true_iff in H as [Hc Hws].
    cbn [checkValid_loop]. rewrite call_space_top by assumption. cbn [opcode_eqb].
    rewrite IH by assumption. rewrite len_cons. do 2 f_equal. lia.
Qed.

(** After a literal, white space and then the end of the input are
    accepted. *)
Lemma checkValid_loop_end (st : stepfn) (ws : string) (n : Z) :
  valueEnd st -> spaces ws = true ->
  exists s, checkValid_loop ws (scanAt st n) = (s, true) /\ snd (eof s) = scanEnd.
Proof.
  intros Hst H. destruct ws as [|c ws].
  - exists (scanAt st n). split; [reflexivity|].
    destruct Hst as [[-> | [-> | [-> | ->]]] | ->]; reflexivity.
  - unfold spaces in H. cbn [allBytes] in H. apply andb_true_iff in H as [Hc Hws].
    cbn [checkValid_loop]. rewrite call_space_end by assumption. cbn [opcode_eqb].
    rewrite checkValid_loop_top by assumption.
    eexists. split; reflexivity.
Qed.

Lemma checkValid_padded (ws1 b ws2 : string) :
  literalScan b -> spaces ws1 = true -> spaces ws2 = true ->
  checkValid (ws1 ++ b ++ ws2) = None.
Proof.
  intros Hb H1 H2. unfold checkValid.
  change (reset _) with (scanAt StateBeginValue 0).
  rewrite checkValid_loop_app, checkValid_loop_spaces by assumption. cbv beta iota.
  destruct (Hb (0 + len ws1)) as (st & n' & Hst & Hn').
  rewrite checkValid_loop_app, Hn'. cbv beta iota.
  destruct (checkValid_loop_end st ws2 n' Hst H2) as (s & Hs & He). rewrite Hs.
  destruct (eof s) as [s' op]. cbn [snd] in He. subst op. reflexivity.
Qed.

(** After the leading white space the decoder hands the literal to
    [literalStore], with the offset of the literal's end. *)
Lemma unmarshal_padded {A : Type} (ls : string -> Z -> A -> A * option error)
    (typ : string) (ws : string) (c : ascii) (rest : string) (v : A) (s' : scanner) :
  spaces ws = true -> call scan0 c = (s', scanBeginLiteral) ->
  unmarshal ls typ (ws ++ String c rest) v =
  ls (rescanLiteral (String c rest))
     (len ws + len (rescanLiteral (String c rest))) v.
Proof.
  intros Hws Hc. unfold unmarshal. change (reset _) with scan0.
  rewrite scanWhile_spaces by assumption. cbn [scanWhile]. rewrite Hc.
  cbn [opcode_eqb]. cbv beta iota. f_equal. lia.
Qed.

Lemma isSpace_numberByte (c : ascii) : isSpace c = true -> numberByte c = false.
Proof.
  intros Hc. apply isSpace_cases in Hc.
  destruct Hc as [-> | [-> | [-> | ->]]]; reflexivity.
Qed.

Lemma rescanNumber_spaces (rest ws : string) :
  allBytes numberByte rest = true -> spaces ws = true ->
  rescanNumber (rest ++ ws) = rest.
Proof.
  intros Hrest Hws. induction rest as [|c rest IH].
  - cbn [append]. destruct ws as [|c ws]; [reflexivity|].
    unfold spaces in Hws. cbn [allBytes] in Hws.
    apply andb_true_iff in Hws as [Hc _]. apply isSpace_numberByte in Hc.
    cbn [rescanNumber]. unfold numberByte in Hc. rewrite Hc. reflexivity.
  - cbn [allBytes] in Hrest. apply andb_true_iff in Hrest as [Hc Hrest].
    cbn [append rescanNumber]. unfold numberByte in Hc. rewrite Hc, (IH Hrest).
    reflexivity.
Qed.

(** *** The literals *)

Lemma literalScan_number (neg : bool) (ip fr ex : string) :
  jsonInt ip = true -> jsonFrac fr = true -> jsonExp ex = true ->
  literalScan (jsonNumber neg ip fr ex).
Proof.
  intros Hi Hf He n. unfold jsonNumber, scanAt.
  assert (Hsign : exists st0 n0, (st0 = StateBeginValue \/ st0 = StateNeg) /\
            checkValid_loop (if neg then "-" else "")
              (mkScanner StateBeginValue false [] None n) =
            (mkScanner st0 false [] None n0, true)).
  { destruct neg; [exists StateNeg, (n + 1)|exists StateBeginValue, n];
      (split; [tauto|reflexivity]). }
  destruct Hsign as (st0 & n0 & Hst0 & H0).
  destruct (scan_int ip st0 false [] None n0 Hi Hst0) as (st1 & n1 & Hst1 & H1).
  destruct (scan_frac fr st1 false None n1 Hf Hst1) as (st2 & n2 & Hst2 & H2).
  assert (Hst2' : st2 = State0 \/ st2 = State1 \/ st2 = StateDot0).
  { destruct Hst2 as [[_ ->] | [_ ->]]; tauto. }
  destruct (scan_exp ex st2 false None n2 He Hst2') as (st3 & n3 & Hst3 & H3).
  exists st3, n3. split.
  - left. unfold numberEnd. destruct Hst3 as [[_ ->] | [_ ->]]; tauto.
  - rewrite checkValid_loop_app, H0. cbv beta iota.
    rewrite checkValid_loop_app, H1. cbv beta iota.
    rewrite checkValid_loop_app, H2. cbv beta iota. exact H3.
Qed.

Lemma literalScan_quoted (s : string) : plain s -> literalScan (quoted s).
Proof.
  intros Hs n. unfold quoted, scanAt. cbn [checkValid_loop].
  change (call (incr_bytes (mkScanner StateBeginValue false [] None n)) dquote)
    with (mkScanner StateInString false [] None (n + 1), scanBeginLiteral).
  cbn [opcode_eqb]. rewrite checkValid_loop_app, (scan_string_body s) by assumption.
  cbv beta iota.
  exists StateEndValue, (n + 1 + len s + 1). split; [right; reflexivity|reflexivity].
Qed.

Lemma literalScan_word (w : string) :
  w = "null" \/ w = "true" \/ w = "false" -> literalScan w.
Proof.
  intros [-> | [-> | ->]] n.
  - exists StateEndValue, (n + 1 + 1 + 1 + 1). split; [right; reflexivity|reflexivity].
  - exists StateEndValue, (n + 1 + 1 + 1 + 1). split; [right; reflexivity|reflexivity].
  - exists StateEndValue, (n + 1 + 1 + 1 + 1 + 1).
    split; [right; reflexivity|reflexivity].
Qed.

Lemma rescanLiteral_number (c : ascii) (rest ws : string) :
  c = "-"%char \/ isDigit c = true -> allBytes numberByte rest = true ->
  spaces ws = true ->
  rescanLiteral (String c (rest ++ ws)) = String c rest /\
  exists s', call scan0 c = (s', scanBeginLiteral).
Proof.
  intros Hc Hrest Hws. split.
  - unfold rescanLiteral. rewrite (rescanNumber_spaces rest ws Hrest Hws).
    destruct Hc as [-> | Hc]; [reflexivity|].
    rewrite Hc. cbn [orb]. apply isDigit_range in Hc. bytes; reflexivity.
  - destruct Hc as [-> | Hc]; [eexists; reflexivity|].
    apply isDigit_range in Hc. unfold call, scan0. cbn.
    unfold stateBeginValue, set_step. cbn. bytes; eexists; reflexivity.
Qed.

(** X9: white space around an integer literal is ignored: with spaces,
    tabs, carriage returns and line feeds before and after it, the literal
    decodes to its value when that lies in the range of [time.Duration];
    when it does not, the type error of the string decode carries the offset
    of the literal's end, the leading white space counted, and the receiver
    is left as it was. *)
Theorem padded_integer :
  forall (d : Duration) (ws1 ws2 : string) (neg : bool) (int : string),
    spaces ws1 = true -> spaces ws2 = true -> jsonInt int = true ->
    let v := if neg then - digitsValue int 0 else digitsValue int 0 in
    UnmarshalJSON d (ws1 ++ jsonNumber neg int "" "" ++ ws2) =
    if (- 2 ^ 63 <=? v) && (v <? 2 ^ 63) then (mkDuration v, None)
    else (d, Some (UnmarshalTypeError "number" "string"
                     (len ws1 + len (jsonNumber neg int "" "")))).
Proof.
  intros [n] ws1 ws2 neg ip H1 H2 Hi v.
  pose proof (literalScan_number neg ip "" "" Hi eq_refl eq_refl) as Hscan.
  destruct (jsonNumber_shape neg ip "" "" Hi eq_refl eq_refl)
    as (c & rest & Hshape & Hc & Hrest).
  pose proof (ParseInt_literal neg ip (jsonInt_digits _ Hi)) as HP.
  cbv zeta in HP. fold v in HP.
  assert (Heq : jsonNumber neg ip "" "" = (if neg then "-" else "") ++ ip).
  { unfold jsonNumber. rewrite !app_nil_r_s. reflexivity. }
  destruct (rescanLiteral_number c rest ws2 Hc Hrest H2) as (Hre & s' & Hcall).
  unfold UnmarshalJSON, Unmarshal_int64, Unmarshal_string. cbn [Duration_].
  rewrite checkValid_padded by assumption.
  rewrite Hshape. cbn [append].
  rewrite !(unmarshal_padded _ _ ws1 c (rest ++ ws2) _ s') by assumption.
  rewrite Hre. rewrite literalStore_int64_number by assumption.
  rewrite <- Hshape. rewrite Heq at 1. rewrite HP.
  destruct ((- 2 ^ 63 <=? v) && (v <? 2 ^ 63)); [reflexivity|].
  rewrite Hshape at 1. rewrite literalStore_string_number by assumption.
  reflexivity.
Qed.

Lemma padded_integer_witness :
  UnmarshalJSON (mkDuration 7)
    (String (byte_of 9) " " ++ jsonNumber true "1500" "" "" ++ String (byte_of 10) "") =
  if (- 2 ^ 63 <=? - digitsValue "1500" 0) && (- digitsValue "1500" 0 <? 2 ^ 63)
  then (mkDuration (- digitsValue "1500" 0), None)
  else (mkDuration 7, Some (UnmarshalTypeError "number" "string"
          (len (String (byte_of 9) " ") + len (jsonNumber true "1500" "" "")))).
Proof.
  apply (padded_integer (mkDuration 7) (String (byte_of 9) " ")
           (String (byte_of 10) "") true "1500").
  - reflexivity.
  - reflexivity.
  - reflexivity.
Defined.

Lemma rescanLiteral_quoted (s ws : string) :
  plain s -> rescanLiteral (String dquote (s ++ String dquote "" ++ ws)) = quoted s.
Proof.
  intros Hs. unfold rescanLiteral. unfold dquote at 1. rewrite Ascii.eqb_refl.
  cbn [append]. rewrite rescanString_plain by assumption. reflexivity.
Qed.

(** X10: white space around a JSON string is ignored: with spaces, tabs,
    carriage returns and line feeds before and after it, a string that needs
    no escaping is decoded as without them, to the value or to the error of
    [time.ParseDuration] on its contents. *)
Theorem padded_string :
  forall (d : Duration) (ws1 ws2 s : string),
    spaces ws1 = true -> spaces ws2 = true -> plain s ->
    UnmarshalJSON d (ws1 ++ quoted s ++ ws2) = UnmarshalJSON d (quoted s) /\
    UnmarshalJSON d (quoted s) =
      match time.ParseDuration s with
      | (pd, None) => (mkDuration pd, None)
      | (_, Some e) => (d, Some e)
      end.
Proof.
  intros d ws1 ws2 s H1 H2 Hs. split; [|apply UnmarshalJSON_quoted, Hs].
  rewrite UnmarshalJSON_quoted by assumption.
  destruct d as [n]. unfold UnmarshalJSON, Unmarshal_int64, Unmarshal_string.
  cbn [Duration_].
  rewrite checkValid_padded by (assumption || apply literalScan_quoted, Hs).
  unfold quoted at 1 2. cbn [append]. rewrite app_assoc_s.
  rewrite !(unmarshal_padded _ _ ws1 dquote _ _
              (mkScanner StateInString false [] None 0))
    by (assumption || reflexivity).
  rewrite rescanLiteral_quoted by assumption.
  unfold literalStore_int64, literalStore_string.
  rewrite unquoteBytes_quoted by assumption. cbn.
  destruct (time.ParseDuration s) as [pd [e|]]; reflexivity.
Qed.

Lemma padded_string_witness :
  UnmarshalJSON (mkDuration 7)
    (" " ++ quoted ("1h30" ++ time.micro ++ "s") ++ String (byte_of 13) (String (byte_of 10) "")) =
    UnmarshalJSON (mkDuration 7) (quoted ("1h30" ++ time.micro ++ "s")) /\
  UnmarshalJSON (mkDuration 7) (quoted ("1h30" ++ time.micro ++ "s")) =
    match time.ParseDuration ("1h30" ++ time.micro ++ "s") with
    | (pd, None) => (mkDuration pd, None)
    | (_, Some e) => (mkDuration 7, Some e)
    end.
Proof.
  apply (padded_string (mkDuration 7) " " (String (byte_of 13) (String (byte_of 10) ""))
           ("1h30" ++ time.micro ++ "s")).
  - reflexivity.
  - reflexivity.
  - repeat first [apply plain_micro | apply plain_nil
                 | apply plain_byte; [reflexivity|]].
Defined.

(** X11: the JSON value null, with or without white space around it, is
    accepted and changes nothing: no error, and the receiver keeps its
    duration. *)
Theorem null_ignored :
  forall (d : Duration) (ws1 ws2 : string),
    spaces ws1 = true -> spaces ws2 = true ->
    UnmarshalJSON d (ws1 ++ "null" ++ ws2) = (d, None).
Proof.
  intros [n] ws1 ws2 H1 H2. unfold UnmarshalJSON, Unmarshal_int64. cbn [Duration_].
  rewrite checkValid_padded by (assumption || apply literalScan_word; tauto).
  cbn [append].
  rewrite (unmarshal_padded _ _ ws1 "n" _ _ (mkScanner StateN false [] None 0))
    by (assumption || reflexivity).
  reflexivity.
Qed.

Lemma null_ignored_witness :
  UnmarshalJSON (mkDuration 7) (" " ++ "null" ++ String (byte_of 10) "") =
  (mkDuration 7, None).
Proof.
  apply (null_ignored (mkDuration 7) " " (String (byte_of 10) "")).
  - reflexivity.
  - reflexivity.
Defined.

(** X12: the JSON values true and false are refused: the error is the type
    error of the string decode, for a bool, at the offset of the word's end,
    and the receiver is left as it was. *)
Theorem bool_rejected :
  forall (d : Duration) (ws1 ws2 w : string),
    spaces ws1 = true -> spaces ws2 = true -> w = "true" \/ w = "false" ->
    UnmarshalJSON d (ws1 ++ w ++ ws2) =
    (d, Some (UnmarshalTypeError "bool" "string" (len ws1 + len w))).
Proof.
  intros [n] ws1 ws2 w H1 H2 Hw.
  unfold UnmarshalJSON, Unmarshal_int64, Unmarshal_string. cbn [Duration_].
  rewrite checkValid_padded by (assumption || apply literalScan_word; tauto).
  destruct Hw as [-> | ->]; cbn [append].
  - rewrite !(unmarshal_padded _ _ ws1 "t" _ _ (mkScanner StateT false [] None 0))
      by (assumption || reflexivity).
    reflexivity.
  - rewrite !(unmarshal_padded _ _ ws1 "f" _ _ (mkScanner StateF false [] None 0))
      by (assumption || reflexivity).
    reflexivity.
Qed.

Lemma bool_rejected_witness :
  UnmarshalJSON (mkDuration 7) (" " ++ "false" ++ " ") =
  (mkDuration 7, Some (UnmarshalTypeError "bool" "string" (len " " + len "false"))).
Proof.
  apply (bool_rejected (mkDuration 7) " " " " "false").
  - reflexivity.
  - reflexivity.
  - right. reflexivity.
Defined.

(** X13: an input without a value, empty or of white space only, is refused
    as a syntax error, unexpected end of JSON input, at the offset of the
    input's end, and the receiver is left as it was. *)
Theorem blank_rejected :
  forall (d : Duration) (ws : string),
    spaces ws = true ->
    UnmarshalJSON d ws =
    (d, Some (SyntaxError "unexpected end of JSON input" (len ws))).
Proof.
  intros [n] ws Hws.
  assert (Hcv : checkValid ws =
                Some (SyntaxError "unexpected end of JSON input" (len ws))).
  { unfold checkValid. change (reset _) with (scanAt StateBeginValue 0).
    rewrite checkValid_loop_spaces by assumption. rewrite Z.add_0_l. reflexivity. }
  unfold UnmarshalJSON, Unmarshal_int64, Unmarshal_string. cbn [Duration_].
  rewrite Hcv. reflexivity.
Qed.

Lemma blank_rejected_witness :
  UnmarshalJSON (mkDuration 7) (String (byte_of 9) " ") =
  (mkDuration 7,
   Some (SyntaxError "unexpected end of JSON input" (len (String (byte_of 9) " ")))).
Proof.
  apply (blank_rejected (mkDuration 7) (String (byte_of 9) " ")). reflexivity.
Defined.

(** ** The errors of the last term *)

Lemma numberHead_renderTerms_app (ts : list (string * string)) (rest : string) :
  forallb wellFormedTerm ts = true -> numberHead rest = true ->
  numberHead (renderTerms ts ++ rest) = true.
Proof.
  destruct ts as [|[ip u] ts]; [intros _ H; exact H|]. cbn [forallb renderTerms].
  intros H _. apply andb_true_iff in H as [Ht _].
  apply wellFormedTerm_inv in Ht as [Hip _].
  apply someDigits_inv in Hip as (c & ds & -> & Hc & _).
  cbn. rewrite Hc. apply orb_true_r.
Qed.

Lemma plain_renderTerms (ts : list (string * string)) :
  forallb wellFormedTerm ts = true -> plain (renderTerms ts).
Proof.
  induction ts as [|[ip u] ts IH]; cbn [forallb renderTerms]; intros H.
  - constructor.
  - apply andb_true_iff in H as [Ht Hts].
    apply wellFormedTerm_inv in Ht as [Hip Hu].
    apply plain_app; [apply plain_digits, someDigits_allDigits, Hip|].
    apply plain_app; [apply (unit_plain _ _ Hu)|apply IH, Hts].
Qed.

(** The loop adds up the leading terms and goes on with the rest. *)
Lemma ParseDuration_loop_terms_app (ts : list (string * string)) (fuel : nat)
    (orig rest : string) (d : Z) :
  forallb wellFormedTerm ts = true -> numberHead rest = true ->
  0 <= d -> d + termsValue ts <= 2 ^ 63 ->
  (String.length (renderTerms ts ++ rest) <= fuel)%nat ->
  time.ParseDuration_loop fuel orig (renderTerms ts ++ rest) d =
  time.ParseDuration_loop (String.length rest) orig rest (d + termsValue ts).
Proof.
  revert fuel d.
  induction ts as [|[ip u] ts IH]; intros fuel d Hwf Hrest Hd Hsum Hfuel.
  - cbn [renderTerms termsValue append] in *. rewrite Z.add_0_r.
    apply ParseDuration_loop_fuel; lia.
  - cbn [forallb renderTerms termsValue] in *.
    apply andb_true_iff in Hwf as [Ht Hts].
    apply wellFormedTerm_inv in Ht as [Hip Hu].
    pose proof (unit_positive _ _ Hu) as Hup.
    pose proof (digitsValue_ge ip 0 (someDigits_allDigits _ Hip) ltac:(lia)) as Hge.
    pose proof (termsValue_nonneg ts Hts) as Hnn.
    rewrite !app_assoc_s in *.
    rewrite (ParseDuration_loop_term fuel orig ip u (renderTerms ts ++ rest)
               (unitValue u) d); try assumption.
    + rewrite IH; [f_equal; lia|assumption|assumption|nia|lia|lia].
    + apply (unit_bytes _ _ Hu).
    + apply numberHead_renderTerms_app; assumption.
    + apply Z.div_le_lower_bound; nia.
    + nia.
Qed.

Lemma unitByte_noDigitHead (u : string) :
  allBytes unitByte u = true -> noDigitHead u = true.
Proof.
  destruct u as [|c u]; [reflexivity|]. cbn [allBytes noDigitHead]. intros H.
  apply andb_true_iff in H as [Hc _]. unfold unitByte in Hc.
  apply negb_true_iff, orb_false_iff in Hc as [_ Hc]. rewrite Hc. reflexivity.
Qed.







(** ** Signs and strings without a number *)

Lemma ParseDuration_plus (s : string) (v : Z) :
  unsigned s = true -> time.ParseDuration s = (v, None) ->
  time.ParseDuration (String "+" s) = (v, None).
Proof.
  intros Hu. unfold time.ParseDuration at 2. cbn [Ascii.eqb Bool.eqb orb].
  cbv iota beta.
  unfold time.ParseDuration.
  assert (Hs : (let '(neg, s0) :=
                  match s with
                  | "" => (false, s)
                  | String c s' =>
                      if Ascii.eqb c "-" || Ascii.eqb c "+"
                      then (Ascii.eqb c "-", s') else (false, s)
                  end in (neg, s0)) = (false, s)).
  { destruct s as [|c s']; [reflexivity|]. cbn in Hu.
    apply negb_true_iff in Hu. rewrite Hu. reflexivity. }
  destruct (match s with "" => (false, s) | String c s' => _ end) as [neg s0].
  injection Hs as -> ->.
  destruct (String.eqb s "0").
  - intros H. injection H as <-. reflexivity.
  - destruct (String.eqb s ""); [discriminate|].
    destruct (time.ParseDuration_loop _ s s 0) as [d [e|]] eqn:E; [discriminate|].
    rewrite (ParseDuration_loop_orig _ s (String "+" s) s 0 d E).
    destruct (Z.ltb_spec (2 ^ 63 - 1) d) as [|Hle]; [discriminate|].
    intros Hv. exact Hv.
Qed.

(** X16: a plus sign in front of a duration string changes nothing: when
    [time.ParseDuration] accepts an unsigned string with value [v], the JSON
    string of the same with a plus sign in front decodes to [v]. *)
Theorem plus_sign :
  forall (d : Duration) (s : string) (v : Z),
    unsigned s = true -> time.ParseDuration s = (v, None) ->
    UnmarshalJSON d (quoted (String "+" s)) = (mkDuration v, None).
Proof.
  intros d s v Hu HP.
  apply UnmarshalJSON_duration_string, ParseDuration_plus; assumption.
Qed.

Lemma plus_sign_witness :
  UnmarshalJSON (mkDuration 7) (quoted (String "+" "1h30m")) =
  (mkDuration 5400000000000, None).
Proof.
  apply (plus_sign (mkDuration 7) "1h30m" 5400000000000).
  - reflexivity.
  - vm_compute. reflexivity.
Defined.

Lemma ParseDuration_notNumber (sg body : string) :
  sg = "" \/ sg = "+" \/ sg = "-" -> (sg = "" -> unsigned body = true) ->
  notNumber body = true ->
  time.ParseDuration (sg ++ body) = (0, Some (time.invalidDuration (sg ++ body))).
Proof.
  intros Hsg Hu Hb.
  assert (Hbody : forall orig,
    (if String.eqb body "0" then (0, None)
     else if String.eqb body "" then (0, Some (time.invalidDuration orig))
     else
       let '(d, err) := time.ParseDuration_loop (String.length body) orig body 0 in
       match err with
       | Some e => (0, Some e)
       | None => (d, @None error)
       end) = (0, Some (time.invalidDuration orig))).
  { intros orig. destruct body as [|c r]; [reflexivity|]. cbn [notNumber] in Hb.
    assert (Hc : Ascii.eqb c "." || isDigit c = false)
      by (unfold unitByte in Hb; apply negb_true_iff in Hb; exact Hb).
    replace (String.eqb (String c r) "0") with false.
    2:{ symmetry. apply String.eqb_neq. intros H. injection H as -> _.
        discriminate Hc. }
    replace (String.eqb (String c r) "") with false by reflexivity.
    cbn [String.length]. rewrite ParseDuration_loop_unfold, Hc. reflexivity. }
  unfold time.ParseDuration.
  destruct Hsg as [-> | [-> | ->]]; cbn [append].
  - specialize (Hu eq_refl). destruct body as [|c r]; [reflexivity|].
    cbn [unsigned] in Hu. apply negb_true_iff in Hu. rewrite Hu.
    specialize (Hbody (String c r)).
    destruct (String.eqb (String c r) "0"); [discriminate|].
    destruct (String.eqb (String c r) ""); [reflexivity|].
    destruct (time.ParseDuration_loop _ _ _ 0) as [d0 [e|]]; [|discriminate].
    exact Hbody.
  - cbn [Ascii.eqb Bool.eqb orb]. cbv iota beta.
    specialize (Hbody (String "+" body)).
    destruct (String.eqb body "0"); [discriminate|].
    destruct (String.eqb body ""); [reflexivity|].
    destruct (time.ParseDuration_loop _ _ _ 0) as [d0 [e|]]; [|discriminate].
    exact Hbody.
  - cbn [Ascii.eqb Bool.eqb orb]. cbv iota beta.
    specialize (Hbody (String "-" body)).
    destruct (String.eqb body "0"); [discriminate|].
    destruct (String.eqb body ""); [reflexivity|].
    destruct (time.ParseDuration_loop _ _ _ 0) as [d0 [e|]]; [|discriminate].
    exact Hbody.
Qed.

(** X17: a string that does not begin with a number is no duration: when,
    after one optional sign, the string is empty or goes on with a byte that
    is neither a digit nor the point (a space, a letter, a second sign), the
    error is "time: invalid duration <string>", the string quoted as the
    time package quotes, and the receiver is left as it was. *)
Theorem no_number_rejected :
  forall (d : Duration) (sg body : string),
    sg = "" \/ sg = "+" \/ sg = "-" -> (sg = "" -> unsigned body = true) ->
    notNumber body = true -> plain (sg ++ body) ->
    UnmarshalJSON d (quoted (sg ++ body)) =
    (d, Some (errorString ("time: invalid duration " ++ time.quote (sg ++ body)))).
Proof.
  intros d sg body Hsg Hu Hb Hpl.
  rewrite UnmarshalJSON_quoted by assumption.
  rewrite ParseDuration_notNumber by assumption. reflexivity.
Qed.

Lemma no_number_rejected_witness :
  UnmarshalJSON (mkDuration 7) (quoted ("-" ++ " 5m")) =
    (mkDuration 7,
     Some (errorString ("time: invalid duration " ++ time.quote ("-" ++ " 5m")))) /\
  time.quote ("-" ++ " 5m") = quoted "- 5m".
Proof.
  split; [|vm_compute; reflexivity].
  apply (no_number_rejected (mkDuration 7) "-" " 5m").
  - right. right. reflexivity.
  - discriminate.
  - reflexivity.
  - repeat first [apply plain_nil | apply plain_byte; [reflexivity|]].
Defined.

(** ** The receiver *)

Lemma literalStore_int64_receiver (typ item : string) (ri v1 v2 : Z) :
  snd (literalStore_int64 typ item ri v1) = snd (literalStore_int64 typ item ri v2) /\
  (fst (literalStore_int64 typ item ri v1) = fst (literalStore_int64 typ item ri v2) \/
   fst (literalStore_int64 typ item ri v1) = v1 /\
   fst (literalStore_int64 typ item ri v2) = v2).
Proof.
  unfold literalStore_int64. destruct item as [|c item]; [cbn; tauto|].
  destruct (Ascii.eqb c "n"); [cbn; tauto|].
  destruct (_ || _); [cbn; tauto|].
  destruct (Ascii.eqb c dquote); [destruct (unquoteBytes _); cbn; tauto|].
  destruct (_ && _); [cbn; tauto|].
  destruct (strconv.ParseInt _ 10) as [n [e|]]; cbn; tauto.
Qed.

Lemma Unmarshal_int64_receiver (typ b : string) (v1 v2 : Z) :
  snd (Unmarshal_int64 typ b v1) = snd (Unmarshal_int64 typ b v2) /\
  (fst (Unmarshal_int64 typ b v1) = fst (Unmarshal_int64 typ b v2) \/
   fst (Unmarshal_int64 typ b v1) = v1 /\ fst (Unmarshal_int64 typ b v2) = v2).
Proof.
  unfold Unmarshal_int64. destruct (checkValid b); [cbn; tauto|].
  unfold unmarshal.
  destruct (scanWhile scanSkipSpace _ b 0) as [[[s op] off] rest].
  destruct op; try (cbn; tauto). apply literalStore_int64_receiver.
Qed.

(** X18: the receiver's old duration never enters the result: whatever the
    input, two receivers get the same error or none, and either the same
    new duration or each its own old one (on an error, and on null). *)
Theorem receiver_ignored :
  forall (d1 d2 : Duration) (b : string),
    snd (UnmarshalJSON d1 b) = snd (UnmarshalJSON d2 b) /\
    (fst (UnmarshalJSON d1 b) = fst (UnmarshalJSON d2 b) \/
     fst (UnmarshalJSON d1 b) = d1 /\ fst (UnmarshalJSON d2 b) = d2).
Proof.
  intros [v1] [v2] b. unfold UnmarshalJSON. cbn [Duration_].
  destruct (Unmarshal_int64_receiver "time.Duration" b v1 v2) as [He Hv].
  destruct (Unmarshal_int64 "time.Duration" b v1) as [n1 e1] eqn:E1.
  destruct (Unmarshal_int64 "time.Duration" b v2) as [n2 e2] eqn:E2.
  cbn [fst snd] in He, Hv. subst e2.
  destruct e1 as [e|].
  - apply Unmarshal_int64_error in E1, E2. subst n1 n2.
    destruct (Unmarshal_string b "") as [str [e2|]]; [cbn; tauto|].
    destruct (time.ParseDuration str) as [pd [e3|]]; cbn; tauto.
  - cbn [fst snd]. split; [reflexivity|].
    destruct Hv as [-> | [-> ->]]; tauto.
Qed.

(** ** Fractions of a second *)

Lemma ParseDuration_of_loop (s : string) (c : ascii) (rest : string) (v : Z) :
  s = String c rest -> isDigit c = true -> s <> "0" ->
  time.ParseDuration_loop (String.length s) s s 0 = (v, None) ->
  0 <= v < 2 ^ 63 ->
  time.ParseDuration s = (v, None).
Proof.
  intros Hshape Hc Hne0 Hloop Hv.
  assert (Hsign : Ascii.eqb c "-" || Ascii.eqb c "+" = false).
  { apply isDigit_range in Hc. bytes; reflexivity. }
  unfold time.ParseDuration. rewrite Hshape at 1. rewrite Hsign. rewrite <- ?Hshape.
  replace (String.eqb s "0") with false by (symmetry; apply String.eqb_neq, Hne0).
  replace (String.eqb s "") with false by (rewrite Hshape; reflexivity).
  rewrite Hloop.
  destruct (Z.ltb_spec (2 ^ 63 - 1) v); [lia|].
  rewrite i64_small by (unfold is_int64; lia). reflexivity.
Qed.

(** X19: a decimal fraction of a second, millisecond or microsecond is
    exact: after any terms without fraction, a number with a point and at
    most as many decimals as the unit has nanosecond digits (9 for s, 6 for
    ms, 3 for us and its spellings with a micro sign), not all of them 0,
    denotes the number times the unit plus the decimals scaled to
    nanoseconds; the binary64 arithmetic of [time.ParseDuration] loses
    nothing.  The sum has to be below 2^63. *)
Theorem fraction_value :
  forall (d : Duration) (ts : list (string * string)) (ip fs u : string) (p : nat),
    forallb wellFormedTerm ts = true ->
    someDigits ip = true -> someDigits fs = true ->
    time.lookup time.unitMap u = Some (10 ^ Z.of_nat p) ->
    p = 3%nat \/ p = 6%nat \/ p = 9%nat -> (String.length fs <= p)%nat ->
    0 < digitsValue fs 0 ->
    termsValue ts + digitsValue ip 0 * 10 ^ Z.of_nat p +
      digitsValue fs 0 * 10 ^ Z.of_nat (p - String.length fs) < 2 ^ 63 ->
    UnmarshalJSON d (quoted (renderTerms ts ++ ip ++ String "." (fs ++ u))) =
    (mkDuration (termsValue ts + digitsValue ip 0 * 10 ^ Z.of_nat p +
                 digitsValue fs 0 * 10 ^ Z.of_nat (p - String.length fs)), None).
Proof.
  intros d ts ip fs u p Hwf Hip Hfs Hu Hp Hk Hf Hsum.
  pose proof (termsValue_nonneg ts Hwf) as Hnn.
  pose proof (digitsValue_ge ip 0 (someDigits_allDigits _ Hip) ltac:(lia)) as Hge.
  assert (Hpow : 0 < 10 ^ Z.of_nat p) by (apply Z.pow_pos_nonneg; lia).
  assert (Hpow' : 0 < 10 ^ Z.of_nat (p - String.length fs))
    by (apply Z.pow_pos_nonneg; lia).
  set (tail := ip ++ String "." (fs ++ u)).
  set (s := renderTerms ts ++ tail).
  assert (Htail : numberHead tail = true).
  { unfold tail. destruct (someDigits_inv ip Hip) as (c & ds & -> & Hc & _).
    cbn. rewrite Hc. apply orb_true_r. }
  assert (Hshape : exists c rest, s = String c rest /\ isDigit c = true /\ rest <> "").
  { unfold s, tail. destruct ts as [|[ip' u'] ts'].
    - destruct (someDigits_inv ip Hip) as (c & ds & -> & Hc & _).
      exists c, (ds ++ String "." (fs ++ u)). split; [reflexivity|].
      split; [exact Hc|]. destruct ds; discriminate.
    - cbn [forallb] in Hwf. apply andb_true_iff in Hwf as [Ht _].
      apply wellFormedTerm_inv in Ht as [Hip' Hu'].
      apply unit_nonempty in Hu'.
      destruct (someDigits_inv ip' Hip') as (c & ds & -> & Hc & _).
      eexists c, _. split; [reflexivity|]. split; [exact Hc|].
      intros H. apply (f_equal String.length) in H.
      rewrite !length_app_s in H. cbn [String.length] in H. lia. }
  destruct Hshape as (c & rest & Hshape & Hc & Hrest).
  apply UnmarshalJSON_duration_string.
  apply (ParseDuration_of_loop s c rest); try assumption.
  - rewrite Hshape. intros H. injection H as _ H. contradiction.
  - unfold s at 1 3.
    rewrite ParseDuration_loop_terms_app
      by first [assumption | nia | apply Nat.le_refl].
    unfold tail. rewrite <- (app_nil_r_s u).
    rewrite (ParseDuration_loop_term_frac _ s ip fs u "" p (0 + termsValue ts));
      try assumption.
    + cbn [String.length time.ParseDuration_loop]. f_equal; lia.
    + apply (unit_bytes _ _ Hu).
    + reflexivity.
    + apply Nat.le_refl.
    + apply Z.div_le_lower_bound; nia.
    + nia.
  - nia.
Qed.

Lemma fraction_value_witness :
  UnmarshalJSON (mkDuration 7)
    (quoted (renderTerms [("1", "h"); ("2", "m")] ++ "3" ++ String "." ("25" ++ "s"))) =
  (mkDuration (termsValue [("1", "h"); ("2", "m")] + digitsValue "3" 0 * 10 ^ Z.of_nat 9 +
               digitsValue "25" 0 * 10 ^ Z.of_nat (9 - String.length "25")), None) /\
  termsValue [("1", "h"); ("2", "m")] + digitsValue "3" 0 * 10 ^ Z.of_nat 9 +
    digitsValue "25" 0 * 10 ^ Z.of_nat (9 - String.length "25") = 3723250000000.
Proof.
  split; [|vm_compute; reflexivity].
  apply (fraction_value (mkDuration 7) [("1", "h"); ("2", "m")] "3" "25" "s" 9).
  - reflexivity.
  - reflexivity.
  - reflexivity.
  - reflexivity.
  - right. right. reflexivity.
  - cbn. lia.
  - vm_compute. reflexivity.
  - vm_compute. reflexivity.
Defined.

(** ** The text MarshalJSON writes *)

Lemma intOf_decimal (v : Z) : 0 <= v -> intOf v = decimal v.
Proof.
  intros Hv. unfold intOf, decimal.
  destruct (Z.ltb_spec v 0); [lia|reflexivity].
Qed.

Lemma fracOf_whole (v : Z) (prec : nat) :
  0 <= v -> v mod 10 ^ Z.of_nat prec = 0 -> fracOf v prec = "".
Proof.
  intros Hv Hmod.
  destruct (fracOf_spec v prec Hv) as [[_ H] | [H _]]; [exact H|contradiction].
Qed.

Lemma String_nonneg (n : Z) :
  0 <= n < 2 ^ 63 -> time.String_ n = formatAbs n.
Proof.
  intros Hn. unfold time.String_. rewrite format_decomp.
  rewrite magnitude_abs by (unfold is_int64; lia).
  destruct (Z.ltb_spec n 0); [lia|]. rewrite Z.abs_eq by lia. reflexivity.
Qed.

(** X20: a duration of whole seconds, of one second or more, is written as
    hours, minutes and seconds in decimal, each with its unit letter and no
    fraction: the hours only when there are any, the minutes whenever the
    duration is a minute or more, 0 included, and the seconds always; one
    hour is written 1h0m0s. *)
Theorem whole_seconds_text :
  forall h m s : Z,
    0 <= h -> 0 <= m < 60 -> 0 <= s < 60 -> 0 < h + m + s ->
    (h * 3600 + m * 60 + s) * 10 ^ 9 < 2 ^ 63 ->
    MarshalJSON (mkDuration ((h * 3600 + m * 60 + s) * time.Second)) =
    (quoted ((if 0 <? h then decimal h ++ "h" else "") ++
             (if 0 <? h * 60 + m then decimal m ++ "m" else "") ++
             decimal s ++ "s"), None).
Proof.
  intros h m s Hh Hm Hs Hpos Hfit.
  rewrite MarshalJSON_String. cbn [Duration_].
  change time.Second with (10 ^ 9).
  set (T := h * 3600 + m * 60 + s) in *.
  assert (HT : 1 <= T) by (unfold T; lia).
  rewrite String_nonneg by lia. unfold formatAbs.
  destruct (Z.ltb_spec (T * 10 ^ 9) (10 ^ 9)); [lia|]. cbv zeta.
  rewrite Z.div_mul by lia.
  rewrite (fracOf_whole (T * 10 ^ 9) 9) by (try apply Z.mod_mul; lia).
  assert (H60 : T / 60 = h * 60 + m)
    by (symmetry; apply (Z.div_unique T 60 (h * 60 + m) s); unfold T; lia).
  assert (Hs60 : T mod 60 = s)
    by (symmetry; apply (Z.mod_unique T 60 (h * 60 + m) s); unfold T; lia).
  assert (Hh60 : (h * 60 + m) / 60 = h)
    by (symmetry; apply (Z.div_unique (h * 60 + m) 60 h m); lia).
  assert (Hm60 : (h * 60 + m) mod 60 = m)
    by (symmetry; apply (Z.mod_unique (h * 60 + m) 60 h m); lia).
  rewrite H60, Hs60, Hh60, Hm60.
  rewrite !intOf_decimal by lia. reflexivity.
Qed.

Lemma whole_seconds_text_witness :
  MarshalJSON (mkDuration ((1 * 3600 + 0 * 60 + 0) * time.Second)) =
  (quoted ((if 0 <? 1 then decimal 1 ++ "h" else "") ++
           (if 0 <? 1 * 60 + 0 then decimal 0 ++ "m" else "") ++
           decimal 0 ++ "s"), None) /\
  (if 0 <? 1 then decimal 1 ++ "h" else "") ++
    (if 0 <? 1 * 60 + 0 then decimal 0 ++ "m" else "") ++ decimal 0 ++ "s" = "1h0m0s".
Proof.
  split; [|vm_compute; reflexivity].
  apply (whole_seconds_text 1 0 0); lia.
Defined.

(** X21: below one second the unit is the largest of ms, the micro sign
    with s, and ns that is not above the duration: a whole number [k] of
    milliseconds, microseconds or nanoseconds from 1 to 999 is written as
    [k] and that unit; the microsecond is written with the micro sign U+00B5
    in UTF-8, never as us. *)
Theorem subsecond_text :
  forall k : Z,
    0 < k < 1000 ->
    MarshalJSON (mkDuration k) = (quoted (decimal k ++ "ns"), None) /\
    MarshalJSON (mkDuration (k * time.Microsecond)) =
      (quoted (decimal k ++ time.micro ++ "s"), None) /\
    MarshalJSON (mkDuration (k * time.Millisecond)) =
      (quoted (decimal k ++ "ms"), None).
Proof.
  intros k Hk. rewrite !MarshalJSON_String. cbn [Duration_].
  change time.Microsecond with (10 ^ 3). change time.Millisecond with (10 ^ 6).
  rewrite !String_nonneg by lia. unfold formatAbs.
  repeat split; f_equal; f_equal.
  - destruct (Z.ltb_spec k (10 ^ 9)); [|lia].
    destruct (Z.eqb_spec k 0); [lia|].
    destruct (Z.ltb_spec k (10 ^ 3)); [|lia].
    rewrite intOf_decimal by lia. reflexivity.
  - destruct (Z.ltb_spec (k * 10 ^ 3) (10 ^ 9)); [|lia].
    destruct (Z.eqb_spec (k * 10 ^ 3) 0); [lia|].
    destruct (Z.ltb_spec (k * 10 ^ 3) (10 ^ 3)); [lia|].
    destruct (Z.ltb_spec (k * 10 ^ 3) (10 ^ 6)); [|lia].
    rewrite Z.div_mul by lia.
    rewrite (fracOf_whole (k * 10 ^ 3) 3) by (try apply Z.mod_mul; lia).
    rewrite intOf_decimal by lia. reflexivity.
  - destruct (Z.ltb_spec (k * 10 ^ 6) (10 ^ 9)); [|lia].
    destruct (Z.eqb_spec (k * 10 ^ 6) 0); [lia|].
    destruct (Z.ltb_spec (k * 10 ^ 6) (10 ^ 3)); [lia|].
    destruct (Z.ltb_spec (k * 10 ^ 6) (10 ^ 6)); [lia|].
    rewrite Z.div_mul by lia.
    rewrite (fracOf_whole (k * 10 ^ 6) 6) by (try apply Z.mod_mul; lia).
    rewrite intOf_decimal by lia. reflexivity.
Qed.

Lemma subsecond_text_witness :
  (MarshalJSON (mkDuration 250) = (quoted (decimal 250 ++ "ns"), None) /\
   MarshalJSON (mkDuration (250 * time.Microsecond)) =
     (quoted (decimal 250 ++ time.micro ++ "s"), None) /\
   MarshalJSON (mkDuration (250 * time.Millisecond)) =
     (quoted (decimal 250 ++ "ms"), None)) /\
  decimal 250 = "250".
Proof.
  split; [|vm_compute; reflexivity].
  apply (subsecond_text 250). lia.
Defined.

(** X22: a negative duration is written as the minus sign and the text of
    its magnitude. *)
Theorem negative_text :
  forall n : Z,
    0 < n < 2 ^ 63 ->
    MarshalJSON (mkDuration (- n)) = (quoted (String "-" (time.String_ n)), None).
Proof.
  intros n Hn. rewrite MarshalJSON_String. cbn [Duration_].
  rewrite (String_nonneg n) by lia. unfold time.String_. rewrite format_decomp.
  rewrite magnitude_abs by (unfold is_int64; lia).
  destruct (Z.ltb_spec (- n) 0); [|lia]. rewrite Z.abs_neq by lia.
  rewrite Z.opp_involutive. reflexivity.
Qed.

Lemma negative_text_witness :
  MarshalJSON (mkDuration (- 5400000000000)) =
    (quoted (String "-" (time.String_ 5400000000000)), None) /\
  time.String_ 5400000000000 = "1h30m0s".
Proof.
  split; [|vm_compute; reflexivity].
  apply (negative_text 5400000000000). lia.
Defined.

(** ** A duration string out of range *)

Lemma fractionPart_unit (u : string) :
  allBytes unitByte u = true ->
  fractionPart u = (0, float64.of_uint64 1, u, false).
Proof.
  intros Hu. destruct u as [|cu u']; [reflexivity|]. cbn [allBytes] in Hu.
  apply andb_true_iff in Hu as [Hcu _]. unfold unitByte in Hcu.
  apply negb_true_iff, orb_false_iff in Hcu as [Hcu _].
  cbn [fractionPart]. rewrite Hcu. reflexivity.
Qed.

(** The round of the last term, when the sum reaches 2^63: the loop refuses
    it, or ends on 2^63 exactly. *)
Lemma ParseDuration_loop_over (fuel : nat) (orig ip u : string) (unit d : Z) :
  someDigits ip = true -> time.lookup time.unitMap u = Some unit ->
  0 <= d <= 2 ^ 63 -> 2 ^ 63 <= d + digitsValue ip 0 * unit ->
  d < 2 ^ 63 \/ digitsValue ip 0 * unit < 2 ^ 63 ->
  (String.length (ip ++ u) <= fuel)%nat ->
  time.ParseDuration_loop fuel orig (ip ++ u) d =
    (0, Some (time.invalidDuration orig)) \/
  time.ParseDuration_loop fuel orig (ip ++ u) d = (2 ^ 63, None).
Proof.
  intros Hip Hlook Hd Hover Hedge Hfuel.
  pose proof (unit_positive _ _ Hlook) as Hup.
  pose proof (unit_bytes _ _ Hlook) as Hu.
  pose proof (unit_nonempty _ _ Hlook) as Hune.
  destruct (someDigits_head ip Hip) as (c & ds & Heq & Hc & Hall).
  pose proof (digitsValue_ge ip 0 Hall ltac:(lia)) as Hge.
  destruct fuel as [|fuel]; [rewrite Heq in Hfuel; cbn in Hfuel; lia|].
  assert (Hshape : ip ++ u = String c (ds ++ u)) by (rewrite Heq; reflexivity).
  rewrite Hshape. rewrite ParseDuration_loop_unfold. rewrite <- Hshape.
  rewrite Hc, orb_true_r. cbn [negb]. unfold time.leadingInt.
  destruct (Z.leb_spec (digitsValue ip 0) (2 ^ 63)) as [Hfit|Hbig].
  - rewrite leadingInt_loop_digits
      by (assumption || lia || apply unitByte_noDigitHead, Hu).
    rewrite fractionPart_unit by assumption.
    replace (len (ip ++ u) =? len u) with false.
    2:{ symmetry. apply Z.eqb_neq. rewrite len_app, Heq, len_cons.
        pose proof (len_nonneg ds). lia. }
    cbn [negb andb].
    assert (Hsplit : time.splitUnit u = (u, "")).
    { rewrite <- (app_nil_r_s u) at 1. apply splitUnit_app; [assumption|reflexivity]. }
    rewrite Hsplit.
    destruct u as [|cu u']; [cbn in Hune; lia|].
    rewrite Hlook.
    destruct (Z.ltb_spec (2 ^ 63 / unit) (digitsValue ip 0)) as [|Hq];
      [left; reflexivity|].
    assert (Hvu : digitsValue ip 0 * unit <= 2 ^ 63).
    { pose proof (Z.mul_div_le (2 ^ 63) unit ltac:(lia)). nia. }
    change (0 <? 0) with false. cbn [andb].
    assert (Ht : termValue (digitsValue ip 0) unit 0 (float64.of_uint64 1) =
                 digitsValue ip 0 * unit).
    { unfold termValue. change (0 <? 0) with false. cbv iota.
      apply u64_small. nia. }
    rewrite Ht. rewrite u64_small by lia.
    destruct (Z.ltb_spec (2 ^ 63) (d + digitsValue ip 0 * unit)) as [|Hle];
      [left; reflexivity|].
    right. replace (d + digitsValue ip 0 * unit) with (2 ^ 63) by lia.
    destruct fuel; reflexivity.
  - left. rewrite leadingInt_loop_overflow by (assumption || lia). reflexivity.
Qed.

(** X23: a duration string that adds up to 2^63 nanoseconds or more is
    refused, not wrapped around: when the terms before the last are within
    range and the last term brings the sum to 2^63 or over, the error is
    "time: invalid duration <string>" and the receiver is left as it was.
    (The sum of two terms of 2^63 each is the one case left out: there the
    64-bit sum wraps to 0.) *)
Theorem overflow_rejected :
  forall (d : Duration) (ts : list (string * string)) (ip u : string),
    forallb wellFormedTerm ts = true -> wellFormedTerm (ip, u) = true ->
    termsValue ts <= 2 ^ 63 ->
    2 ^ 63 <= termsValue ts + digitsValue ip 0 * unitValue u ->
    termsValue ts < 2 ^ 63 \/ digitsValue ip 0 * unitValue u < 2 ^ 63 ->
    UnmarshalJSON d (quoted (renderTerms ts ++ ip ++ u)) =
    (d, Some (errorString ("time: invalid duration " ++
                           time.quote (renderTerms ts ++ ip ++ u)))).
Proof.
  intros d ts ip u Hwf Ht Hpre Hover Hedge.
  apply wellFormedTerm_inv in Ht as [Hip Hu].
  pose proof (termsValue_nonneg ts Hwf) as Hnn.
  pose proof (unit_nonempty _ _ Hu) as Hune.
  rewrite UnmarshalJSON_quoted.
  2:{ apply plain_app; [apply plain_renderTerms, Hwf|].
      apply plain_app; [apply plain_digits, someDigits_allDigits, Hip|].
      apply (unit_plain _ _ Hu). }
  set (s := renderTerms ts ++ ip ++ u) in *.
  assert (Hhead : numberHead (ip ++ u) = true).
  { destruct (someDigits_inv ip Hip) as (c & ds & -> & Hc & _).
    cbn. rewrite Hc. apply orb_true_r. }
  assert (Hshape : exists c rest, s = String c rest /\ isDigit c = true /\ rest <> "").
  { unfold s. destruct ts as [|[ip' u'] ts'].
    - destruct (someDigits_inv ip Hip) as (c & ds & -> & Hc & _).
      exists c, (ds ++ u). split; [reflexivity|]. split; [exact Hc|].
      destruct ds; [|discriminate]. destruct u; [cbn in Hune; lia|discriminate].
    - cbn [forallb] in Hwf. apply andb_true_iff in Hwf as [Ht' _].
      apply wellFormedTerm_inv in Ht' as [Hip' Hu'].
      apply unit_nonempty in Hu'.
      destruct (someDigits_inv ip' Hip') as (c & ds & -> & Hc & _).
      eexists c, _. split; [reflexivity|]. split; [exact Hc|].
      intros H. apply (f_equal String.length) in H.
      rewrite !length_app_s in H. cbn [String.length] in H. lia. }
  destruct Hshape as (c & rest & Hshape & Hc & Hrest).
  assert (Hsign : Ascii.eqb c "-" || Ascii.eqb c "+" = false).
  { apply isDigit_range in Hc. bytes; reflexivity. }
  assert (Hloop :
    time.ParseDuration_loop (String.length s) s s 0 =
      (0, Some (time.invalidDuration s)) \/
    time.ParseDuration_loop (String.length s) s s 0 = (2 ^ 63, None)).
  { unfold s at 1 3 5 7.
    rewrite ParseDuration_loop_terms_app
      by first [assumption | lia | apply Nat.le_refl].
    apply (ParseDuration_loop_over _ s ip u (unitValue u)); try assumption.
    - lia.
    - apply Nat.le_refl. }
  unfold time.ParseDuration. rewrite Hshape at 1. rewrite Hsign. rewrite <- ?Hshape.
  replace (String.eqb s "0") with false.
  2:{ symmetry. apply String.eqb_neq. rewrite Hshape. intros H.
      injection H as _ H. contradiction. }
  replace (String.eqb s "") with false by (rewrite Hshape; reflexivity).
  destruct Hloop as [-> | ->]; reflexivity.
Qed.

Lemma overflow_rejected_witness :
  UnmarshalJSON (mkDuration 7)
    (quoted (renderTerms [("2562047", "h")] ++ "48" ++ "m")) =
    (mkDuration 7,
     Some (errorString ("time: invalid duration " ++
                        time.quote (renderTerms [("2562047", "h")] ++ "48" ++ "m")))) /\
  time.quote (renderTerms [("2562047", "h")] ++ "48" ++ "m") = quoted "2562047h48m".
Proof.
  split; [|vm_compute; reflexivity].
  apply (overflow_rejected (mkDuration 7) [("2562047", "h")] "48" "m").
  - reflexivity.
  - reflexivity.
  - vm_compute. discriminate.
  - vm_compute. discriminate.
  - left. vm_compute. reflexivity.
Defined.
